(** * TinyCC-WebUI: the per-connection session engine, embedded in Rocq

    A shallow embedding of [src/stream-parser.js], [src/cli-runner.js],
    [src/constants.js] and the WebSocket handlers of [src/server.js],
    followed by the properties of the specification that concern them.

    Conventions.
    - A JavaScript string is the list of its UTF-16 code units, so that
      [.length], [.trim()], [.split('\n')] and [.startsWith] mean what they
      mean in the source.
    - A [throw] is the [Throw] case of [completion]; a [try/catch] is a match
      on it.  State that the source mutates before throwing is returned next
      to the [Throw].
    - Calls made on objects of the platform (the child process, the socket,
      the session directory) are recorded in logs, in call order.
    - A control message is one of the protocol table: each of its fields
      is absent or a string.
    - Console logging is left out: no property below depends on it. *)

From Stdlib Require Import ZArith NArith List Ascii String Lia Bool.
From stdpp Require Import gmap list sorting.
Import ListNotations.
Local Open Scope Z_scope.

(* ===================================================================== *)
(** * JavaScript strings *)
(* ===================================================================== *)

Definition code_unit := N.
Definition jsstring := list code_unit.

(** An ASCII literal as a JavaScript string. *)
Definition js (s : string) : jsstring := map N_of_ascii (list_ascii_of_string s).

(** [s.length] *)
Definition js_length (s : jsstring) : Z := Z.of_nat (length s).

(** [c.repeat(n)] *)
Definition js_repeat (c : jsstring) (n : Z) : jsstring :=
  N.iter (Z.to_N n) (fun acc => c ++ acc) [].

(** [a === b] on strings *)
Fixpoint str_eqb (a b : jsstring) : bool :=
  match a, b with
  | [], [] => true
  | x :: a', y :: b' => N.eqb x y && str_eqb a' b'
  | _, _ => false
  end.

(** WhiteSpace and LineTerminator of ECMAScript, the code units that
    [String.prototype.trim] strips. *)
Definition is_white_space (c : code_unit) : bool :=
  ((9 <=? c) && (c <=? 13) || (c =? 32) || (c =? 160) || (c =? 5760)
   || (8192 <=? c) && (c <=? 8202) || (c =? 8232) || (c =? 8233)
   || (c =? 8239) || (c =? 8287) || (c =? 12288) || (c =? 65279))%N.

Fixpoint trim_start (s : jsstring) : jsstring :=
  match s with
  | c :: s' => if is_white_space c then trim_start s' else s
  | [] => []
  end.

Fixpoint trim_end (s : jsstring) : jsstring :=
  match s with
  | c :: s' =>
      match trim_end s' with
      | [] => if is_white_space c then [] else [c]
      | t => c :: t
      end
  | [] => []
  end.

(** [s.trim()] *)
Definition trim (s : jsstring) : jsstring := trim_end (trim_start s).

(** [s.split(sep)] for a one-unit separator: never empty, [''.split] is
    [['']]. *)
Fixpoint split (sep : code_unit) (s : jsstring) : list jsstring :=
  match s with
  | [] => [[]]
  | c :: s' =>
      if N.eqb c sep then [] :: split sep s'
      else match split sep s' with
           | l :: ls => (c :: l) :: ls
           | [] => [[c]]
           end
  end.

(** [s.startsWith(p)] *)
Fixpoint startsWith (s p : jsstring) {struct p} : bool :=
  match p, s with
  | [], _ => true
  | y :: p', x :: s' => N.eqb x y && startsWith s' p'
  | _ :: _, [] => false
  end.

Definition LF : code_unit := 10%N.

(* ===================================================================== *)
(** * Completions *)
(* ===================================================================== *)

Inductive JsError :=
| Error (message : jsstring)
| TypeError
| SyntaxError.

Inductive completion (A : Type) :=
| Normal (a : A)
| Throw (e : JsError).
Arguments Normal {A} a.
Arguments Throw {A} e.

(* ===================================================================== *)
(** * src/constants.js *)
(* ===================================================================== *)

Definition MAX_INPUT_LENGTH : Z := 10000.
Definition MAX_BUFFER_SIZE : Z := 1024 * 1024.
Definition MAX_CONNECTIONS : Z := 3.

(** [SESSION_ID_PATTERN], /^[0-9a-f]{8}-[0-9a-f]{4}-[0-9a-f]{4}-[0-9a-f]{4}-[0-9a-f]{12}$/i.
    Under the [i] flag, without [u], a code unit above 127 is never folded
    onto an ASCII letter, so [[0-9a-f]] matches the 22 ASCII hex digits. *)
Definition is_hex_digit (c : code_unit) : bool :=
  ((48 <=? c) && (c <=? 57) || (97 <=? c) && (c <=? 102)
   || (65 <=? c) && (c <=? 70))%N.

(** [[0-9a-f]{n}] at the head of [s]: the rest of [s] after [n] hex digits. *)
Fixpoint match_hex (n : nat) (s : jsstring) : option jsstring :=
  match n with
  | O => Some s
  | S n' =>
      match s with
      | c :: s' => if is_hex_digit c then match_hex n' s' else None
      | [] => None
      end
  end.

(** [-] at the head of [s]. *)
Definition match_dash (s : jsstring) : option jsstring :=
  match s with
  | c :: s' => if N.eqb c 45 then Some s' else None
  | [] => None
  end.

Definition and_then {A B} (o : option A) (f : A -> option B) : option B :=
  match o with Some a => f a | None => None end.

(** [SESSION_ID_PATTERN.test(s)] *)
Definition SESSION_ID_PATTERN_test (s : jsstring) : bool :=
  match
    and_then (match_hex 8 s) (fun s1 =>
    and_then (match_dash s1) (fun s2 =>
    and_then (match_hex 4 s2) (fun s3 =>
    and_then (match_dash s3) (fun s4 =>
    and_then (match_hex 4 s4) (fun s5 =>
    and_then (match_dash s5) (fun s6 =>
    and_then (match_hex 4 s6) (fun s7 =>
    and_then (match_dash s7) (fun s8 =>
    match_hex 12 s8))))))))
  with
  | Some [] => true
  | _ => false
  end.

(* ===================================================================== *)
(** * The platform's JSON.parse

    [JSON.parse] is a built-in; this is its grammar (ECMA-404) as a
    recursive-descent parser.  A number is kept as its lexeme: no property
    below looks inside a number. *)
(* ===================================================================== *)

Module JSON.

#[local] Set Warnings "-register-all".

Inductive value :=
| JNull
| JBool (b : bool)
| JNumber (lexeme : jsstring)
| JString (s : jsstring)
| JArray (items : list value)
| JObject (members : list (jsstring * value)).

Definition is_ws (c : code_unit) : bool :=
  ((c =? 32) || (c =? 9) || (c =? 10) || (c =? 13))%N.

Fixpoint skip_ws (s : jsstring) : jsstring :=
  match s with
  | c :: s' => if is_ws c then skip_ws s' else s
  | [] => []
  end.

Definition is_digit (c : code_unit) : bool := ((48 <=? c) && (c <=? 57))%N.

Fixpoint take_digits (s : jsstring) : jsstring * jsstring :=
  match s with
  | c :: s' =>
      if is_digit c then let (d, r) := take_digits s' in (c :: d, r)
      else ([], s)
  | [] => ([], [])
  end.

(** int = 0 | [1-9][0-9]* *)
Definition parse_int (s : jsstring) : option (jsstring * jsstring) :=
  match s with
  | c :: s' =>
      if N.eqb c 48 then Some ([c], s')
      else if is_digit c then Some (take_digits s)
      else None
  | [] => None
  end.

(** frac = . [0-9]+, optional *)
Definition parse_frac (s : jsstring) : option (jsstring * jsstring) :=
  match s with
  | c :: s' =>
      if N.eqb c 46 then
        match take_digits s' with
        | ([], _) => None
        | (d, r) => Some (c :: d, r)
        end
      else Some ([], s)
  | [] => Some ([], [])
  end.

(** exp = [eE] [+-]? [0-9]+, optional *)
Definition parse_exp (s : jsstring) : option (jsstring * jsstring) :=
  match s with
  | c :: s' =>
      if N.eqb c 101 || N.eqb c 69 then
        let (sign, s'') :=
          match s' with
          | g :: t => if N.eqb g 43 || N.eqb g 45 then ([g], t) else ([], s')
          | [] => ([], s')
          end in
        match take_digits s'' with
        | ([], _) => None
        | (d, r) => Some (c :: sign ++ d, r)
        end
      else Some ([], s)
  | [] => Some ([], [])
  end.

(** number = -? int frac exp *)
Definition parse_number (s : jsstring) : option (jsstring * jsstring) :=
  let (sign, s0) :=
    match s with
    | c :: s' => if N.eqb c 45 then ([c], s') else ([], s)
    | [] => ([], s)
    end in
  and_then (parse_int s0) (fun '(i, s1) =>
  and_then (parse_frac s1) (fun '(f, s2) =>
  and_then (parse_exp s2) (fun '(e, s3) =>
  Some (sign ++ i ++ f ++ e, s3)))).

Definition hex_value (c : code_unit) : option N :=
  if is_digit c then Some (c - 48)%N
  else if ((97 <=? c) && (c <=? 102))%N then Some (c - 87)%N
  else if ((65 <=? c) && (c <=? 70))%N then Some (c - 55)%N
  else None.

(** The character a one-letter escape stands for. *)
Definition simple_escape (c : code_unit) : option code_unit :=
  if N.eqb c 34 then Some 34%N          (* quote *)
  else if N.eqb c 92 then Some 92%N     (* backslash *)
  else if N.eqb c 47 then Some 47%N     (* slash *)
  else if N.eqb c 98 then Some 8%N      (* backspace *)
  else if N.eqb c 102 then Some 12%N    (* form feed *)
  else if N.eqb c 110 then Some 10%N    (* line feed *)
  else if N.eqb c 114 then Some 13%N    (* carriage return *)
  else if N.eqb c 116 then Some 9%N     (* tab *)
  else None.

(** The characters of a string literal after its opening quote, up to and
    including the closing quote. *)
Fixpoint parse_chars (s : jsstring) : option (jsstring * jsstring) :=
  match s with
  | [] => None
  | c :: s' =>
      if N.eqb c 34 then Some ([], s')
      else if N.eqb c 92 then
        match s' with
        | e :: s'' =>
            if N.eqb e 117 then
              match s'' with
              | h1 :: h2 :: h3 :: h4 :: s3 =>
                  and_then (hex_value h1) (fun v1 =>
                  and_then (hex_value h2) (fun v2 =>
                  and_then (hex_value h3) (fun v3 =>
                  and_then (hex_value h4) (fun v4 =>
                  and_then (parse_chars s3) (fun '(str, r) =>
                  Some ((v1 * 4096 + v2 * 256 + v3 * 16 + v4)%N :: str, r))))))
              | _ => None
              end
            else
              and_then (simple_escape e) (fun u =>
              and_then (parse_chars s'') (fun '(str, r) => Some (u :: str, r)))
        | [] => None
        end
      else if (c <? 32)%N then None
      else and_then (parse_chars s') (fun '(str, r) => Some (c :: str, r))
  end.

(** [lit] at the head of [s]. *)
Definition expect (lit : jsstring) (s : jsstring) : option jsstring :=
  if startsWith s lit then Some (skipn (length lit) s) else None.

Fixpoint parse_value (fuel : nat) (s : jsstring) : option (value * jsstring) :=
  match fuel with
  | O => None
  | S fuel' =>
      match skip_ws s with
      | [] => None
      | c :: s' =>
          if N.eqb c 123 then                       (* opening brace *)
            match skip_ws s' with
            | d :: s'' =>
                if N.eqb d 125 then Some (JObject [], s'')
                else parse_members fuel' s' []
            | [] => None
            end
          else if N.eqb c 91 then                   (* opening bracket *)
            match skip_ws s' with
            | d :: s'' =>
                if N.eqb d 93 then Some (JArray [], s'')
                else parse_elements fuel' s' []
            | [] => None
            end
          else if N.eqb c 34 then                   (* quote *)
            and_then (parse_chars s') (fun '(str, r) => Some (JString str, r))
          else if N.eqb c 116 then
            and_then (expect (js "true") (c :: s')) (fun r => Some (JBool true, r))
          else if N.eqb c 102 then
            and_then (expect (js "false") (c :: s')) (fun r => Some (JBool false, r))
          else if N.eqb c 110 then
            and_then (expect (js "null") (c :: s')) (fun r => Some (JNull, r))
          else
            and_then (parse_number (c :: s')) (fun '(n, r) => Some (JNumber n, r))
      end
  end
with parse_elements (fuel : nat) (s : jsstring) (acc : list value)
  : option (value * jsstring) :=
  match fuel with
  | O => None
  | S fuel' =>
      and_then (parse_value fuel' s) (fun '(v, r) =>
      match skip_ws r with
      | c :: r' =>
          if N.eqb c 44 then parse_elements fuel' r' (v :: acc)
          else if N.eqb c 93 then Some (JArray (rev (v :: acc)), r')
          else None
      | [] => None
      end)
  end
with parse_members (fuel : nat) (s : jsstring) (acc : list (jsstring * value))
  : option (value * jsstring) :=
  match fuel with
  | O => None
  | S fuel' =>
      match skip_ws s with
      | q :: s' =>
          if N.eqb q 34 then
            and_then (parse_chars s') (fun '(k, r0) =>
            match skip_ws r0 with
            | c :: r1 =>
                if N.eqb c 58 then
                  and_then (parse_value fuel' r1) (fun '(v, r2) =>
                  match skip_ws r2 with
                  | d :: r3 =>
                      if N.eqb d 44 then parse_members fuel' r3 ((k, v) :: acc)
                      else if N.eqb d 125 then
                        Some (JObject (rev ((k, v) :: acc)), r3)
                      else None
                  | [] => None
                  end)
                else None
            | [] => None
            end)
          else None
      | [] => None
      end
  end.

(** [JSON.parse(text)]: one value, white space around it, nothing else.
    Every call of the parser consumes a character before the next but one,
    so twice the length of the text is fuel enough.  The general properties
    below use of [parse] only that it is a function of the text. *)
Definition parse (text : jsstring) : completion value :=
  match parse_value (2 * length text + 2) text with
  | Some (v, r) =>
      match skip_ws r with
      | [] => Normal v
      | _ :: _ => Throw SyntaxError
      end
  | None => Throw SyntaxError
  end.

(** The member of an object under a key; [JSON.parse] keeps the last of
    duplicate keys. *)
Fixpoint member (k : jsstring) (ms : list (jsstring * value)) : option value :=
  match ms with
  | [] => None
  | (k', v) :: ms' =>
      match member k ms' with
      | Some v' => Some v'
      | None => if str_eqb k' k then Some v else None
      end
  end.

(** [v[k]] for a key that no prototype defines: reading a property of
    [null] throws; a primitive or an array has no such property
    ([None] is [undefined]). *)
Definition get (v : value) (k : jsstring) : completion (option value) :=
  match v with
  | JNull => Throw TypeError
  | JObject ms => Normal (member k ms)
  | _ => Normal None
  end.

(** [x === s] for a string literal [s]. *)
Definition is_string (x : option value) (s : jsstring) : bool :=
  match x with
  | Some (JString t) => str_eqb t s
  | _ => false
  end.

End JSON.

(* ===================================================================== *)
(** * src/stream-parser.js *)
(* ===================================================================== *)

Module StreamParser.

Section Parser.

(** The callback registered with [onMessage] acts on whatever it closes
    over, the world [W]: the socket in [src/server.js], a mock in the
    tests. *)
Context {W : Type}.

Record t := {
  buffer : jsstring;
  messageCallback : option (JSON.value -> W -> W)
}.

(** [constructor()] *)
Definition new : t := {| buffer := []; messageCallback := None |}.

(** [onMessage(callback)] *)
Definition onMessage (this : t) (callback : JSON.value -> W -> W) : t :=
  {| buffer := buffer this; messageCallback := Some callback |}.

(** [processMessage(message)] *)
Definition processMessage (this : t) (message : JSON.value) (w : W)
  : completion W :=
  match JSON.get message (js "type") with
  | Throw e => Throw e
  | Normal ty =>
      if JSON.is_string ty (js "system") then Normal w
      else
        match messageCallback this with
        | Some callback => Normal (callback message w)
        | None => Normal w
        end
  end.

(** The body of the loop over [lines] in [parse]: its [try] holds both
    [JSON.parse] and [processMessage], and its [catch] is empty. *)
Definition process_line (this : t) (line : jsstring) (w : W) : W :=
  if js_length (trim line) =? 0 then w
  else
    match JSON.parse line with
    | Throw _ => w
    | Normal json =>
        match processMessage this json w with
        | Normal w' => w'
        | Throw _ => w
        end
    end.

(** [lines.pop() || ''] and what is left of [lines]. *)
Definition pop (lines : list jsstring) : list jsstring * jsstring :=
  (removelast lines, default [] (last lines)).

(** [parse(chunk)].  The buffer is assigned before the size check, so a
    throwing call leaves the chunk appended. *)
Definition parse (this : t) (chunk : jsstring) (w : W)
  : t * W * completion unit :=
  let buffer1 := buffer this ++ chunk in
  let this1 := {| buffer := buffer1; messageCallback := messageCallback this |} in
  if js_length buffer1 >? MAX_BUFFER_SIZE then
    (this1, w, Throw (Error (js "Buffer size exceeded maximum limit")))
  else
    let (lines, rest) := pop (split LF buffer1) in
    let this2 := {| buffer := rest; messageCallback := messageCallback this |} in
    (this2, fold_left (fun w' line => process_line this2 line w') lines w,
     Normal tt).

End Parser.

Arguments t : clear implicits.

End StreamParser.

(* ===================================================================== *)
(** * src/cli-runner.js *)
(* ===================================================================== *)

(** [x || null] on an optional string: the empty string is falsy. *)
Definition or_null (x : option jsstring) : option jsstring :=
  match x with
  | Some [] => None
  | _ => x
  end.

(** [validateSessionId(sessionId)] *)
Definition validateSessionId (sessionId : jsstring) : completion unit :=
  if negb (SESSION_ID_PATTERN_test sessionId) then
    Throw (Error (js "Invalid session ID format"))
  else Normal tt.

Module CLIRunner.

(** One call of [child_process.spawn]. *)
Record SpawnCall := {
  command : jsstring;
  args : list jsstring;
  shell : bool
}.

(** A call on [process.stdin]. *)
Inductive StdinCall :=
| Write (data : jsstring)
| End.

Section Runner.

(** The type of the callbacks handed to [onOutput], [onError], [onExit]. *)
Context {C : Type}.

(** The child process as the runner drives it: the calls received by its
    input channel, the listeners attached to it, the calls of [kill]. *)
Record ChildProcess := {
  stdin : list StdinCall;
  stdout_data : list C;
  stderr_data : list C;
  close : list C;
  kill : nat
}.

Record t := {
  sessionId : option jsstring;
  process : option ChildProcess;
  outputCallback : option C;
  errorCallback : option C;
  exitCallback : option C
}.

(** [new CLIRunner(options)], with [options.sessionId] absent or a
    string. *)
Definition new (options_sessionId : option jsstring) : completion t :=
  let sessionId := or_null options_sessionId in
  let this := {| sessionId := sessionId; process := None;
                 outputCallback := None; errorCallback := None;
                 exitCallback := None |} in
  match sessionId with
  | Some s =>
      match validateSessionId s with
      | Throw e => Throw e
      | Normal _ => Normal this
      end
  | None => Normal this
  end.

(** [spawn(command, args, options)]: the call is logged and a new process
    is returned. *)
Definition spawn (call : SpawnCall) (spawned : list SpawnCall)
  : ChildProcess * list SpawnCall :=
  ({| stdin := []; stdout_data := []; stderr_data := []; close := [];
      kill := 0 |},
   spawned ++ [call]).

(** [l.on(event, callback)] when [callback] is set. *)
Definition attach (callback : option C) (listeners : list C) : list C :=
  match callback with
  | Some c => listeners ++ [c]
  | None => listeners
  end.

(** [start()] *)
Definition start (this : t) (spawned : list SpawnCall)
  : completion (t * list SpawnCall) :=
  match process this with
  | Some _ => Throw (Error (js "CLI process already running"))
  | None =>
      let args := [js "-p"; js "--output-format"; js "stream-json"] in
      let args :=
        match sessionId this with
        | Some s => args ++ [js "-r"; s]
        | None => args
        end in
      let (p, spawned') :=
        spawn {| command := js "claude"; args := args; shell := false |}
              spawned in
      let p := {| stdin := stdin p;
                  stdout_data := attach (outputCallback this) (stdout_data p);
                  stderr_data := attach (errorCallback this) (stderr_data p);
                  close := attach (exitCallback this) (close p);
                  kill := kill p |} in
      Normal ({| sessionId := sessionId this; process := Some p;
                 outputCallback := outputCallback this;
                 errorCallback := errorCallback this;
                 exitCallback := exitCallback this |}, spawned')
  end.

(** [sendInput(input)] *)
Definition sendInput (this : t) (input : jsstring) : completion t :=
  match process this with
  | None => Throw (Error (js "CLI process not started"))
  | Some p =>
      let trimmed := trim input in
      if js_length trimmed =? 0 then
        Throw (Error (js "Input cannot be empty"))
      else if js_length input >? MAX_INPUT_LENGTH then
        Throw (Error (js "Input exceeds maximum length"))
      else
        let p := {| stdin := stdin p ++ [Write (input ++ [LF]); End];
                    stdout_data := stdout_data p;
                    stderr_data := stderr_data p;
                    close := close p; kill := kill p |} in
        Normal {| sessionId := sessionId this; process := Some p;
                  outputCallback := outputCallback this;
                  errorCallback := errorCallback this;
                  exitCallback := exitCallback this |}
  end.

(** [onOutput(callback)] *)
Definition onOutput (this : t) (callback : C) : t :=
  {| sessionId := sessionId this;
     process :=
       match process this with
       | Some p =>
           Some {| stdin := stdin p;
                   stdout_data := stdout_data p ++ [callback];
                   stderr_data := stderr_data p;
                   close := close p; kill := kill p |}
       | None => None
       end;
     outputCallback := Some callback;
     errorCallback := errorCallback this;
     exitCallback := exitCallback this |}.

(** [onError(callback)] *)
Definition onError (this : t) (callback : C) : t :=
  {| sessionId := sessionId this;
     process :=
       match process this with
       | Some p =>
           Some {| stdin := stdin p;
                   stdout_data := stdout_data p;
                   stderr_data := stderr_data p ++ [callback];
                   close := close p; kill := kill p |}
       | None => None
       end;
     outputCallback := outputCallback this;
     errorCallback := Some callback;
     exitCallback := exitCallback this |}.

(** [onExit(callback)] *)
Definition onExit (this : t) (callback : C) : t :=
  {| sessionId := sessionId this;
     process :=
       match process this with
       | Some p =>
           Some {| stdin := stdin p;
                   stdout_data := stdout_data p;
                   stderr_data := stderr_data p;
                   close := close p ++ [callback]; kill := kill p |}
       | None => None
       end;
     outputCallback := outputCallback this;
     errorCallback := errorCallback this;
     exitCallback := Some callback |}.

(** [stop()]: the process is killed and the handle cleared; the killed
    process is returned for inspection. *)
Definition stop (this : t) : t * option ChildProcess :=
  match process this with
  | Some p =>
      ({| sessionId := sessionId this; process := None;
          outputCallback := outputCallback this;
          errorCallback := errorCallback this;
          exitCallback := exitCallback this |},
       Some {| stdin := stdin p; stdout_data := stdout_data p;
               stderr_data := stderr_data p; close := close p;
               kill := S (kill p) |})
  | None => (this, None)
  end.

End Runner.

Arguments ChildProcess : clear implicits.
Arguments t : clear implicits.

End CLIRunner.

(* ===================================================================== *)
(** * The platform's path module (POSIX)

    [path.join], [path.resolve] and [path.basename] are built-ins of
    Node.js; these follow lib/path.js, segment by segment. *)
(* ===================================================================== *)

Module path.

Definition sep : jsstring := js "/".
Definition slash : code_unit := 47%N.

Definition is_empty (s : jsstring) : bool :=
  match s with [] => true | _ :: _ => false end.

(** [parts.join('/')] *)
Fixpoint join_segments (parts : list jsstring) : jsstring :=
  match parts with
  | [] => []
  | [p] => p
  | p :: ps => p ++ sep ++ join_segments ps
  end.

(** The segment stack of [normalizeString], top first: empty segments and
    [.] are skipped, [..] pops a segment that is not itself [..] and is
    otherwise kept only when [allowAboveRoot]. *)
Fixpoint normalize_segments (allowAboveRoot : bool) (segments : list jsstring)
  (res : list jsstring) : list jsstring :=
  match segments with
  | [] => rev res
  | seg :: segments' =>
      if is_empty seg || str_eqb seg (js ".") then
        normalize_segments allowAboveRoot segments' res
      else if str_eqb seg (js "..") then
        match res with
        | top :: res' =>
            if str_eqb top (js "..") then
              normalize_segments allowAboveRoot segments'
                (if allowAboveRoot then seg :: res else res)
            else normalize_segments allowAboveRoot segments' res'
        | [] =>
            normalize_segments allowAboveRoot segments'
              (if allowAboveRoot then [seg] else [])
        end
      else normalize_segments allowAboveRoot segments' (seg :: res)
  end.

Definition normalizeString (p : jsstring) (allowAboveRoot : bool) : jsstring :=
  join_segments (normalize_segments allowAboveRoot (split slash p) []).

Definition isAbsolute (p : jsstring) : bool :=
  match p with c :: _ => N.eqb c slash | [] => false end.

Definition has_trailing_separator (p : jsstring) : bool :=
  match last p with Some c => N.eqb c slash | None => false end.

(** [path.normalize(p)] *)
Definition normalize (p : jsstring) : jsstring :=
  if is_empty p then js "."
  else
    let n := normalizeString p (negb (isAbsolute p)) in
    if is_empty n then
      if isAbsolute p then js "/"
      else if has_trailing_separator p then js "./" else js "."
    else
      let n := if has_trailing_separator p then n ++ sep else n in
      if isAbsolute p then sep ++ n else n.

(** [path.join(...paths)] *)
Definition join (paths : list jsstring) : jsstring :=
  match filter (fun p => negb (is_empty p)) paths with
  | [] => js "."
  | parts => normalize (join_segments parts)
  end.

(** The loop of [path.resolve], over the arguments from the right and then
    the working directory, until an absolute path is met. *)
Fixpoint resolve_loop (paths : list jsstring) (resolvedPath : jsstring)
  : jsstring * bool :=
  match paths with
  | [] => (resolvedPath, false)
  | p :: paths' =>
      if is_empty p then resolve_loop paths' resolvedPath
      else
        let resolvedPath := p ++ sep ++ resolvedPath in
        if isAbsolute p then (resolvedPath, true)
        else resolve_loop paths' resolvedPath
  end.

(** [path.resolve(...paths)] with [process.cwd()] being [cwd]. *)
Definition resolve (cwd : jsstring) (paths : list jsstring) : jsstring :=
  let (resolvedPath, resolvedAbsolute) := resolve_loop (rev paths ++ [cwd]) [] in
  let n := normalizeString resolvedPath (negb resolvedAbsolute) in
  if resolvedAbsolute then sep ++ n
  else if is_empty n then js "." else n.

(** [path.basename(p)] *)
Definition basename (p : jsstring) : jsstring :=
  default [] (last (filter (fun s => negb (is_empty s)) (split slash p))).

(** The directory names along a path. *)
Definition components (p : jsstring) : list jsstring :=
  filter (fun s => negb (is_empty s)) (split slash p).

End path.

(* ===================================================================== *)
(** * src/server.js: validation and the WebSocket handlers *)
(* ===================================================================== *)

(** [validateInput(input)] *)
Definition validateInput (input : jsstring) : completion unit :=
  let trimmed := trim input in
  if js_length trimmed =? 0 then Throw (Error (js "Input cannot be empty"))
  else if js_length input >? MAX_INPUT_LENGTH then
    Throw (Error (js "Input exceeds maximum length"))
  else Normal tt.

Module Server.

(** A control message after [JSON.parse], for the messages of the protocol
    table: each field is absent or a string. *)
Record ControlMessage := {
  type : option jsstring;
  sessionId : option jsstring;
  text : option jsstring;
  projectName : option jsstring
}.

(** An entry of [SessionManager.listSessions()]. *)
Record Session := {
  filename : jsstring;
  preview : jsstring;
  modified : Z
}.

(** The object given to [JSON.stringify] in a call of [ws.send]. *)
Inductive Frame :=
| Forwarded (msg : JSON.value)
| Started (sessionId : option jsstring)
| ErrorNotice (message : jsstring)
| Exit (code : option Z)
| Projects (projects : list jsstring) (defaultProject : option jsstring)
| Sessions (sessions : list Session).

(** A call on the Session Directory collaborator. *)
Inductive DirectoryCall :=
| ListProjects
| ListSessions (projectDir : jsstring).

(** What the server reads from its surroundings: [os], [process.env],
    [process.cwd()], the answers of the session directory and of
    [new URL(origin).hostname] ([None] when [URL] throws). *)
Record Env := {
  homedir : jsstring;
  cwd : jsstring;
  HOME : jsstring;
  CLAUDE_PROJECTS_BASE : option jsstring;
  CLAUDE_PROJECT_DIR : option jsstring;
  listProjects : completion (list jsstring);
  listSessions : jsstring -> completion (list Session);
  hostname : jsstring -> option jsstring
}.

(** The three closures that [handleConnection] hands to the runner. *)
Inductive Callback := OnOutput | OnError | OnExit.

(** The variables and the socket that the handlers of one connection close
    over; [sent] lists the calls of [ws.send]. *)
Record Connection := {
  cliRunner : option (CLIRunner.t Callback);
  streamParser : option (StreamParser.t (list Frame));
  sent : list Frame
}.

(** The module-level state, the sockets with handlers attached, and the
    logs of the calls that leave the server. *)
Record World := {
  activeConnections : Z;
  connections : gmap nat Connection;
  next_ws : nat;
  refused : list nat;
  spawned : list CLIRunner.SpawnCall;
  killed : list (CLIRunner.ChildProcess Callback);
  directory : list DirectoryCall
}.

Section Handlers.

Variable env : Env.

(** [PROJECTS_BASE_DIR] of src/constants.js *)
Definition PROJECTS_BASE_DIR : jsstring :=
  match or_null (CLAUDE_PROJECTS_BASE env) with
  | Some s => s
  | None => js ".claude/projects"
  end.

(** [PROJECT_DIR] *)
Definition PROJECT_DIR : jsstring :=
  match or_null (CLAUDE_PROJECT_DIR env) with
  | Some s => s
  | None => path.join [HOME env; js ".claude/projects/default"]
  end.

(** [isAllowedOrigin(origin)] *)
Definition isAllowedOrigin (origin : option jsstring) : bool :=
  match or_null origin with
  | None => true
  | Some o =>
      match hostname env o with
      | Some h => str_eqb h (js "localhost") || str_eqb h (js "127.0.0.1")
      | None => false
      end
  end.

(** The initial state of the module. *)
Definition init : World :=
  {| activeConnections := 0; connections := ∅; next_ws := 0; refused := [];
     spawned := []; killed := []; directory := [] |}.

(** [handleConnection(ws, req)] for the next socket: a refused socket is
    closed and gets no handler. *)
Definition handleConnection (origin : option jsstring) (w : World) : World :=
  let ws := next_ws w in
  if negb (isAllowedOrigin origin) then
    {| activeConnections := activeConnections w;
       connections := connections w; next_ws := S ws;
       refused := refused w ++ [ws];
       spawned := spawned w; killed := killed w; directory := directory w |}
  else if activeConnections w >=? MAX_CONNECTIONS then
    {| activeConnections := activeConnections w;
       connections := connections w; next_ws := S ws;
       refused := refused w ++ [ws];
       spawned := spawned w; killed := killed w; directory := directory w |}
  else
    {| activeConnections := activeConnections w + 1;
       connections :=
         <[ws := {| cliRunner := None; streamParser := None; sent := [] |}]>
           (connections w);
       next_ws := S ws; refused := refused w;
       spawned := spawned w; killed := killed w; directory := directory w |}.

(** The callback given to [streamParser.onMessage]. *)
Definition forward (msg : JSON.value) (sent : list Frame) : list Frame :=
  sent ++ [Forwarded msg].

(** What a message handler leaves behind: the variables of the connection,
    the logs, and how the [try] block ended. *)
Record Outcome := {
  conn : Connection;
  spawned' : list CLIRunner.SpawnCall;
  killed' : list (CLIRunner.ChildProcess Callback);
  directory' : list DirectoryCall;
  result : completion unit
}.

Definition send (f : Frame) (c : Connection) : Connection :=
  {| cliRunner := cliRunner c; streamParser := streamParser c;
     sent := sent c ++ [f] |}.

(** The branch [message.type === 'start']. *)
Definition on_start (message : ControlMessage) (c : Connection)
  (sp : list CLIRunner.SpawnCall) : Connection * list CLIRunner.SpawnCall
                                    * completion unit :=
  let sessionId := or_null (sessionId message) in
  match CLIRunner.new sessionId with
  | Throw e => (c, sp, Throw e)
  | Normal runner =>
      let parser := StreamParser.onMessage StreamParser.new forward in
      let runner := CLIRunner.onOutput runner OnOutput in
      let runner := CLIRunner.onError runner OnError in
      let runner := CLIRunner.onExit runner OnExit in
      match CLIRunner.start runner sp with
      | Throw e =>
          ({| cliRunner := Some runner; streamParser := Some parser;
              sent := sent c |}, sp, Throw e)
      | Normal (runner, sp') =>
          (send (Started sessionId)
             {| cliRunner := Some runner; streamParser := Some parser;
                sent := sent c |}, sp', Normal tt)
      end
  end.

(** The branch [message.type === 'input']. *)
Definition on_input (message : ControlMessage) (c : Connection)
  : Connection * completion unit :=
  match text message with
  | None => (c, Throw TypeError)
  | Some input =>
      match validateInput input with
      | Throw e => (c, Throw e)
      | Normal _ =>
          match cliRunner c with
          | None => (c, Throw (Error (js "CLI not started")))
          | Some runner =>
              match CLIRunner.sendInput runner input with
              | Throw e => (c, Throw e)
              | Normal runner' =>
                  ({| cliRunner := Some runner';
                      streamParser := streamParser c; sent := sent c |},
                   Normal tt)
              end
          end
      end
  end.

(** The branch [message.type === 'list-projects']. *)
Definition on_list_projects (c : Connection) (dir : list DirectoryCall)
  : Connection * list DirectoryCall * completion unit :=
  match listProjects env with
  | Throw e => (c, dir ++ [ListProjects], Throw e)
  | Normal projects =>
      let defaultProject :=
        match or_null (CLAUDE_PROJECT_DIR env) with
        | Some d => Some (path.basename d)
        | None => None
        end in
      (send (Projects projects defaultProject) c, dir ++ [ListProjects],
       Normal tt)
  end.

(** The branch [message.type === 'list-sessions']. *)
Definition on_list_sessions (message : ControlMessage) (c : Connection)
  (dir : list DirectoryCall)
  : Connection * list DirectoryCall * completion unit :=
  let target :=
    match or_null (projectName message) with
    | Some name =>
        let projectsBase := path.join [homedir env; PROJECTS_BASE_DIR] in
        let requestedPath := path.resolve (cwd env) [projectsBase; name] in
        if negb (startsWith requestedPath (projectsBase ++ path.sep))
           && negb (str_eqb requestedPath projectsBase)
        then Throw (Error (js "Invalid project name: path traversal detected"))
        else Normal requestedPath
    | None => Normal PROJECT_DIR
    end in
  match target with
  | Throw e => (c, dir, Throw e)
  | Normal targetDir =>
      match listSessions env targetDir with
      | Throw e => (c, dir ++ [ListSessions targetDir], Throw e)
      | Normal sessions =>
          (send (Sessions sessions) c, dir ++ [ListSessions targetDir],
           Normal tt)
      end
  end.

(** The branch [message.type === 'stop']. *)
Definition on_stop (c : Connection)
  (kl : list (CLIRunner.ChildProcess Callback))
  : Connection * list (CLIRunner.ChildProcess Callback) :=
  match cliRunner c with
  | Some runner =>
      ({| cliRunner := None; streamParser := streamParser c; sent := sent c |},
       kl ++ option_list (snd (CLIRunner.stop runner)))
  | None => (c, kl)
  end.

(** [message.type === t] *)
Definition type_is (message : ControlMessage) (t : string) : bool :=
  match type message with
  | Some s => str_eqb s (js t)
  | None => false
  end.

(** The [try] block of the ['message'] handler; [None] is data on which
    [JSON.parse] throws. *)
Definition dispatch (data : option ControlMessage) (c : Connection)
  (w : World) : Outcome :=
  let out c sp kl dir r :=
    {| conn := c; spawned' := sp; killed' := kl; directory' := dir;
       result := r |} in
  match data with
  | None => out c (spawned w) (killed w) (directory w) (Throw SyntaxError)
  | Some message =>
      if type_is message "start" then
        let '(c', sp, r) := on_start message c (spawned w) in
        out c' sp (killed w) (directory w) r
      else if type_is message "input" then
        let '(c', r) := on_input message c in
        out c' (spawned w) (killed w) (directory w) r
      else if type_is message "list-projects" then
        let '(c', dir, r) := on_list_projects c (directory w) in
        out c' (spawned w) (killed w) dir r
      else if type_is message "list-sessions" then
        let '(c', dir, r) := on_list_sessions message c (directory w) in
        out c' (spawned w) (killed w) dir r
      else if type_is message "stop" then
        let '(c', kl) := on_stop c (killed w) in
        out c' (spawned w) kl (directory w) (Normal tt)
      else
        out c (spawned w) (killed w) (directory w)
          (Throw (Error (js "Unknown message type: " ++
                         default (js "undefined") (type message))))
  end.

(** The ['message'] handler: the [try] block, then its [catch]. *)
Definition on_message (data : option ControlMessage) (c : Connection)
  (w : World) : Outcome :=
  let o := dispatch data c w in
  match result o with
  | Normal _ => o
  | Throw _ =>
      {| conn := send (ErrorNotice (js "Failed to process request")) (conn o);
         spawned' := spawned' o; killed' := killed' o;
         directory' := directory' o; result := result o |}
  end.

(** The callback given to [cliRunner.onOutput]. *)
Definition on_output (chunk : jsstring) (c : Connection) : Connection :=
  match streamParser c with
  | None => send (ErrorNotice (js "Failed to parse CLI output")) c
  | Some parser =>
      match StreamParser.parse parser chunk (sent c) with
      | (parser', sent', Normal _) =>
          {| cliRunner := cliRunner c; streamParser := Some parser';
             sent := sent' |}
      | (parser', sent', Throw _) =>
          send (ErrorNotice (js "Failed to parse CLI output"))
            {| cliRunner := cliRunner c; streamParser := Some parser';
               sent := sent' |}
      end
  end.

(** The callback given to [cliRunner.onError]. *)
Definition on_error (chunk : jsstring) (c : Connection) : Connection :=
  send (ErrorNotice (js "CLI process encountered an error")) c.

(** The callback given to [cliRunner.onExit]. *)
Definition on_exit (code : option Z) (c : Connection) : Connection :=
  let c := send (Exit code) c in
  {| cliRunner := None; streamParser := streamParser c; sent := sent c |}.

(** What reaches the server; the text of a chunk is its [toString()]. *)
Inductive Event :=
| Connect (origin : option jsstring)
| Message (ws : nat) (data : option ControlMessage)
| Close (ws : nat)
| Stdout (ws : nat) (chunk : jsstring)
| Stderr (ws : nat) (chunk : jsstring)
| ProcessClose (ws : nat) (code : option Z).

Definition update (ws : nat) (c : Connection) (w : World) : World :=
  {| activeConnections := activeConnections w;
     connections := <[ws := c]> (connections w);
     next_ws := next_ws w; refused := refused w;
     spawned := spawned w; killed := killed w; directory := directory w |}.

(** The ['close'] handler of an accepted socket; a socket emits ['close']
    once, so its handlers go with it. *)
Definition on_close (ws : nat) (c : Connection) (w : World) : World :=
  {| activeConnections := activeConnections w - 1;
     connections := delete ws (connections w);
     next_ws := next_ws w; refused := refused w;
     spawned := spawned w;
     killed :=
       match cliRunner c with
       | Some runner => killed w ++ option_list (snd (CLIRunner.stop runner))
       | None => killed w
       end;
     directory := directory w |}.

(** The server's reaction to one event.  An event on a socket without
    handlers reaches no code of the server; what the process of a closed
    socket still emits reaches only the variables of that socket, which
    nothing reads any more.  The message handler is taken as one step: its
    two [await]s, on the session directory, come after every check of the
    request. *)
Definition step (w : World) (e : Event) : World :=
  match e with
  | Connect origin => handleConnection origin w
  | Message ws data =>
      match connections w !! ws with
      | Some c =>
          let o := on_message data c w in
          {| activeConnections := activeConnections w;
             connections := <[ws := conn o]> (connections w);
             next_ws := next_ws w; refused := refused w;
             spawned := spawned' o; killed := killed' o;
             directory := directory' o |}
      | None => w
      end
  | Close ws =>
      match connections w !! ws with
      | Some c => on_close ws c w
      | None => w
      end
  | Stdout ws chunk =>
      match connections w !! ws with
      | Some c => update ws (on_output chunk c) w
      | None => w
      end
  | Stderr ws chunk =>
      match connections w !! ws with
      | Some c => update ws (on_error chunk c) w
      | None => w
      end
  | ProcessClose ws code =>
      match connections w !! ws with
      | Some c => update ws (on_exit code c) w
      | None => w
      end
  end.

Definition run (w : World) (events : list Event) : World :=
  fold_left step events w.

End Handlers.

End Server.

(* ===================================================================== *)
(** * src/server.js: log sanitising *)
(* ===================================================================== *)

(** The class [[\r\n\t\x00-\x1F\x7F]]: the units up to 31, and 127. *)
Definition is_control (c : code_unit) : bool := ((c <=? 31) || (c =? 127))%N.

(** [sanitizeLogMessage(message)] for a string: every match of the class is
    replaced by nothing. *)
Definition sanitizeLogMessage (message : jsstring) : jsstring :=
  filter (fun c => negb (is_control c)) message.

(* ===================================================================== *)
(** * The platform's Array.prototype.sort

    [sort] is stable: by insertion from the right, an element goes before
    the first one that it does not have to follow. *)
(* ===================================================================== *)

Fixpoint insert_sorted {A} (before : A -> A -> bool) (x : A) (l : list A)
  : list A :=
  match l with
  | [] => [x]
  | y :: l' => if before x y then x :: l else y :: insert_sorted before x l'
  end.

(** [l.sort(compare)], with [before a b] for [compare(a, b) <= 0]. *)
Fixpoint js_sort {A} (before : A -> A -> bool) (l : list A) : list A :=
  match l with
  | [] => []
  | x :: l' => insert_sorted before x (js_sort before l')
  end.

(** [a <= b] on strings, unit by unit: the order of [sort()] without
    comparator. *)
Fixpoint str_leb (a b : jsstring) : bool :=
  match a, b with
  | [], _ => true
  | _ :: _, [] => false
  | x :: a', y :: b' => (x <? y)%N || (N.eqb x y && str_leb a' b')
  end.

(** [s.endsWith(suffix)] *)
Definition endsWith (s suffix : jsstring) : bool :=
  (length suffix <=? length s)%nat
  && str_eqb (skipn (length s - length suffix) s) suffix.

(* ===================================================================== *)
(** * src/session-manager.js *)
(* ===================================================================== *)

Definition MAX_PREVIEW_LENGTH : Z := 100.
Definition MAX_PREVIEW_LINES : Z := 100.

Module SessionManager.

(** An entry of [readdir(dir, { withFileTypes: true })]. *)
Record Dirent := {
  name : jsstring;
  isDirectory : bool
}.

(** The outcome of a call of [fs/promises]: a value, or an error with its
    [code] and [message]. *)
Inductive FsResult (A : Type) :=
| FsOk (a : A)
| FsError (code message : jsstring).
Arguments FsOk {A} a.
Arguments FsError {A} code message.

(** How the line reader of a file ends: with ['close'], or with
    ['error']. *)
Inductive StreamEnd := Closed | Failed.

(** The file system as the session manager sees it: the entries of a
    directory, the [mtimeMs] of a file ([None] when [stat] throws; a time
    in whole units, of which only the order is used), and the lines that
    [readline] emits for a file, with the end of the stream. *)
Record FileSystem := {
  readdir : jsstring -> FsResult (list Dirent);
  stat_mtimeMs : jsstring -> option Z;
  readLines : jsstring -> list jsstring * StreamEnd
}.

(** The [try] block of the ['line'] handler: the text that it resolves
    with, if it does.  It resolves when [json.type] is [user] and
    [json.message.content] is truthy and has [trim]: of the values of
    JSON, a string that is not empty, inside an object.  For any other
    [message] or [content] the condition is falsy or [trim] is not a
    function, which the empty [catch] swallows. *)
Definition user_text (line : jsstring) : option jsstring :=
  match JSON.parse line with
  | Throw _ => None
  | Normal json =>
      match JSON.get json (js "type") with
      | Throw _ => None
      | Normal ty =>
          if JSON.is_string ty (js "user") then
            match JSON.get json (js "message") with
            | Normal (Some (JSON.JObject message)) =>
                match JSON.member (js "content") message with
                | Some (JSON.JString content) =>
                    if path.is_empty content then None
                    else Some (trim content)
                | _ => None
                end
            | _ => None
            end
          else None
      end
  end.

(** The two ways of resolving with the text: cut at [MAX_PREVIEW_LENGTH]
    with an ellipsis, or whole. *)
Definition clip (text : jsstring) : jsstring :=
  if js_length text >? MAX_PREVIEW_LENGTH then
    take (Z.to_nat MAX_PREVIEW_LENGTH) text ++ js "..."
  else text.

(** The promise of [extractPreview] over the lines still to come, with
    [lineCount] lines seen: the first call of [resolve] decides.  The
    reader is closed at the first user message and at line
    [MAX_PREVIEW_LINES + 1]; closing runs the ['close'] handler. *)
Fixpoint read_preview (lines : list jsstring) (lineCount : Z) (e : StreamEnd)
  : jsstring :=
  match lines with
  | [] =>
      match e with
      | Closed =>
          if lineCount =? 0 then js "(empty session)"
          else js "(no user messages)"
      | Failed => js "(read error)"
      end
  | l :: lines' =>
      let lineCount := lineCount + 1 in
      if lineCount >? MAX_PREVIEW_LINES then js "(no user messages)"
      else if js_length (trim l) =? 0 then read_preview lines' lineCount e
      else
        match user_text l with
        | Some text => clip text
        | None => read_preview lines' lineCount e
        end
  end.

(** [extractPreview(filePath)] *)
Definition extractPreview (fs : FileSystem) (filePath : jsstring) : jsstring :=
  let (lines, e) := readLines fs filePath in
  read_preview lines 0 e.

(** The body of the loop of [listSessions] for one file name: the session
    pushed, none when [stat] throws. *)
Definition session_of (fs : FileSystem) (projectDir filename : jsstring)
  : list Server.Session :=
  let filePath := path.join [projectDir; filename] in
  match stat_mtimeMs fs filePath with
  | None => []
  | Some mtimeMs =>
      [{| Server.filename := filename;
          Server.preview := extractPreview fs filePath;
          Server.modified := mtimeMs |}]
  end.

(** The comparator of [listSessions], [b.modified - a.modified]. *)
Definition newer_first (a b : Server.Session) : bool :=
  Server.modified b - Server.modified a <=? 0.

(** [new SessionManager(projectDir).listSessions()] *)
Definition listSessions (fs : FileSystem) (projectDir : jsstring)
  : completion (list Server.Session) :=
  match readdir fs projectDir with
  | FsError code message =>
      if str_eqb code (js "ENOENT") then Normal []
      else Throw (Error message)
  | FsOk entries =>
      let jsonlFiles :=
        map name
          (filter (fun entry => negb (isDirectory entry)
                                && endsWith (name entry) (js ".jsonl"))
             entries) in
      let sessions := flat_map (session_of fs projectDir) jsonlFiles in
      Normal (js_sort newer_first sessions)
  end.

(** [SessionManager.listProjects(baseDir)], with [os.homedir()] and
    [PROJECTS_BASE_DIR] as given. *)
Definition listProjects (homedir PROJECTS_BASE_DIR : jsstring)
  (fs : FileSystem) (baseDir : option jsstring) : completion (list jsstring) :=
  let projectsBase :=
    match or_null baseDir with
    | Some d => d
    | None => path.join [homedir; PROJECTS_BASE_DIR]
    end in
  match readdir fs projectsBase with
  | FsError code message =>
      if str_eqb code (js "ENOENT") then Normal []
      else Throw (Error message)
  | FsOk entries =>
      let directories := map name (filter isDirectory entries) in
      Normal (js_sort str_leb directories)
  end.

End SessionManager.

(** The surroundings of the server with the session directory read from a
    file system. *)
Definition with_file_system (env : Server.Env) (fs : SessionManager.FileSystem)
  : Server.Env :=
  {| Server.homedir := Server.homedir env;
     Server.cwd := Server.cwd env;
     Server.HOME := Server.HOME env;
     Server.CLAUDE_PROJECTS_BASE := Server.CLAUDE_PROJECTS_BASE env;
     Server.CLAUDE_PROJECT_DIR := Server.CLAUDE_PROJECT_DIR env;
     Server.listProjects :=
       SessionManager.listProjects (Server.homedir env)
         (Server.PROJECTS_BASE_DIR env) fs None;
     Server.listSessions := SessionManager.listSessions fs;
     Server.hostname := Server.hostname env |}.

(* ===================================================================== *)
(** * Notions used in the statements *)
(* ===================================================================== *)

(** The delimiter-terminated lines of a stream, and what follows its last
    delimiter. *)
Definition complete_lines (stream : jsstring) : list jsstring :=
  removelast (split LF stream).

Definition pending (stream : jsstring) : jsstring :=
  default [] (last (split LF stream)).

(** A decoded message is of the system category when it is an object whose
    [type] member is the string [system]. *)
Definition is_system (v : JSON.value) : bool :=
  match v with
  | JSON.JObject ms => JSON.is_string (JSON.member (js "type") ms) (js "system")
  | _ => false
  end.

(** The messages that one complete line hands to the callback: none for a
    blank line, for a line that is not JSON, for a system message and for
    the JSON value [null]; the decoded value otherwise. *)
Definition line_messages (line : jsstring) : list JSON.value :=
  if js_length (trim line) =? 0 then []
  else
    match JSON.parse line with
    | Throw _ => []
    | Normal JSON.JNull => []
    | Normal v => if is_system v then [] else [v]
    end.

(** The callback applied to a sequence of messages, in order. *)
Definition deliver {W} (callback : JSON.value -> W -> W)
  (msgs : list JSON.value) (w : W) : W :=
  fold_left (fun w' m => callback m w') msgs w.

(** The loop of [parse] over some lines. *)
Definition process_lines {W} (p : StreamParser.t W) (lines : list jsstring)
  (w : W) : W :=
  fold_left (fun w' line => StreamParser.process_line p line w') lines w.

(** The decoder fed chunk after chunk, as the output callback of the server
    does: a throwing call does not stop the next one. *)
Fixpoint feed {W} (p : StreamParser.t W) (chunks : list jsstring) (w : W)
  : StreamParser.t W * W * list (completion unit) :=
  match chunks with
  | [] => (p, w, [])
  | chunk :: chunks' =>
      let '(p1, w1, r) := StreamParser.parse p chunk w in
      let '(p2, w2, rs) := feed p1 chunks' w1 in
      (p2, w2, r :: rs)
  end.

Definition is_normal {A} (r : completion A) : bool :=
  match r with Normal _ => true | Throw _ => false end.

(** A callback that records its arguments, like the mock of the tests. *)
Definition record (msg : JSON.value) (calls : list JSON.value)
  : list JSON.value := calls ++ [msg].

(** A new decoder with the recording callback. *)
Definition recorder : StreamParser.t (list JSON.value) :=
  StreamParser.onMessage StreamParser.new record.

(** The messages dispatched when a new decoder is fed [chunks]. *)
Definition dispatched (chunks : list jsstring) : list JSON.value :=
  snd (fst (feed recorder chunks [])).

(** No call of [parse] throws when a new decoder is fed [chunks]. *)
Definition no_fault (chunks : list jsstring) : bool :=
  forallb is_normal (snd (feed recorder chunks [])).

(** The text that validation accepts: something is left after trimming,
    and the text itself, untrimmed, is within the limit. *)
Definition acceptable (input : jsstring) : Prop :=
  1 <= js_length (trim input) /\ js_length input <= MAX_INPUT_LENGTH.

(** The errors of input validation. *)
Definition is_validation_error (e : JsError) : Prop :=
  e = Error (js "Input cannot be empty")
  \/ e = Error (js "Input exceeds maximum length").

(** 32 hex digits grouped 8-4-4-4-12. *)
Definition token_format (s : jsstring) : Prop :=
  exists g1 g2 g3 g4 g5 : jsstring,
    s = g1 ++ js "-" ++ g2 ++ js "-" ++ g3 ++ js "-" ++ g4 ++ js "-" ++ g5
    /\ length g1 = 8%nat /\ length g2 = 4%nat /\ length g3 = 4%nat
    /\ length g4 = 4%nat /\ length g5 = 12%nat
    /\ Forall (fun c => is_hex_digit c = true) (g1 ++ g2 ++ g3 ++ g4 ++ g5).

(** A path lies inside a directory when the names along the directory are
    the first names along the path. *)
Definition inside (dir p : jsstring) : Prop :=
  path.components dir `prefix_of` path.components p.

(** The calls received so far by the input channel of a runner's process. *)
Definition stdin_of {C} (r : CLIRunner.t C) : list CLIRunner.StdinCall :=
  match CLIRunner.process r with
  | Some p => CLIRunner.stdin p
  | None => []
  end.

(** Some call of [write] comes after a call of [end] on the channel. *)
Fixpoint written_after_end (calls : list CLIRunner.StdinCall) : bool :=
  match calls with
  | [] => false
  | CLIRunner.End :: calls' =>
      existsb (fun c => match c with
                        | CLIRunner.Write _ => true
                        | CLIRunner.End => false
                        end) calls'
      || written_after_end calls'
  | CLIRunner.Write _ :: calls' => written_after_end calls'
  end.

(** A process as [spawn] returns it, and a runner that holds one. *)
Definition new_process {C} : CLIRunner.ChildProcess C :=
  {| CLIRunner.stdin := []; CLIRunner.stdout_data := [];
     CLIRunner.stderr_data := []; CLIRunner.close := [];
     CLIRunner.kill := 0 |}.

Definition running {C} : CLIRunner.t C :=
  {| CLIRunner.sessionId := None; CLIRunner.process := Some new_process;
     CLIRunner.outputCallback := None; CLIRunner.errorCallback := None;
     CLIRunner.exitCallback := None |}.

(** Surroundings for the examples. *)
Definition example_env : Server.Env :=
  {| Server.homedir := js "/home/user";
     Server.cwd := js "/srv/app";
     Server.HOME := js "/home/user";
     Server.CLAUDE_PROJECTS_BASE := None;
     Server.CLAUDE_PROJECT_DIR := None;
     Server.listProjects := Normal [];
     Server.listSessions := fun _ => Normal [];
     Server.hostname := fun o =>
       if str_eqb o (js "http://localhost:3000") then Some (js "localhost")
       else if str_eqb o (js "http://evil-localhost.com") then
         Some (js "evil-localhost.com")
       else None |}.

(** Control messages of the protocol. *)
Definition start_message (sessionId : option jsstring) : Server.ControlMessage :=
  {| Server.type := Some (js "start"); Server.sessionId := sessionId;
     Server.text := None; Server.projectName := None |}.

Definition input_message (text : jsstring) : Server.ControlMessage :=
  {| Server.type := Some (js "input"); Server.sessionId := None;
     Server.text := Some text; Server.projectName := None |}.

Definition list_sessions_message (projectName : jsstring)
  : Server.ControlMessage :=
  {| Server.type := Some (js "list-sessions"); Server.sessionId := None;
     Server.text := None; Server.projectName := Some projectName |}.

(** A connection as [handleConnection] leaves it, and one whose runner has
    a process. *)
Definition idle_connection : Server.Connection :=
  {| Server.cliRunner := None; Server.streamParser := None;
     Server.sent := [] |}.

Definition active_connection : Server.Connection :=
  {| Server.cliRunner := Some running; Server.streamParser := None;
     Server.sent := [] |}.

(** A connection in a turn: runner with a process, decoder just wired. *)
Definition connection_in_turn : Server.Connection :=
  {| Server.cliRunner := Some running;
     Server.streamParser :=
       Some (StreamParser.onMessage StreamParser.new Server.forward);
     Server.sent := [] |}.

(** The notice that the [catch] of the message handler sends. *)
Definition request_failed : Server.Frame :=
  Server.ErrorNotice (js "Failed to process request").

(** The counter counts the sockets with handlers, stays within the
    ceiling, and the next socket is a new one. *)
Definition counter_invariant (w : Server.World) : Prop :=
  Server.activeConnections w = Z.of_nat (size (Server.connections w))
  /\ 0 <= Server.activeConnections w <= MAX_CONNECTIONS
  /\ forall ws, (Server.next_ws w <= ws)%nat -> Server.connections w !! ws = None.

(** An event that is neither a connection nor the close of a socket. *)
Definition is_traffic (e : Server.Event) : bool :=
  match e with
  | Server.Connect _ | Server.Close _ => false
  | _ => true
  end.

(** The fixed part of the argument vector. *)
Definition fixed_args : list jsstring :=
  [js "-p"; js "--output-format"; js "stream-json"].

(** An ASCII literal in which an apostrophe stands for a double quote. *)
Definition jsq (s : string) : jsstring :=
  map (fun c => if N.eqb c 39 then 34%N else c) (js s).

(** A text with its delimiter. *)
Definition line (s : jsstring) : jsstring := s ++ [LF].

(** Inputs of the examples: a chunk one unit over the ceiling, and a stream
    of two messages, a number and a long string, that is one unit over the
    ceiling, whole and cut between its lines. *)
Definition oversized_chunk : jsstring :=
  js_repeat (js "a") (MAX_BUFFER_SIZE + 1).

Definition long_message : jsstring :=
  jsq "'" ++ js_repeat (js "a") (MAX_BUFFER_SIZE - 4) ++ jsq "'".

Definition uncut : list jsstring := [line (js "1") ++ line long_message].

Definition cut_after_line : list jsstring :=
  [line (js "1"); line long_message].

(** The three notices that the server sends for an error. *)
Definition generic_notices : list jsstring :=
  [js "Failed to process request"; js "Failed to parse CLI output";
   js "CLI process encountered an error"].

(** What each send site may give to [ws.send], as an object before
    [JSON.stringify]: an error path of the server one of the three notices,
    the callback of the decoder a decoded message that is neither a system
    message nor the value [null]. *)
Definition frame_allowed (f : Server.Frame) : Prop :=
  match f with
  | Server.ErrorNotice m => m ∈ generic_notices
  | Server.Forwarded v => is_system v = false /\ v <> JSON.JNull
  | _ => True
  end.

(** The decoder of a connection, if any, forwards to the socket. *)
Definition wired (c : Server.Connection) : Prop :=
  forall p, Server.streamParser c = Some p ->
            StreamParser.messageCallback p = Some Server.forward.

(** The socket that an event is about. *)
Definition socket_of (w : Server.World) (e : Server.Event) : nat :=
  match e with
  | Server.Connect _ => Server.next_ws w
  | Server.Message ws _ | Server.Close ws | Server.Stdout ws _
  | Server.Stderr ws _ | Server.ProcessClose ws _ => ws
  end.

(** A call on the session directory that stays where it may: the list of
    projects, or the sessions of the default directory or of a directory
    inside the base. *)
Definition directory_call_allowed (env : Server.Env) (d : Server.DirectoryCall)
  : Prop :=
  match d with
  | Server.ListProjects => True
  | Server.ListSessions dir =>
      dir = Server.PROJECT_DIR env
      \/ inside (path.join [Server.homedir env; Server.PROJECTS_BASE_DIR env]) dir
  end.

(** A call of [spawn] as the runner makes it: [claude], no shell, the fixed
    arguments, then at most [-r] and a token of the format. *)
Definition spawn_call_allowed (call : CLIRunner.SpawnCall) : Prop :=
  CLIRunner.command call = js "claude"
  /\ CLIRunner.shell call = false
  /\ (CLIRunner.args call = fixed_args
      \/ exists token, token_format token
                       /\ CLIRunner.args call = fixed_args ++ [js "-r"; token]).

(** A start request. *)
Definition is_start (e : Server.Event) : bool :=
  match e with
  | Server.Message _ (Some m) => Server.type_is m "start"
  | _ => false
  end.

(** The entries that [listSessions] reads: files whose name ends in
    [.jsonl]. *)
Definition is_session_file (entry : SessionManager.Dirent) : bool :=
  negb (SessionManager.isDirectory entry)
  && endsWith (SessionManager.name entry) (js ".jsonl").

(** A file system for the examples: a directory of projects, and a project
    with two sessions, a file that is no session, and a directory named
    like one. *)
Definition example_project_entries : list SessionManager.Dirent :=
  [{| SessionManager.name := js "zebra"; SessionManager.isDirectory := true |};
   {| SessionManager.name := js "file.txt";
      SessionManager.isDirectory := false |};
   {| SessionManager.name := js "alpha"; SessionManager.isDirectory := true |}].

Definition example_session_entries : list SessionManager.Dirent :=
  [{| SessionManager.name := js "old.jsonl";
      SessionManager.isDirectory := false |};
   {| SessionManager.name := js "notes.txt";
      SessionManager.isDirectory := false |};
   {| SessionManager.name := js "new.jsonl";
      SessionManager.isDirectory := false |};
   {| SessionManager.name := js "archive.jsonl";
      SessionManager.isDirectory := true |}].

Definition example_fs : SessionManager.FileSystem :=
  {| SessionManager.readdir := fun dir =>
       if str_eqb dir (js "/home/user/.claude/projects/default") then
         SessionManager.FsOk example_session_entries
       else if str_eqb dir (js "/home/user/.claude/projects") then
         SessionManager.FsOk example_project_entries
       else SessionManager.FsError (js "ENOENT") (js "no such file or directory");
     SessionManager.stat_mtimeMs := fun f =>
       if str_eqb f (js "/home/user/.claude/projects/default/old.jsonl")
       then Some 1000
       else if str_eqb f (js "/home/user/.claude/projects/default/new.jsonl")
       then Some 6000
       else None;
     SessionManager.readLines := fun f =>
       if str_eqb f (js "/home/user/.claude/projects/default/old.jsonl")
       then ([jsq "{'type':'system','subtype':'init'}";
              jsq "{'type':'user','message':{'content':'Old'}}"],
             SessionManager.Closed)
       else if str_eqb f (js "/home/user/.claude/projects/default/new.jsonl")
       then ([jsq "{'type':'user','message':{'content':'  New  '}}"],
             SessionManager.Closed)
       else ([], SessionManager.Failed) |}.

(** A file system of one file, with its lines and the end of its stream. *)
Definition single_file (lines : list jsstring) (e : SessionManager.StreamEnd)
  : SessionManager.FileSystem :=
  {| SessionManager.readdir := fun _ =>
       SessionManager.FsError (js "ENOTDIR") (js "not a directory");
     SessionManager.stat_mtimeMs := fun _ => Some 0;
     SessionManager.readLines := fun _ => (lines, e) |}.

(** 150 system lines, then some more lines. *)
Definition long_session (tail : list jsstring) : list jsstring :=
  repeat (jsq "{'type':'system','data':'line'}") 150 ++ tail.

(** The process of a runner with one more call of [kill]. *)
Definition killed_once {C} (p : CLIRunner.ChildProcess C)
  : CLIRunner.ChildProcess C :=
  {| CLIRunner.stdin := CLIRunner.stdin p;
     CLIRunner.stdout_data := CLIRunner.stdout_data p;
     CLIRunner.stderr_data := CLIRunner.stderr_data p;
     CLIRunner.close := CLIRunner.close p;
     CLIRunner.kill := S (CLIRunner.kill p) |}.

(** The runner that a start request leaves in the connection. *)
Definition fresh_runner (sessionId : option jsstring)
  : CLIRunner.t Server.Callback :=
  {| CLIRunner.sessionId := sessionId;
     CLIRunner.process :=
       Some {| CLIRunner.stdin := [];
               CLIRunner.stdout_data := [Server.OnOutput];
               CLIRunner.stderr_data := [Server.OnError];
               CLIRunner.close := [Server.OnExit];
               CLIRunner.kill := 0 |};
     CLIRunner.outputCallback := Some Server.OnOutput;
     CLIRunner.errorCallback := Some Server.OnError;
     CLIRunner.exitCallback := Some Server.OnExit |}.

(** A connection after a start request without token. *)
Definition started_connection : Server.Connection :=
  {| Server.cliRunner := Some (fresh_runner None);
     Server.streamParser :=
       Some (StreamParser.onMessage StreamParser.new Server.forward);
     Server.sent := [Server.Started None] |}.

(** More control messages of the protocol. *)
Definition stop_message : Server.ControlMessage :=
  {| Server.type := Some (js "stop"); Server.sessionId := None;
     Server.text := None; Server.projectName := None |}.

Definition list_default_sessions : Server.ControlMessage :=
  {| Server.type := Some (js "list-sessions"); Server.sessionId := None;
     Server.text := None; Server.projectName := None |}.

Definition list_projects_message : Server.ControlMessage :=
  {| Server.type := Some (js "list-projects"); Server.sessionId := None;
     Server.text := None; Server.projectName := None |}.

(* ===================================================================== *)
(** * Strings: lines *)
(* ===================================================================== *)

Lemma split_not_nil sep s : split sep s <> [].
Proof.
  destruct s as [|c s]; simpl; [discriminate|].
  destruct (N.eqb c sep); [discriminate|].
  destruct (split sep s); discriminate.
Qed.

Lemma split_lines_pending s : split LF s = complete_lines s ++ [pending s].
Proof.
  unfold complete_lines, pending.
  destruct (split LF s) as [|l ls] eqn:E using rev_ind.
  - by apply split_not_nil in E.
  - rewrite removelast_last, last_snoc. reflexivity.
Qed.

(** Splitting a concatenation: the lines of the first part stay, and its
    pending text is the head of what the second part is split from. *)
Lemma split_app x y :
  split LF (x ++ y) = complete_lines x ++ split LF (pending x ++ y).
Proof.
  induction x as [|c x IH]; [reflexivity|].
  unfold complete_lines, pending in *. simpl.
  destruct (N.eqb c LF) eqn:Ec; rewrite IH;
    (destruct (split LF x) as [|l ls] eqn:E; [by apply split_not_nil in E|]).
  - reflexivity.
  - destruct ls as [|l' ls']; [|reflexivity].
    simpl. rewrite Ec. reflexivity.
Qed.

Lemma complete_lines_app x y :
  complete_lines (x ++ y) = complete_lines x ++ complete_lines (pending x ++ y).
Proof.
  unfold complete_lines at 1. rewrite split_app.
  rewrite removelast_app by apply split_not_nil. reflexivity.
Qed.

Lemma pending_app x y : pending (x ++ y) = pending (pending x ++ y).
Proof.
  unfold pending at 1. rewrite split_app, last_app.
  unfold pending at 2.
  destruct (last (split LF (pending x ++ y))) eqn:E; [reflexivity|].
  apply last_None in E. by apply split_not_nil in E.
Qed.

(** No piece of a split holds the separator. *)
Lemma split_no_sep sep s l : l ∈ split sep s -> sep ∉ l.
Proof.
  revert l. induction s as [|c s IH]; simpl; intros l Hl.
  - apply list_elem_of_singleton in Hl. subst. apply not_elem_of_nil.
  - destruct (N.eqb_spec c sep) as [->|Hne].
    + apply elem_of_cons in Hl as [->|Hl]; [apply not_elem_of_nil|auto].
    + destruct (split sep s) as [|l0 ls] eqn:E; [by apply split_not_nil in E|].
      apply elem_of_cons in Hl as [->|Hl].
      * intros [->|Hin]%elem_of_cons; [done|].
        apply (IH l0); [left|done].
      * apply IH. by right.
Qed.

Lemma pending_no_LF s : LF ∉ pending s.
Proof.
  apply (split_no_sep LF s). rewrite split_lines_pending.
  apply elem_of_app. right. left.
Qed.

(** A text without delimiter is all pending. *)
Lemma split_no_LF s : LF ∉ s -> split LF s = [s].
Proof.
  induction s as [|c s IH]; [reflexivity|]. intros Hc. simpl.
  destruct (N.eqb_spec c LF) as [->|Hne].
  - exfalso. apply Hc. left.
  - rewrite IH; [reflexivity|]. intros Hin. apply Hc. by right.
Qed.

Lemma pending_no_LF_id s : LF ∉ s -> pending s = s.
Proof. intros H. unfold pending. by rewrite split_no_LF. Qed.

Lemma complete_lines_no_LF s : LF ∉ s -> complete_lines s = [].
Proof. intros H. unfold complete_lines. by rewrite split_no_LF. Qed.

(** The stream is its lines, each with its delimiter, then the pending
    text. *)
Lemma stream_lines_pending s :
  s = concat (map (fun l => l ++ [LF]) (complete_lines s)) ++ pending s.
Proof.
  induction s as [|c s IH]; [reflexivity|].
  unfold complete_lines, pending in *. simpl.
  destruct (N.eqb_spec c LF) as [->|Hne];
    (destruct (split LF s) as [|l ls] eqn:E; [by apply split_not_nil in E|]).
  - simpl. f_equal. exact IH.
  - destruct ls as [|l' ls']; simpl in *.
    + f_equal. exact IH.
    + f_equal. rewrite IH at 1. rewrite <- app_assoc. reflexivity.
Qed.

(* ===================================================================== *)
(** * The decoder *)
(* ===================================================================== *)

Section Decoder.

Context {W : Type}.
Implicit Types (p : StreamParser.t W) (w : W).

Lemma process_line_callback p q line w :
  StreamParser.messageCallback p = StreamParser.messageCallback q ->
  StreamParser.process_line p line w = StreamParser.process_line q line w.
Proof.
  intros E. unfold StreamParser.process_line, StreamParser.processMessage.
  rewrite E. reflexivity.
Qed.

Lemma process_lines_callback p q lines w :
  StreamParser.messageCallback p = StreamParser.messageCallback q ->
  process_lines p lines w = process_lines q lines w.
Proof.
  intros E. revert w. unfold process_lines.
  induction lines as [|l ls IH]; intros w; simpl; [reflexivity|].
  rewrite (process_line_callback p q l w E). apply IH.
Qed.

Lemma process_lines_app p l1 l2 w :
  process_lines p (l1 ++ l2) w = process_lines p l2 (process_lines p l1 w).
Proof. apply fold_left_app. Qed.

(** [message.type === 'system'] agrees with [is_system] wherever reading
    [type] does not throw. *)
Lemma get_type_system v ty :
  JSON.get v (js "type") = Normal ty ->
  JSON.is_string ty (js "system") = is_system v.
Proof.
  destruct v; simpl; intros E; inversion E; subst; reflexivity.
Qed.

(** One line with a callback registered: the callback receives the
    messages of the line. *)
Lemma process_line_deliver p callback line w :
  StreamParser.messageCallback p = Some callback ->
  StreamParser.process_line p line w = deliver callback (line_messages line) w.
Proof.
  intros E. unfold StreamParser.process_line, line_messages.
  destruct (js_length (trim line) =? 0); [reflexivity|].
  destruct (JSON.parse line) as [v|e]; [|reflexivity].
  unfold StreamParser.processMessage. rewrite E.
  destruct v; simpl; try reflexivity.
  destruct (JSON.is_string _ _); reflexivity.
Qed.

(** One line without a callback: nothing happens. *)
Lemma process_line_no_callback p line w :
  StreamParser.messageCallback p = None ->
  StreamParser.process_line p line w = w.
Proof.
  intros E. unfold StreamParser.process_line.
  destruct (js_length (trim line) =? 0); [reflexivity|].
  destruct (JSON.parse line) as [v|e]; [|reflexivity].
  unfold StreamParser.processMessage. rewrite E.
  destruct (JSON.get v (js "type")); [|reflexivity].
  destruct (JSON.is_string _ _); reflexivity.
Qed.

Lemma process_lines_deliver p callback lines w :
  StreamParser.messageCallback p = Some callback ->
  process_lines p lines w = deliver callback (flat_map line_messages lines) w.
Proof.
  intros E. revert w. unfold process_lines.
  induction lines as [|l ls IH]; intros w; simpl; [reflexivity|].
  unfold deliver. rewrite fold_left_app. fold (deliver callback).
  rewrite (process_line_deliver p callback l w E). apply IH.
Qed.

(** [parse] below the ceiling. *)
Lemma parse_normal p chunk w :
  js_length (StreamParser.buffer p ++ chunk) <= MAX_BUFFER_SIZE ->
  StreamParser.parse p chunk w =
    ({| StreamParser.buffer := pending (StreamParser.buffer p ++ chunk);
        StreamParser.messageCallback := StreamParser.messageCallback p |},
     process_lines p (complete_lines (StreamParser.buffer p ++ chunk)) w,
     Normal tt).
Proof.
  intros H. unfold StreamParser.parse.
  destruct (Z.gtb_spec (js_length (StreamParser.buffer p ++ chunk))
              MAX_BUFFER_SIZE) as [Hgt|_]; [lia|].
  unfold StreamParser.pop. fold (complete_lines (StreamParser.buffer p ++ chunk)).
  fold (pending (StreamParser.buffer p ++ chunk)).
  reflexivity.
Qed.

(** [parse] above the ceiling: the chunk stays appended, no line is
    looked at. *)
Lemma parse_overflow p chunk w :
  MAX_BUFFER_SIZE < js_length (StreamParser.buffer p ++ chunk) ->
  StreamParser.parse p chunk w =
    ({| StreamParser.buffer := StreamParser.buffer p ++ chunk;
        StreamParser.messageCallback := StreamParser.messageCallback p |},
     w, Throw (Error (js "Buffer size exceeded maximum limit"))).
Proof.
  intros H. unfold StreamParser.parse.
  destruct (Z.gtb_spec (js_length (StreamParser.buffer p ++ chunk))
              MAX_BUFFER_SIZE) as [_|Hle]; [reflexivity|lia].
Qed.

(** How a call of [parse] ends is decided by the size check alone. *)
Lemma parse_result p chunk w :
  snd (StreamParser.parse p chunk w) = Normal tt
  <-> js_length (StreamParser.buffer p ++ chunk) <= MAX_BUFFER_SIZE.
Proof.
  destruct (Z.le_gt_cases (js_length (StreamParser.buffer p ++ chunk))
              MAX_BUFFER_SIZE) as [H|H].
  - rewrite parse_normal by exact H. simpl. tauto.
  - rewrite parse_overflow by lia. simpl. split; [discriminate|lia].
Qed.

Lemma js_length_app a b : js_length (a ++ b) = js_length a + js_length b.
Proof. unfold js_length. rewrite length_app. lia. Qed.

Lemma js_length_nonneg a : 0 <= js_length a.
Proof. unfold js_length. lia. Qed.

(** Once over the ceiling, always over it: every later call throws, keeps
    the world, and grows the buffer. *)
Lemma feed_overflowed chunks : forall p w,
  MAX_BUFFER_SIZE < js_length (StreamParser.buffer p) ->
  feed p chunks w =
    ({| StreamParser.buffer := StreamParser.buffer p ++ concat chunks;
        StreamParser.messageCallback := StreamParser.messageCallback p |},
     w,
     map (fun _ => Throw (Error (js "Buffer size exceeded maximum limit")))
       chunks).
Proof.
  induction chunks as [|c cs IH]; intros p w H; simpl.
  - rewrite app_nil_r. destruct p; reflexivity.
  - rewrite parse_overflow
      by (rewrite js_length_app; pose proof (js_length_nonneg c); lia).
    rewrite IH
      by (simpl; rewrite js_length_app; pose proof (js_length_nonneg c); lia).
    simpl. rewrite <- app_assoc. reflexivity.
Qed.

(** Feeding without a fault: the decoder has looked at every complete line
    of what it was given, and holds the rest. *)
Lemma feed_normal chunks : forall p w,
  LF ∉ StreamParser.buffer p ->
  forallb is_normal (snd (feed p chunks w)) = true ->
  feed p chunks w =
    ({| StreamParser.buffer := pending (StreamParser.buffer p ++ concat chunks);
        StreamParser.messageCallback := StreamParser.messageCallback p |},
     process_lines p (complete_lines (StreamParser.buffer p ++ concat chunks)) w,
     map (fun _ => Normal tt) chunks).
Proof.
  induction chunks as [|c cs IH]; intros p w Hb H.
  - simpl. rewrite app_nil_r, pending_no_LF_id, complete_lines_no_LF by done.
    destruct p; reflexivity.
  - simpl in *.
    destruct (Z.le_gt_cases (js_length (StreamParser.buffer p ++ c))
                MAX_BUFFER_SIZE) as [Hle|Hgt].
    + rewrite parse_normal in * by exact Hle.
      set (p1 := {| StreamParser.buffer := pending (StreamParser.buffer p ++ c);
                    StreamParser.messageCallback := StreamParser.messageCallback p |}) in *.
      set (w1 := process_lines p (complete_lines (StreamParser.buffer p ++ c)) w) in *.
      specialize (IH p1 w1 (pending_no_LF _)).
      destruct (feed p1 cs w1) as [[p2 w2] rs].
      simpl in H. specialize (IH H). inversion IH; subst p2 w2 rs.
      simpl. rewrite <- pending_app, app_assoc.
      f_equal. f_equal.
      rewrite (complete_lines_app (StreamParser.buffer p ++ c)), process_lines_app.
      apply process_lines_callback. reflexivity.
    + rewrite parse_overflow in H by lia.
      destruct (feed _ cs w) as [[p2 w2] rs]. simpl in H. discriminate.
Qed.

(** A call that returns normally was preceded by normal returns only. *)
Lemma feed_then_normal chunks : forall p w,
  js_length (StreamParser.buffer (fst (fst (feed p chunks w)))) <= MAX_BUFFER_SIZE ->
  forallb is_normal (snd (feed p chunks w)) = true.
Proof.
  induction chunks as [|c cs IH]; intros p w H; [reflexivity|].
  simpl in *.
  destruct (Z.le_gt_cases (js_length (StreamParser.buffer p ++ c))
              MAX_BUFFER_SIZE) as [Hle|Hgt].
  - rewrite parse_normal in * by exact Hle.
    match goal with |- context [feed ?q cs ?v] =>
      specialize (IH q v); destruct (feed q cs v) as [[p2 w2] rs] end.
    simpl in *. auto.
  - rewrite parse_overflow in H by lia. exfalso.
    rewrite feed_overflowed in H by (simpl; lia).
    simpl in H. rewrite js_length_app in H.
    pose proof (js_length_nonneg (concat cs)). lia.
Qed.

Lemma feed_app a : forall b p w,
  feed p (a ++ b) w =
    let '(p1, w1, r1) := feed p a w in
    let '(p2, w2, r2) := feed p1 b w1 in
    (p2, w2, r1 ++ r2).
Proof.
  induction a as [|c a IH]; intros b p w; simpl.
  - destruct (feed p b w) as [[p2 w2] r2]. reflexivity.
  - destruct (StreamParser.parse p c w) as [[p1 w1] r].
    rewrite IH. destruct (feed p1 a w1) as [[p2 w2] r1].
    destruct (feed p2 b w2) as [[p3 w3] r2]. reflexivity.
Qed.

(** The state of a decoder that started empty, after a call that returned
    normally. *)
Lemma feed_last_normal p0 chunks chunk w0 p w rs p' w' :
  StreamParser.buffer p0 = [] ->
  feed p0 chunks w0 = (p, w, rs) ->
  StreamParser.parse p chunk w = (p', w', Normal tt) ->
  StreamParser.buffer p' = pending (concat (chunks ++ [chunk]))
  /\ w' = process_lines p0 (complete_lines (concat (chunks ++ [chunk]))) w0.
Proof.
  intros Hb Hfeed Hparse.
  assert (Hle : js_length (StreamParser.buffer p ++ chunk) <= MAX_BUFFER_SIZE).
  { apply (proj1 (parse_result p chunk w)). rewrite Hparse. reflexivity. }
  assert (Hall : forallb is_normal (snd (feed p0 chunks w0)) = true).
  { apply feed_then_normal. rewrite Hfeed. simpl.
    rewrite js_length_app in Hle. pose proof (js_length_nonneg chunk). lia. }
  rewrite feed_normal in Hfeed by (rewrite ?Hb; auto using not_elem_of_nil).
  rewrite Hb in Hfeed. simpl in Hfeed. inversion Hfeed; subst p w rs.
  rewrite parse_normal in Hparse by exact Hle. simpl in Hparse.
  inversion Hparse; subst p' w'.
  rewrite concat_app. simpl. rewrite app_nil_r.
  rewrite <- pending_app. split; [reflexivity|].
  rewrite (complete_lines_app (concat chunks)), process_lines_app.
  apply process_lines_callback. reflexivity.
Qed.

End Decoder.

Lemma deliver_record msgs : forall calls,
  deliver record msgs calls = calls ++ msgs.
Proof.
  induction msgs as [|m ms IH]; intros calls.
  - by rewrite app_nil_r.
  - change (deliver record (m :: ms) calls)
      with (deliver record ms (record m calls)).
    rewrite IH. unfold record. rewrite <- app_assoc. reflexivity.
Qed.

(** What [dispatched] is when no call throws: the messages of the complete
    lines of the stream, in order. *)
Lemma dispatched_no_fault chunks :
  no_fault chunks = true ->
  dispatched chunks = flat_map line_messages (complete_lines (concat chunks)).
Proof.
  unfold no_fault, dispatched. intros H.
  rewrite feed_normal by (auto using not_elem_of_nil). simpl.
  rewrite (process_lines_deliver _ record) by reflexivity.
  apply deliver_record.
Qed.

(** A stream within the ceiling is decoded without a fault, however it is
    cut. *)
Lemma no_fault_within_ceiling chunks :
  js_length (concat chunks) <= MAX_BUFFER_SIZE -> no_fault chunks = true.
Proof.
  unfold no_fault. intros H.
  assert (G : forall (p : StreamParser.t (list JSON.value)) w,
             LF ∉ StreamParser.buffer p ->
             js_length (StreamParser.buffer p ++ concat chunks) <= MAX_BUFFER_SIZE ->
             forallb is_normal (snd (feed p chunks w)) = true).
  { clear H. induction chunks as [|c cs IH]; intros p w Hb H; [reflexivity|].
    simpl in *. rewrite app_assoc in H.
    assert (Hle : js_length (StreamParser.buffer p ++ c) <= MAX_BUFFER_SIZE).
    { rewrite js_length_app in H. pose proof (js_length_nonneg (concat cs)). lia. }
    rewrite parse_normal by exact Hle.
    match goal with |- context [feed ?q cs ?v] =>
      specialize (IH q v (pending_no_LF _));
      destruct (feed q cs v) as [[p2 w2] rs] eqn:E end.
    simpl in *. apply IH.
    pose proof (stream_lines_pending (StreamParser.buffer p ++ c)) as Hs.
    apply (f_equal js_length) in Hs. rewrite js_length_app in Hs.
    pose proof (js_length_nonneg
      (concat (map (fun l => l ++ [LF]) (complete_lines (StreamParser.buffer p ++ c))))).
    rewrite !js_length_app in *. lia. }
  apply G; [apply not_elem_of_nil|exact H].
Qed.

(* ===================================================================== *)
(** * The decoder: properties of the specification *)
(* ===================================================================== *)

(** The tests of tests/stream-parser.test.js, on the recording callback. *)
Example test_filters_system_messages :
  dispatched [line (jsq "{'type':'system','subtype':'hook_started'}")] = [].
Proof. vm_compute. reflexivity. Qed.

Example test_passes_result_messages :
  dispatched [line (jsq "{'type':'result','subtype':'success','result':'Complete'}")]
  = [JSON.JObject [(js "type", JSON.JString (js "result"));
                   (js "subtype", JSON.JString (js "success"));
                   (js "result", JSON.JString (js "Complete"))]].
Proof. vm_compute. reflexivity. Qed.

Example test_handles_partial_lines :
  dispatched [jsq "{'type':'assistant','mess"] = []
  /\ dispatched [jsq "{'type':'assistant','mess"; line (jsq "age':{'content':[]}}")]
     = [JSON.JObject [(js "type", JSON.JString (js "assistant"));
                      (js "message", JSON.JObject [(js "content", JSON.JArray [])])]].
Proof. split; vm_compute; reflexivity. Qed.

Example test_skips_invalid_json :
  dispatched [line (js "invalid json"); line (jsq "{'type':'assistant'}")]
  = [JSON.JObject [(js "type", JSON.JString (js "assistant"))]].
Proof. vm_compute. reflexivity. Qed.

Example test_throws_over_maximum_size :
  snd (StreamParser.parse recorder oversized_chunk [])
  = Throw (Error (js "Buffer size exceeded maximum limit")).
Proof. vm_compute. reflexivity. Qed.

Example test_no_throw_at_boundary :
  snd (StreamParser.parse recorder (js_repeat (js "a") MAX_BUFFER_SIZE) [])
  = Normal tt.
Proof. vm_compute. reflexivity. Qed.

(** C10.  When a call of [parse] on a decoder that started empty returns
    normally, the buffer holds no delimiter and is what follows the last
    delimiter of everything fed so far: the input is a sequence of
    delimiter-terminated lines followed by the buffer, and the loop of
    [parse] has run over each of these lines, in order. *)
Theorem C10_buffer_is_rest_after_last_delimiter
  {W} (p0 : StreamParser.t W) chunks chunk w0 p w rs p' w' :
  StreamParser.buffer p0 = [] ->
  feed p0 chunks w0 = (p, w, rs) ->
  StreamParser.parse p chunk w = (p', w', Normal tt) ->
  (LF ∉ StreamParser.buffer p')
  /\ exists lines,
       concat (chunks ++ [chunk])
       = concat (map line lines) ++ StreamParser.buffer p'
       /\ Forall (fun l => LF ∉ l) lines
       /\ w' = process_lines p0 lines w0.
Proof.
  intros Hb Hfeed Hparse.
  destruct (feed_last_normal p0 chunks chunk w0 p w rs p' w' Hb Hfeed Hparse)
    as [Hbuf Hw].
  rewrite Hbuf. split; [apply pending_no_LF|].
  exists (complete_lines (concat (chunks ++ [chunk]))).
  split; [apply stream_lines_pending|]. split; [|exact Hw].
  apply Forall_forall. intros l Hl.
  apply (split_no_sep LF (concat (chunks ++ [chunk]))).
  rewrite split_lines_pending. apply elem_of_app. by left.
Qed.

(** C10 on a message cut inside a key, followed by the start of a line. *)
Lemma C10_witness :
  (LF ∉ js "tail")
  /\ exists lines,
       concat ([jsq "{'type':'assistant','mess"]
               ++ [line (jsq "age':1}") ++ js "tail"])
       = concat (map line lines) ++ js "tail"
       /\ Forall (fun l => LF ∉ l) lines
       /\ [JSON.JObject [(js "type", JSON.JString (js "assistant"));
                         (js "message", JSON.JNumber (js "1"))]]
          = process_lines recorder lines [].
Proof.
  apply (C10_buffer_is_rest_after_last_delimiter recorder
           [jsq "{'type':'assistant','mess"]
           (line (jsq "age':1}") ++ js "tail") []
           {| StreamParser.buffer := jsq "{'type':'assistant','mess";
              StreamParser.messageCallback := Some record |}
           [] [Normal tt]
           {| StreamParser.buffer := js "tail";
              StreamParser.messageCallback := Some record |});
    vm_compute; reflexivity.
Defined.

(** C3, amended.  Two ways of cutting one stream into chunks, neither of
    which makes a call of [parse] throw, dispatch the same messages in the
    same order. *)
Theorem C3_chunking_invariance_without_fault cs1 cs2 :
  concat cs1 = concat cs2 ->
  no_fault cs1 = true ->
  no_fault cs2 = true ->
  dispatched cs1 = dispatched cs2.
Proof.
  intros E H1 H2. rewrite !dispatched_no_fault by assumption.
  rewrite E. reflexivity.
Qed.

(** C3 on two lines, whole and cut inside a word and around each
    delimiter. *)
Lemma C3_witness :
  dispatched [line (jsq "{'type':'assistant'}") ++ line (js "2")]
  = dispatched [jsq "{'type':'assis"; jsq "tant'}"; [LF]; js "2"; [LF]].
Proof.
  apply C3_chunking_invariance_without_fault; vm_compute; reflexivity.
Defined.

(** C3 as stated fails: a stream of two messages, one unit longer than the
    ceiling, fed whole makes [parse] throw and dispatches nothing; cut
    between its two lines it dispatches both. *)
Lemma C3_counterexample :
  concat uncut = concat cut_after_line
  /\ js_length (concat uncut) = MAX_BUFFER_SIZE + 1
  /\ dispatched uncut = []
  /\ no_fault cut_after_line = true
  /\ length (dispatched cut_after_line) = 2%nat
  /\ head (dispatched cut_after_line) = Some (JSON.JNumber (js "1")).
Proof.
  split; [|split; [|split; [|split; [|split]]]; vm_compute; reflexivity].
  unfold uncut, cut_after_line. cbn [concat]. rewrite !app_nil_r. reflexivity.
Qed.




(** Overflow before a delimiter: a stream without delimiter and longer
    than the ceiling makes a call of [parse] throw, whatever its cutting,
    and nothing is dispatched. *)
Lemma overflow_before_delimiter chunks :
  LF ∉ concat chunks ->
  MAX_BUFFER_SIZE < js_length (concat chunks) ->
  no_fault chunks = false /\ dispatched chunks = [].
Proof.
  unfold no_fault, dispatched.
  assert (G : forall (p : StreamParser.t (list JSON.value)) w,
    LF ∉ StreamParser.buffer p ++ concat chunks ->
    snd (fst (feed p chunks w)) = w
    /\ (MAX_BUFFER_SIZE < js_length (StreamParser.buffer p ++ concat chunks) ->
        js_length (StreamParser.buffer p) <= MAX_BUFFER_SIZE ->
        forallb is_normal (snd (feed p chunks w)) = false)).
  { induction chunks as [|c cs IH]; intros p w Hno.
    - simpl. rewrite app_nil_r. split; [reflexivity|lia].
    - simpl in Hno |- *. rewrite app_assoc in Hno.
      destruct (Z.le_gt_cases (js_length (StreamParser.buffer p ++ c))
                  MAX_BUFFER_SIZE) as [Hle|Hgt].
      + rewrite parse_normal by exact Hle.
        assert (Hc : LF ∉ StreamParser.buffer p ++ c).
        { intros Hin. apply Hno, elem_of_app. by left. }
        rewrite pending_no_LF_id, complete_lines_no_LF by exact Hc.
        match goal with |- context [feed ?q cs ?v] =>
          destruct (IH q v Hno) as [Hw Hf];
          destruct (feed q cs v) as [[p2 w2] rs] end.
        simpl in *. split; [exact Hw|]. intros Hbig _.
        rewrite app_assoc in Hbig. auto.
      + rewrite parse_overflow by lia.
        rewrite feed_overflowed by (simpl; lia). simpl. auto. }
  intros Hno Hbig. destruct (G recorder [] Hno) as [Hw Hf].
  split; [apply Hf; [exact Hbig|vm_compute; discriminate]|exact Hw].
Qed.

(** The output callback of the server on overflow: the fault is caught,
    the one frame sent is the fixed notice, runner and decoder stay in
    place. *)
Lemma on_output_overflow c parser chunk :
  Server.streamParser c = Some parser ->
  MAX_BUFFER_SIZE < js_length (StreamParser.buffer parser ++ chunk) ->
  Server.on_output chunk c =
    {| Server.cliRunner := Server.cliRunner c;
       Server.streamParser :=
         Some {| StreamParser.buffer := StreamParser.buffer parser ++ chunk;
                 StreamParser.messageCallback :=
                   StreamParser.messageCallback parser |};
       Server.sent :=
         Server.sent c ++ [Server.ErrorNotice (js "Failed to parse CLI output")] |}.
Proof.
  intros Hp Hgt. unfold Server.on_output. rewrite Hp.
  rewrite parse_overflow by exact Hgt. reflexivity.
Qed.

(** Process output never opens, closes or counts a connection. *)
Lemma stdout_keeps_connections env w ws chunk :
  Server.activeConnections (Server.step env w (Server.Stdout ws chunk))
  = Server.activeConnections w
  /\ dom (Server.connections (Server.step env w (Server.Stdout ws chunk)))
     = dom (Server.connections w).
Proof.
  simpl. destruct (Server.connections w !! ws) as [c|] eqn:E; [|done].
  simpl. split; [reflexivity|].
  rewrite dom_insert_L. apply elem_of_dom_2 in E.
  apply subseteq_union_1_L. by apply singleton_subseteq_l.
Qed.

(** C2, at a chunk one unit over the ceiling given to a new decoder: the
    call throws and the callback is not called, but the decoder keeps the
    oversized text as its buffer; a complete line that arrives next is
    appended to it, the call throws again, and the line is not
    dispatched. *)
Theorem C2_overflow_keeps_oversized_buffer :
  let p1 := {| StreamParser.buffer := oversized_chunk;
               StreamParser.messageCallback := Some record |} in
  let next := line (jsq "{'type':'assistant'}") in
  let p2 := {| StreamParser.buffer := oversized_chunk ++ next;
               StreamParser.messageCallback := Some record |} in
  StreamParser.parse recorder oversized_chunk []
  = (p1, [], Throw (Error (js "Buffer size exceeded maximum limit")))
  /\ js_length (StreamParser.buffer p1) = MAX_BUFFER_SIZE + 1
  /\ StreamParser.parse p1 next []
     = (p2, [], Throw (Error (js "Buffer size exceeded maximum limit")))
  /\ js_length (StreamParser.buffer p2) = MAX_BUFFER_SIZE + 22.
Proof.
  cbv zeta. split; [|split; [|split]].
  - rewrite parse_overflow by (vm_compute; reflexivity). reflexivity.
  - vm_compute. reflexivity.
  - rewrite parse_overflow by (vm_compute; reflexivity). reflexivity.
  - vm_compute. reflexivity.
Qed.

(** The same chunk arriving on a connection in a turn: one fixed notice is
    sent, the runner stays, and the decoder of the connection now holds the
    oversized text. *)
Example overflow_in_a_turn :
  Server.on_output oversized_chunk connection_in_turn
  = {| Server.cliRunner := Some running;
       Server.streamParser :=
         Some {| StreamParser.buffer := oversized_chunk;
                 StreamParser.messageCallback := Some Server.forward |};
       Server.sent := [Server.ErrorNotice (js "Failed to parse CLI output")] |}.
Proof.
  rewrite (on_output_overflow connection_in_turn
             (StreamParser.onMessage StreamParser.new Server.forward))
    by (try reflexivity; vm_compute; reflexivity).
  reflexivity.
Qed.

(* ===================================================================== *)
(** * Input validation *)
(* ===================================================================== *)

Lemma validateInput_spec input :
  validateInput input = Normal tt <-> acceptable input.
Proof.
  unfold validateInput, acceptable.
  pose proof (js_length_nonneg (trim input)).
  destruct (Z.eqb_spec (js_length (trim input)) 0) as [E|E].
  - split; [discriminate|lia].
  - destruct (Z.gtb_spec (js_length input) MAX_INPUT_LENGTH).
    + split; [discriminate|lia].
    + split; [lia|reflexivity].
Qed.

Lemma validateInput_rejects input :
  ~ acceptable input ->
  exists e, validateInput input = Throw e /\ is_validation_error e.
Proof.
  intros Hn. unfold validateInput, is_validation_error.
  destruct (js_length (trim input) =? 0) eqn:E1; [eauto|].
  destruct (js_length input >? MAX_INPUT_LENGTH) eqn:E2; [eauto|].
  exfalso. apply Hn, validateInput_spec. unfold validateInput.
  rewrite E1, E2. reflexivity.
Qed.

(** On a runner with a process, [sendInput] validates as [validateInput]
    does, and then writes and closes. *)
Lemma sendInput_started {C} (r : CLIRunner.t C) p input :
  CLIRunner.process r = Some p ->
  CLIRunner.sendInput r input =
    match validateInput input with
    | Throw e => Throw e
    | Normal _ =>
        Normal
          {| CLIRunner.sessionId := CLIRunner.sessionId r;
             CLIRunner.process :=
               Some {| CLIRunner.stdin :=
                         CLIRunner.stdin p
                         ++ [CLIRunner.Write (line input); CLIRunner.End];
                       CLIRunner.stdout_data := CLIRunner.stdout_data p;
                       CLIRunner.stderr_data := CLIRunner.stderr_data p;
                       CLIRunner.close := CLIRunner.close p;
                       CLIRunner.kill := CLIRunner.kill p |};
             CLIRunner.outputCallback := CLIRunner.outputCallback r;
             CLIRunner.errorCallback := CLIRunner.errorCallback r;
             CLIRunner.exitCallback := CLIRunner.exitCallback r |}
    end.
Proof.
  intros Hp. unfold CLIRunner.sendInput, validateInput. rewrite Hp.
  destruct (js_length (trim input) =? 0); [reflexivity|].
  destruct (js_length input >? MAX_INPUT_LENGTH); reflexivity.
Qed.

(** The state error of [sendInput] is raised exactly when the runner has no
    process. *)
Lemma sendInput_not_started {C} (r : CLIRunner.t C) input :
  CLIRunner.sendInput r input = Throw (Error (js "CLI process not started"))
  <-> CLIRunner.process r = None.
Proof.
  unfold CLIRunner.sendInput. destruct (CLIRunner.process r) as [p|].
  - split; [|discriminate].
    destruct (js_length (trim input) =? 0); [intros H; vm_compute in H; discriminate|].
    destruct (js_length input >? MAX_INPUT_LENGTH); [|discriminate].
    intros H; vm_compute in H; discriminate.
  - tauto.
Qed.

(* ===================================================================== *)
(** * The resumption token *)
(* ===================================================================== *)

Lemma match_hex_Some n : forall s r,
  match_hex n s = Some r
  <-> exists g, s = g ++ r /\ length g = n
                /\ Forall (fun c => is_hex_digit c = true) g.
Proof.
  induction n as [|n IH]; intros s r; simpl.
  - split.
    + intros [= ->]. exists []. auto.
    + intros (g & -> & Hl & _). destruct g; [reflexivity|discriminate].
  - destruct s as [|c s].
    + split; [discriminate|]. intros (g & Hs & Hl & _).
      destruct g; discriminate.
    + destruct (is_hex_digit c) eqn:Hc.
      * rewrite IH. split.
        -- intros (g & -> & Hl & Hg). exists (c :: g). simpl. auto.
        -- intros (g & Hs & Hl & Hg). destruct g as [|c' g]; [discriminate|].
           simpl in *. inversion Hs; subst. inversion Hg; subst.
           exists g. auto.
      * split; [discriminate|]. intros (g & Hs & Hl & Hg).
        destruct g as [|c' g]; [discriminate|].
        simpl in Hs. inversion Hs; subst. inversion Hg; subst. congruence.
Qed.

Lemma match_dash_Some s r : match_dash s = Some r <-> s = js "-" ++ r.
Proof.
  unfold match_dash. change (js "-" ++ r) with (45%N :: r).
  destruct s as [|c s]; [split; discriminate|].
  destruct (N.eqb_spec c 45) as [->|Hne].
  - split; intros H; inversion H; reflexivity.
  - split; [discriminate|]. intros H. inversion H. done.
Qed.

(** The pattern is the format of the specification. *)
Lemma SESSION_ID_PATTERN_format s :
  SESSION_ID_PATTERN_test s = true <-> token_format s.
Proof.
  unfold SESSION_ID_PATTERN_test, token_format. split.
  - destruct (match_hex 8 s) as [s1|] eqn:E1; [|discriminate]. cbn [and_then].
    destruct (match_dash s1) as [s2|] eqn:E2; [|discriminate]. cbn [and_then].
    destruct (match_hex 4 s2) as [s3|] eqn:E3; [|discriminate]. cbn [and_then].
    destruct (match_dash s3) as [s4|] eqn:E4; [|discriminate]. cbn [and_then].
    destruct (match_hex 4 s4) as [s5|] eqn:E5; [|discriminate]. cbn [and_then].
    destruct (match_dash s5) as [s6|] eqn:E6; [|discriminate]. cbn [and_then].
    destruct (match_hex 4 s6) as [s7|] eqn:E7; [|discriminate]. cbn [and_then].
    destruct (match_dash s7) as [s8|] eqn:E8; [|discriminate]. cbn [and_then].
    destruct (match_hex 12 s8) as [s9|] eqn:E9; [|discriminate].
    destruct s9; [|discriminate]. intros _.
    apply match_hex_Some in E1 as (g1 & -> & L1 & H1).
    apply match_dash_Some in E2 as ->.
    apply match_hex_Some in E3 as (g2 & -> & L2 & H2).
    apply match_dash_Some in E4 as ->.
    apply match_hex_Some in E5 as (g3 & -> & L3 & H3).
    apply match_dash_Some in E6 as ->.
    apply match_hex_Some in E7 as (g4 & -> & L4 & H4).
    apply match_dash_Some in E8 as ->.
    apply match_hex_Some in E9 as (g5 & -> & L5 & H5).
    exists g1, g2, g3, g4, g5. rewrite app_nil_r.
    repeat (split; [done|]). rewrite !Forall_app. auto.
  - intros (g1 & g2 & g3 & g4 & g5 & -> & L1 & L2 & L3 & L4 & L5 & H).
    rewrite !Forall_app in H. destruct H as (H1 & H2 & H3 & H4 & H5).
    assert (M : forall n g r, length g = n ->
                Forall (fun c => is_hex_digit c = true) g ->
                match_hex n (g ++ r) = Some r).
    { intros n g r Hl Hg. apply match_hex_Some. exists g. auto. }
    rewrite (M 8%nat g1) by assumption. cbn [and_then].
    rewrite (proj2 (match_dash_Some _ _) eq_refl). cbn [and_then].
    rewrite (M 4%nat g2) by assumption. cbn [and_then].
    rewrite (proj2 (match_dash_Some _ _) eq_refl). cbn [and_then].
    rewrite (M 4%nat g3) by assumption. cbn [and_then].
    rewrite (proj2 (match_dash_Some _ _) eq_refl). cbn [and_then].
    rewrite (M 4%nat g4) by assumption. cbn [and_then].
    rewrite (proj2 (match_dash_Some _ _) eq_refl). cbn [and_then].
    rewrite <- (app_nil_r g5).
    rewrite (M 12%nat g5) by assumption. reflexivity.
Qed.

Lemma validateSessionId_spec s :
  validateSessionId s = Normal tt <-> token_format s.
Proof.
  rewrite <- SESSION_ID_PATTERN_format. unfold validateSessionId.
  destruct (SESSION_ID_PATTERN_test s); simpl; split; done.
Qed.

Lemma validateSessionId_rejects s :
  ~ token_format s ->
  validateSessionId s = Throw (Error (js "Invalid session ID format")).
Proof.
  rewrite <- SESSION_ID_PATTERN_format. unfold validateSessionId.
  destruct (SESSION_ID_PATTERN_test s); simpl; [done|reflexivity].
Qed.

Example test_accepts_valid_uuid :
  validateSessionId (js "550e8400-e29b-41d4-a716-446655440000") = Normal tt.
Proof. reflexivity. Qed.

Example test_rejects_invalid_session_id :
  validateSessionId (js "not-a-uuid") = Throw (Error (js "Invalid session ID format"))
  /\ validateSessionId (js "123456") = Throw (Error (js "Invalid session ID format"))
  /\ validateSessionId (js "550e8400-e29b-41d4-a716")
     = Throw (Error (js "Invalid session ID format")).
Proof. repeat split. Qed.

(* ===================================================================== *)
(** * The runner: properties of the specification *)
(* ===================================================================== *)

(** C1: the code departs from the claim.  On a runner with a process, a
    call of [sendInput] with valid text returns normally after writing the
    text and a newline to the input channel and closing it, as claimed.
    But the runner records nothing about it: a second call with valid text
    does not fail with a state error, it passes the same checks and writes
    again, to the channel that the first call has ended.  The state error
    is raised exactly when the runner has no process, which [sendInput]
    never clears. *)
Theorem C1_sendInput_each_call_writes_and_closes
  {C} (r : CLIRunner.t C) p input1 input2 :
  CLIRunner.process r = Some p ->
  validateInput input1 = Normal tt ->
  validateInput input2 = Normal tt ->
  (exists r1 r2,
     CLIRunner.sendInput r input1 = Normal r1
     /\ stdin_of r1
        = CLIRunner.stdin p ++ [CLIRunner.Write (line input1); CLIRunner.End]
     /\ CLIRunner.sendInput r1 input2 = Normal r2
     /\ stdin_of r2
        = CLIRunner.stdin p
          ++ [CLIRunner.Write (line input1); CLIRunner.End;
              CLIRunner.Write (line input2); CLIRunner.End])
  /\ (forall (r' : CLIRunner.t C) input,
        CLIRunner.sendInput r' input
        = Throw (Error (js "CLI process not started"))
        <-> CLIRunner.process r' = None).
Proof.
  intros Hp H1 H2. split; [|intros; apply sendInput_not_started].
  eexists _, _. rewrite (sendInput_started r p) by exact Hp. rewrite H1.
  split; [reflexivity|]. split; [reflexivity|].
  erewrite sendInput_started by reflexivity. rewrite H2.
  split; [reflexivity|]. unfold stdin_of. simpl.
  rewrite <- app_assoc. reflexivity.
Qed.

(** The failing input of C1: on a runner just started, a second call of
    [sendInput] returns normally, having written after the end of the
    channel and closed again. *)
Lemma C1_failing_input :
  exists r0 r1 r2 r3 : CLIRunner.t unit,
    CLIRunner.new None = Normal r0
    /\ CLIRunner.start r0 [] =
         Normal (r1, [{| CLIRunner.command := js "claude";
                         CLIRunner.args := fixed_args;
                         CLIRunner.shell := false |}])
    /\ CLIRunner.sendInput r1 (js "hello") = Normal r2
    /\ CLIRunner.sendInput r2 (js "again") = Normal r3
    /\ stdin_of r3
       = [CLIRunner.Write (line (js "hello")); CLIRunner.End;
          CLIRunner.Write (line (js "again")); CLIRunner.End]
    /\ written_after_end (stdin_of r2) = false
    /\ written_after_end (stdin_of r3) = true.
Proof.
  eexists _, _, _, _.
  split; [reflexivity|]. split; [reflexivity|]. split; [reflexivity|].
  split; [reflexivity|]. split; [reflexivity|]. split; reflexivity.
Qed.

(** The same through the server: two input requests in one turn both
    return normally, the second writes after the end of the channel, and
    the client is sent no notice. *)
Example two_input_requests_in_a_turn :
  let o1 := Server.on_message example_env (Some (input_message (js "hello")))
              connection_in_turn Server.init in
  let o2 := Server.on_message example_env (Some (input_message (js "again")))
              (Server.conn o1) Server.init in
  Server.result o1 = Normal tt
  /\ Server.result o2 = Normal tt
  /\ Server.sent (Server.conn o2) = []
  /\ option_map stdin_of (Server.cliRunner (Server.conn o2))
     = Some [CLIRunner.Write (line (js "hello")); CLIRunner.End;
             CLIRunner.Write (line (js "again")); CLIRunner.End].
Proof. split; [|split; [|split]]; vm_compute; reflexivity. Qed.

(** C1 on a runner just started, with the input of the injection test. *)
Lemma C1_witness :
  exists r1 r2 : CLIRunner.t unit,
    CLIRunner.sendInput running (js "; rm -rf /") = Normal r1
    /\ stdin_of r1
       = CLIRunner.stdin (@new_process unit)
         ++ [CLIRunner.Write (line (js "; rm -rf /")); CLIRunner.End]
    /\ CLIRunner.sendInput r1 (js "again") = Normal r2
    /\ stdin_of r2
       = CLIRunner.stdin (@new_process unit)
         ++ [CLIRunner.Write (line (js "; rm -rf /")); CLIRunner.End;
             CLIRunner.Write (line (js "again")); CLIRunner.End].
Proof.
  apply (fun H1 H2 H3 =>
           proj1 (C1_sendInput_each_call_writes_and_closes
                    (@running unit) new_process (js "; rm -rf /") (js "again")
                    H1 H2 H3)); reflexivity.
Defined.

(** C9.  A runner that the constructor returned holds a token only if the
    token has the format; [start] on it spawns [claude] with the fixed
    arguments, followed by [-r] and the token exactly when it holds one,
    and without a shell; nothing has been written to the new process; a
    call of [sendInput] with valid text returns normally, having written
    the text and a newline to its input channel and closed it, and no call
    returns normally otherwise; and a request of type [input] leaves the
    calls of [spawn] as they were. *)
Theorem C9_spawn_arguments_and_input_channel
  {C} (options_sessionId : option jsstring) (r0 r : CLIRunner.t C) spawned :
  CLIRunner.new options_sessionId = Normal r0 ->
  CLIRunner.sessionId r = CLIRunner.sessionId r0 ->
  CLIRunner.process r = None ->
  (forall token, CLIRunner.sessionId r = Some token -> token_format token)
  /\ exists r1,
       CLIRunner.start r spawned =
         Normal (r1,
                 spawned ++
                 [{| CLIRunner.command := js "claude";
                     CLIRunner.args :=
                       match CLIRunner.sessionId r with
                       | Some token => fixed_args ++ [js "-r"; token]
                       | None => fixed_args
                       end;
                     CLIRunner.shell := false |}])
       /\ CLIRunner.process r1 <> None
       /\ stdin_of r1 = []
       /\ (forall input,
             acceptable input ->
             exists r2,
               CLIRunner.sendInput r1 input = Normal r2
               /\ stdin_of r2 = [CLIRunner.Write (line input); CLIRunner.End])
       /\ (forall input r2,
             CLIRunner.sendInput r1 input = Normal r2 ->
             acceptable input
             /\ stdin_of r2 = [CLIRunner.Write (line input); CLIRunner.End])
       /\ (forall env m c w,
             Server.type m = Some (js "input") ->
             Server.spawned' (Server.on_message env (Some m) c w)
             = Server.spawned w).
Proof.
  intros Hnew Hsid Hproc. split.
  - intros token Htok. rewrite Hsid in Htok.
    unfold CLIRunner.new in Hnew.
    destruct (or_null options_sessionId) as [s|]; [|inversion Hnew; subst; done].
    destruct (validateSessionId s) as [[]|e] eqn:Ev; [|discriminate].
    inversion Hnew; subst. simpl in Htok. inversion Htok; subst.
    by apply validateSessionId_spec.
  - unfold CLIRunner.start. rewrite Hproc.
    exists {| CLIRunner.sessionId := CLIRunner.sessionId r;
              CLIRunner.process :=
                Some {| CLIRunner.stdin := [];
                        CLIRunner.stdout_data :=
                          CLIRunner.attach (CLIRunner.outputCallback r) [];
                        CLIRunner.stderr_data :=
                          CLIRunner.attach (CLIRunner.errorCallback r) [];
                        CLIRunner.close :=
                          CLIRunner.attach (CLIRunner.exitCallback r) [];
                        CLIRunner.kill := 0 |};
              CLIRunner.outputCallback := CLIRunner.outputCallback r;
              CLIRunner.errorCallback := CLIRunner.errorCallback r;
              CLIRunner.exitCallback := CLIRunner.exitCallback r |}.
    split; [destruct (CLIRunner.sessionId r); reflexivity|].
    split; [discriminate|]. split; [reflexivity|]. split; [|split].
    + intros input Hok. erewrite sendInput_started by reflexivity.
      rewrite (proj2 (validateInput_spec input) Hok).
      eexists. split; reflexivity.
    + intros input r2. erewrite sendInput_started by reflexivity.
      destruct (validateInput input) as [[]|e] eqn:Ev; [|discriminate].
      intros [= <-]. split; [by apply validateInput_spec|reflexivity].
    + intros env m c w Ht.
      unfold Server.on_message, Server.dispatch, Server.type_is. rewrite Ht.
      change (str_eqb (js "input") (js "start")) with false.
      change (str_eqb (js "input") (js "input")) with true. cbv iota.
      destruct (Server.on_input m c) as [c' [u|e]]; reflexivity.
Qed.

(** C9 on a runner resuming the session of the tests, with the input of
    the injection test: the token is in the arguments, the input is not,
    and the input is what the channel receives. *)
Lemma C9_witness :
  exists r1 r2 : CLIRunner.t unit,
    CLIRunner.start
      {| CLIRunner.sessionId := Some (js "550e8400-e29b-41d4-a716-446655440000");
         CLIRunner.process := None; CLIRunner.outputCallback := Some tt;
         CLIRunner.errorCallback := None; CLIRunner.exitCallback := None |} []
    = Normal (r1,
              [{| CLIRunner.command := js "claude";
                  CLIRunner.args :=
                    [js "-p"; js "--output-format"; js "stream-json"; js "-r";
                     js "550e8400-e29b-41d4-a716-446655440000"];
                  CLIRunner.shell := false |}])
    /\ stdin_of r1 = []
    /\ CLIRunner.sendInput r1 (js "; rm -rf /") = Normal r2
    /\ stdin_of r2
       = [CLIRunner.Write (js "; rm -rf /" ++ [LF]); CLIRunner.End].
Proof.
  destruct (C9_spawn_arguments_and_input_channel
              (Some (js "550e8400-e29b-41d4-a716-446655440000"))
              {| CLIRunner.sessionId :=
                   Some (js "550e8400-e29b-41d4-a716-446655440000");
                 CLIRunner.process := None; CLIRunner.outputCallback := None;
                 CLIRunner.errorCallback := None;
                 CLIRunner.exitCallback := None |}
              {| CLIRunner.sessionId :=
                   Some (js "550e8400-e29b-41d4-a716-446655440000");
                 CLIRunner.process := None; CLIRunner.outputCallback := Some tt;
                 CLIRunner.errorCallback := None;
                 CLIRunner.exitCallback := None |}
              [] eq_refl eq_refl eq_refl)
    as [_ (r1 & Hstart & _ & Hempty & Hsend & _)].
  destruct (Hsend (js "; rm -rf /")) as (r2 & Hr2 & Hin);
    [vm_compute; split; discriminate|].
  exists r1, r2. split; [exact Hstart|]. split; [exact Hempty|].
  split; [exact Hr2|exact Hin].
Defined.

(** A request of type [input] never reaches [spawn]: the text goes to the
    input channel or nowhere. *)
Lemma input_request_spawns_nothing env m c w :
  Server.type m = Some (js "input") ->
  Server.spawned' (Server.on_message env (Some m) c w) = Server.spawned w.
Proof.
  intros Ht. unfold Server.on_message, Server.dispatch, Server.type_is.
  rewrite Ht.
  change (str_eqb (js "input") (js "start")) with false.
  change (str_eqb (js "input") (js "input")) with true. cbv iota.
  destruct (Server.on_input m c) as [c' [u|e]]; reflexivity.
Qed.

(** The tests of tests/cli-runner.test.js on the arguments of [spawn]. *)
Example test_spawns_with_correct_arguments :
  exists r0 r1 : CLIRunner.t unit,
    CLIRunner.new None = Normal r0
    /\ CLIRunner.start r0 [] =
         Normal (r1, [{| CLIRunner.command := js "claude";
                         CLIRunner.args := [js "-p"; js "--output-format";
                                            js "stream-json"];
                         CLIRunner.shell := false |}]).
Proof. eexists _, _. split; reflexivity. Qed.

Example test_starting_twice_throws :
  exists (r0 r1 : CLIRunner.t unit) sp,
    CLIRunner.new None = Normal r0
    /\ CLIRunner.start r0 [] = Normal (r1, sp)
    /\ CLIRunner.start r1 sp = Throw (Error (js "CLI process already running")).
Proof. eexists _, _, _. repeat split. Qed.

Example test_rejects_session_id_in_constructor :
  @CLIRunner.new unit (Some (js "invalid"))
  = Throw (Error (js "Invalid session ID format")).
Proof. reflexivity. Qed.

(* ===================================================================== *)
(** * The message handler *)
(* ===================================================================== *)

Lemma or_null_idempotent x : or_null (or_null x) = or_null x.
Proof. destruct x as [[|c s]|]; reflexivity. Qed.

(** The handler on a request of type [input]. *)
Lemma on_message_input env m c w :
  Server.type m = Some (js "input") ->
  Server.on_message env (Some m) c w =
    let '(c', r) := Server.on_input m c in
    {| Server.conn := match r with
                      | Normal _ => c'
                      | Throw _ => Server.send request_failed c'
                      end;
       Server.spawned' := Server.spawned w;
       Server.killed' := Server.killed w;
       Server.directory' := Server.directory w;
       Server.result := r |}.
Proof.
  intros Ht. unfold Server.on_message, Server.dispatch, Server.type_is.
  rewrite Ht. cbn [str_eqb js map list_ascii_of_string N_of_ascii].
  change (str_eqb (js "input") (js "start")) with false.
  change (str_eqb (js "input") (js "input")) with true. cbv iota.
  destruct (Server.on_input m c) as [c' [u|e]]; reflexivity.
Qed.

(** The handler on a request of type [start]. *)
Lemma on_message_start env m c w :
  Server.type m = Some (js "start") ->
  Server.on_message env (Some m) c w =
    let '(c', sp, r) := Server.on_start m c (Server.spawned w) in
    {| Server.conn := match r with
                      | Normal _ => c'
                      | Throw _ => Server.send request_failed c'
                      end;
       Server.spawned' := sp;
       Server.killed' := Server.killed w;
       Server.directory' := Server.directory w;
       Server.result := r |}.
Proof.
  intros Ht. unfold Server.on_message, Server.dispatch, Server.type_is.
  rewrite Ht. change (str_eqb (js "start") (js "start")) with true. cbv iota.
  destruct (Server.on_start m c (Server.spawned w)) as [[c' sp] [u|e]];
    reflexivity.
Qed.

(** The handler on a request of type [list-sessions]. *)
Lemma on_message_list_sessions env m c w :
  Server.type m = Some (js "list-sessions") ->
  Server.on_message env (Some m) c w =
    let '(c', dir, r) := Server.on_list_sessions env m c (Server.directory w) in
    {| Server.conn := match r with
                      | Normal _ => c'
                      | Throw _ => Server.send request_failed c'
                      end;
       Server.spawned' := Server.spawned w;
       Server.killed' := Server.killed w;
       Server.directory' := dir;
       Server.result := r |}.
Proof.
  intros Ht. unfold Server.on_message, Server.dispatch, Server.type_is.
  rewrite Ht.
  change (str_eqb (js "list-sessions") (js "start")) with false.
  change (str_eqb (js "list-sessions") (js "input")) with false.
  change (str_eqb (js "list-sessions") (js "list-projects")) with false.
  change (str_eqb (js "list-sessions") (js "list-sessions")) with true.
  cbv iota.
  destruct (Server.on_list_sessions env m c (Server.directory w))
    as [[c' dir] [u|e]]; reflexivity.
Qed.

(** C5, amended.  Validation, at the boundary of the server and in the
    runner alike, accepts a text exactly when something is left of it
    after trimming and its length before trimming is at most 10000; a
    rejected text raises a validation error, and the request that carried
    it leaves the runner, and so its input channel, as it was. *)
Theorem C5_validation_accepts_and_rejects input :
  (validateInput input = Normal tt <-> acceptable input)
  /\ (forall C (r : CLIRunner.t C) p,
        CLIRunner.process r = Some p ->
        (exists r', CLIRunner.sendInput r input = Normal r')
        <-> acceptable input)
  /\ (~ acceptable input ->
      (exists e, validateInput input = Throw e /\ is_validation_error e)
      /\ (forall C (r : CLIRunner.t C) p,
            CLIRunner.process r = Some p ->
            exists e, CLIRunner.sendInput r input = Throw e
                      /\ is_validation_error e)
      /\ (forall env m c w,
            Server.type m = Some (js "input") ->
            Server.text m = Some input ->
            let o := Server.on_message env (Some m) c w in
            (exists e, Server.result o = Throw e /\ is_validation_error e)
            /\ Server.cliRunner (Server.conn o) = Server.cliRunner c
            /\ Server.sent (Server.conn o) = Server.sent c ++ [request_failed])).
Proof.
  split; [apply validateInput_spec|]. split.
  - intros C r p Hp. rewrite (sendInput_started r p) by exact Hp.
    rewrite <- validateInput_spec.
    destruct (validateInput input) as [[]|e]; split; eauto; try done.
    intros [r' H]. discriminate.
  - intros Hn. destruct (validateInput_rejects input Hn) as (e & He & Hv).
    split; [eauto|]. split.
    + intros C r p Hp. rewrite (sendInput_started r p) by exact Hp.
      rewrite He. eauto.
    + intros env m c w Ht Htext. cbv zeta.
      rewrite on_message_input by exact Ht.
      unfold Server.on_input. rewrite Htext, He. simpl. eauto.
Qed.

(** C5 on the 10001 letters of the tests, sent to a connection whose
    runner has a process. *)
Lemma C5_witness :
  let o := Server.on_message example_env
             (Some (input_message (js_repeat (js "a") 10001)))
             active_connection Server.init in
  (exists e, Server.result o = Throw e /\ is_validation_error e)
  /\ Server.cliRunner (Server.conn o) = Some running
  /\ Server.sent (Server.conn o) = [] ++ [request_failed].
Proof.
  refine (proj2 (proj2 (proj2 (proj2 (C5_validation_accepts_and_rejects
                                       (js_repeat (js "a") 10001))) _))
            example_env (input_message (js_repeat (js "a") 10001))
            active_connection Server.init eq_refl eq_refl).
  intros [_ H]. vm_compute in H. apply H. reflexivity.
Defined.

(** C5 as stated fails: a text of one letter and 10000 spaces has length 1
    after trimming and is rejected. *)
Lemma C5_counterexample :
  js_length (trim (js "a" ++ js_repeat (js " ") 10000)) = 1
  /\ validateInput (js "a" ++ js_repeat (js " ") 10000)
     = Throw (Error (js "Input exceeds maximum length"))
  /\ CLIRunner.sendInput (@running unit) (js "a" ++ js_repeat (js " ") 10000)
     = Throw (Error (js "Input exceeds maximum length")).
Proof. split; [|split]; vm_compute; reflexivity. Qed.

(** The tests of tests/server.test.js on [validateInput]. *)
Example test_validateInput :
  validateInput (js "Hello, how are you?") = Normal tt
  /\ validateInput (js "") = Throw (Error (js "Input cannot be empty"))
  /\ validateInput (js "   ") = Throw (Error (js "Input cannot be empty"))
  /\ validateInput (js_repeat (js "a") 10001)
     = Throw (Error (js "Input exceeds maximum length"))
  /\ validateInput (js_repeat (js "a") 10000) = Normal tt.
Proof. split; [|split; [|split; [|split]]]; vm_compute; reflexivity. Qed.

(* ===================================================================== *)
(** * Start requests and the resumption token *)
(* ===================================================================== *)

(** A start request whose token, if any, has the format: a runner is
    created and started, and the acknowledgement is sent. *)
Lemma on_start_well_formed m c sp :
  (forall t, or_null (Server.sessionId m) = Some t -> token_format t) ->
  exists runner,
    Server.on_start m c sp =
      ({| Server.cliRunner := Some runner;
          Server.streamParser :=
            Some (StreamParser.onMessage StreamParser.new Server.forward);
          Server.sent :=
            Server.sent c ++ [Server.Started (or_null (Server.sessionId m))] |},
       sp ++ [{| CLIRunner.command := js "claude";
                 CLIRunner.args :=
                   match or_null (Server.sessionId m) with
                   | Some t => fixed_args ++ [js "-r"; t]
                   | None => fixed_args
                   end;
                 CLIRunner.shell := false |}],
       Normal tt)
    /\ CLIRunner.process runner <> None.
Proof.
  intros Hfmt. unfold Server.on_start, CLIRunner.new.
  rewrite or_null_idempotent.
  destruct (or_null (Server.sessionId m)) as [t|].
  - rewrite (proj2 (validateSessionId_spec t)) by auto.
    eexists. split; [reflexivity|discriminate].
  - eexists. split; [reflexivity|discriminate].
Qed.

(** A start request whose token is not empty and has not the format: the
    constructor throws before anything is assigned or spawned. *)
Lemma on_start_bad_token m c sp token :
  Server.sessionId m = Some token ->
  token <> [] ->
  ~ token_format token ->
  Server.on_start m c sp
  = (c, sp, Throw (Error (js "Invalid session ID format"))).
Proof.
  intros Hs Hne Hfmt. unfold Server.on_start, CLIRunner.new.
  rewrite or_null_idempotent, Hs.
  destruct token as [|x token]; [done|]. cbn [or_null].
  rewrite validateSessionId_rejects by exact Hfmt. reflexivity.
Qed.

(** C7, amended.  A start request whose resumption token is not empty and
    has not the format fails with the validation error of the constructor:
    nothing is spawned, the variables of the connection are untouched, the
    client is sent the failure notice, the connection keeps its place and
    the counter its value; a start request that follows, with no token or
    with one of the format, spawns a process and is acknowledged. *)
Theorem C7_bad_token_fails_the_request_only env m c w token :
  Server.type m = Some (js "start") ->
  Server.sessionId m = Some token ->
  token <> [] ->
  ~ token_format token ->
  let o := Server.on_message env (Some m) c w in
  Server.result o = Throw (Error (js "Invalid session ID format"))
  /\ Server.spawned' o = Server.spawned w
  /\ Server.conn o = Server.send request_failed c
  /\ (forall ws,
        Server.connections w !! ws = Some c ->
        let w' := Server.step env w (Server.Message ws (Some m)) in
        Server.activeConnections w' = Server.activeConnections w
        /\ Server.connections w' !! ws = Some (Server.send request_failed c)
        /\ dom (Server.connections w') = dom (Server.connections w)
        /\ Server.spawned w' = Server.spawned w)
  /\ (forall m2 w2,
        Server.type m2 = Some (js "start") ->
        (forall t, or_null (Server.sessionId m2) = Some t -> token_format t) ->
        let o2 := Server.on_message env (Some m2) (Server.conn o) w2 in
        Server.result o2 = Normal tt
        /\ Server.spawned' o2
           = Server.spawned w2
             ++ [{| CLIRunner.command := js "claude";
                    CLIRunner.args :=
                      match or_null (Server.sessionId m2) with
                      | Some t => fixed_args ++ [js "-r"; t]
                      | None => fixed_args
                      end;
                    CLIRunner.shell := false |}]
        /\ Server.sent (Server.conn o2)
           = Server.sent c
             ++ [request_failed; Server.Started (or_null (Server.sessionId m2))]
        /\ exists runner,
             Server.cliRunner (Server.conn o2) = Some runner
             /\ CLIRunner.process runner <> None).
Proof.
  intros Ht Hs Hne Hfmt. cbv zeta.
  assert (Ho : Server.on_message env (Some m) c w =
               {| Server.conn := Server.send request_failed c;
                  Server.spawned' := Server.spawned w;
                  Server.killed' := Server.killed w;
                  Server.directory' := Server.directory w;
                  Server.result := Throw (Error (js "Invalid session ID format")) |}).
  { rewrite on_message_start by exact Ht.
    rewrite (on_start_bad_token m c _ token) by assumption. reflexivity. }
  rewrite Ho. cbn [Server.result Server.spawned' Server.conn].
  split; [reflexivity|]. split; [reflexivity|]. split; [reflexivity|]. split.
  - intros ws Hws. cbn [Server.step]. rewrite Hws, Ho.
    cbn [Server.activeConnections Server.connections Server.spawned
         Server.conn Server.spawned'].
    split; [reflexivity|]. split; [apply lookup_insert_eq|].
    split; [|reflexivity].
    rewrite dom_insert_L. apply elem_of_dom_2 in Hws.
    apply subseteq_union_1_L. by apply singleton_subseteq_l.
  - intros m2 w2 Ht2 Hfmt2. rewrite on_message_start by exact Ht2.
    destruct (on_start_well_formed m2 (Server.send request_failed c)
                (Server.spawned w2) Hfmt2) as (runner & -> & Hproc).
    cbn. split; [reflexivity|]. split; [reflexivity|].
    split; [by rewrite <- app_assoc|]. eauto.
Qed.

(** C7 on a token of the tests, on a connection just accepted. *)
Lemma C7_witness :
  let o := Server.on_message example_env
             (Some (start_message (Some (js "not-a-uuid"))))
             idle_connection Server.init in
  Server.result o = Throw (Error (js "Invalid session ID format"))
  /\ Server.spawned' o = Server.spawned Server.init
  /\ Server.conn o = Server.send request_failed idle_connection.
Proof.
  assert (H : ~ token_format (js "not-a-uuid")).
  { intros H. apply SESSION_ID_PATTERN_format in H. discriminate. }
  pose proof (C7_bad_token_fails_the_request_only example_env
                (start_message (Some (js "not-a-uuid")))
                idle_connection Server.init (js "not-a-uuid")
                eq_refl eq_refl ltac:(discriminate) H) as (H1 & H2 & H3 & _).
  cbv zeta. auto.
Defined.

(** C7 as stated fails on the empty token: it has not the format, and the
    request that carries it is taken as one without token, spawns a
    process and is acknowledged. *)
Lemma C7_counterexample :
  SESSION_ID_PATTERN_test (js "") = false
  /\ Server.result
       (Server.on_message example_env (Some (start_message (Some (js ""))))
          idle_connection Server.init) = Normal tt
  /\ Server.spawned'
       (Server.on_message example_env (Some (start_message (Some (js ""))))
          idle_connection Server.init)
     = [{| CLIRunner.command := js "claude"; CLIRunner.args := fixed_args;
           CLIRunner.shell := false |}]
  /\ Server.sent
       (Server.conn
          (Server.on_message example_env (Some (start_message (Some (js ""))))
             idle_connection Server.init))
     = [Server.Started None].
Proof. split; [|split; [|split]]; reflexivity. Qed.

(* ===================================================================== *)
(** * Listing sessions: the base directory *)
(* ===================================================================== *)

Lemma str_eqb_eq a b : str_eqb a b = true <-> a = b.
Proof.
  revert b. induction a as [|x a IH]; intros [|y b]; simpl; try done.
  rewrite andb_true_iff, IH, N.eqb_eq. split.
  - intros [-> ->]. reflexivity.
  - intros [= -> ->]. done.
Qed.

Lemma startsWith_prefix s p : startsWith s p = true <-> exists r, s = p ++ r.
Proof.
  revert s. induction p as [|y p IH]; intros s; simpl.
  - split; [intros _; by exists s|done].
  - destruct s as [|x s].
    + split; [done|]. intros [r Hr]. discriminate.
    + rewrite andb_true_iff, IH, N.eqb_eq. split.
      * intros [-> [r ->]]. eauto.
      * intros [r [= -> ->]]. eauto.
Qed.

(** Splitting at a separator that is there. *)
Lemma split_at_sep sep a b :
  split sep (a ++ sep :: b) = split sep a ++ split sep b.
Proof.
  induction a as [|c a IH]; simpl.
  - rewrite N.eqb_refl. reflexivity.
  - destruct (N.eqb c sep); rewrite IH; [reflexivity|].
    destruct (split sep a) as [|l ls] eqn:E; [by apply split_not_nil in E|].
    reflexivity.
Qed.

Lemma components_below dir rest :
  path.components (dir ++ path.sep ++ rest)
  = path.components dir ++ path.components rest.
Proof.
  unfold path.components. change (path.sep ++ rest) with (path.slash :: rest).
  rewrite split_at_sep. apply filter_app.
Qed.

(** What the check of the handler lets through lies inside the base. *)
Lemma check_passes_inside base requested :
  negb (startsWith requested (base ++ path.sep))
  && negb (str_eqb requested base) = false ->
  inside base requested.
Proof.
  intros H. apply andb_false_iff in H as [H|H]; apply negb_false_iff in H.
  - apply startsWith_prefix in H as [r ->]. unfold inside.
    rewrite <- app_assoc, components_below. by apply prefix_app_r.
  - apply str_eqb_eq in H as ->. unfold inside. reflexivity.
Qed.

(** C8.  A list-sessions request that supplies a project name (a string
    that is not empty, as the handler reads it) which resolves, against
    the base directory of the projects, to a path that does not lie inside
    that directory fails with the path-validation error: the session
    directory is not called, and the client is sent the failure notice and
    no list of sessions. *)
Theorem C8_project_outside_base_is_rejected env m c w name :
  Server.type m = Some (js "list-sessions") ->
  or_null (Server.projectName m) = Some name ->
  let projectsBase :=
    path.join [Server.homedir env; Server.PROJECTS_BASE_DIR env] in
  let requestedPath := path.resolve (Server.cwd env) [projectsBase; name] in
  ~ inside projectsBase requestedPath ->
  let o := Server.on_message env (Some m) c w in
  Server.result o
  = Throw (Error (js "Invalid project name: path traversal detected"))
  /\ Server.directory' o = Server.directory w
  /\ Server.conn o = Server.send request_failed c.
Proof.
  intros Ht Hn projectsBase requestedPath Hout. cbv zeta.
  rewrite on_message_list_sessions by exact Ht.
  unfold Server.on_list_sessions. rewrite Hn.
  fold projectsBase. fold requestedPath.
  destruct (negb (startsWith requestedPath (projectsBase ++ path.sep))
            && negb (str_eqb requestedPath projectsBase)) eqn:E.
  - auto.
  - exfalso. apply Hout. by apply check_passes_inside.
Qed.

(** C8 on the project name [../etc], with the home directory
    [/home/user]. *)
Lemma C8_witness :
  let o := Server.on_message example_env
             (Some (list_sessions_message (js "../etc")))
             idle_connection Server.init in
  Server.result o
  = Throw (Error (js "Invalid project name: path traversal detected"))
  /\ Server.directory' o = Server.directory Server.init
  /\ Server.conn o = Server.send request_failed idle_connection.
Proof.
  apply (C8_project_outside_base_is_rejected example_env
           (list_sessions_message (js "../etc")) idle_connection Server.init
           (js "../etc") eq_refl eq_refl).
  intros [k Hk]. vm_compute in Hk. discriminate.
Defined.

(** The requests of tests/server.test.js on project names. *)
Example test_rejects_parent_directory :
  path.resolve (js "/srv/app") [js "/home/user/.claude/projects"; js "../etc"]
  = js "/home/user/.claude/etc"
  /\ Server.sent
       (Server.conn
          (Server.on_message example_env
             (Some (list_sessions_message (js "../etc")))
             idle_connection Server.init))
     = [request_failed].
Proof. split; vm_compute; reflexivity. Qed.

Example test_rejects_absolute_path :
  Server.sent
    (Server.conn
       (Server.on_message example_env
          (Some (list_sessions_message (js "/etc/passwd")))
          idle_connection Server.init))
  = [request_failed].
Proof. vm_compute. reflexivity. Qed.

Example test_accepts_valid_project_name :
  Server.sent
    (Server.conn
       (Server.on_message example_env
          (Some (list_sessions_message (js "my-project")))
          idle_connection Server.init))
  = [Server.Sessions []]
  /\ Server.directory'
       (Server.on_message example_env
          (Some (list_sessions_message (js "my-project")))
          idle_connection Server.init)
     = [Server.ListSessions (js "/home/user/.claude/projects/my-project")].
Proof. split; vm_compute; reflexivity. Qed.

(* ===================================================================== *)
(** * The connection counter *)
(* ===================================================================== *)

Lemma init_invariant : counter_invariant Server.init.
Proof.
  unfold counter_invariant. simpl. rewrite map_size_empty.
  split; [reflexivity|]. split; [unfold MAX_CONNECTIONS; lia|].
  intros ws _. apply lookup_empty.
Qed.

Lemma update_invariant ws c c' w :
  Server.connections w !! ws = Some c ->
  counter_invariant w -> counter_invariant (Server.update ws c' w).
Proof.
  intros Hws (Hsize & Hmax & Hnew). unfold counter_invariant. simpl.
  rewrite map_size_insert_Some by eauto. split; [exact Hsize|].
  split; [exact Hmax|]. intros ws' Hle.
  destruct (decide (ws = ws')) as [<-|Hne].
  - rewrite Hnew in Hws by exact Hle. discriminate.
  - rewrite lookup_insert_ne by exact Hne. auto.
Qed.

Lemma handleConnection_cases env origin w :
  counter_invariant w ->
  (Server.isAllowedOrigin env origin = true
   /\ Server.activeConnections w < MAX_CONNECTIONS
   /\ Server.handleConnection env origin w =
        {| Server.activeConnections := Server.activeConnections w + 1;
           Server.connections :=
             <[Server.next_ws w := idle_connection]> (Server.connections w);
           Server.next_ws := S (Server.next_ws w);
           Server.refused := Server.refused w;
           Server.spawned := Server.spawned w;
           Server.killed := Server.killed w;
           Server.directory := Server.directory w |})
  \/ ((Server.isAllowedOrigin env origin = false
       \/ Server.activeConnections w = MAX_CONNECTIONS)
      /\ Server.handleConnection env origin w =
           {| Server.activeConnections := Server.activeConnections w;
              Server.connections := Server.connections w;
              Server.next_ws := S (Server.next_ws w);
              Server.refused := Server.refused w ++ [Server.next_ws w];
              Server.spawned := Server.spawned w;
              Server.killed := Server.killed w;
              Server.directory := Server.directory w |}).
Proof.
  intros (_ & Hmax & _). unfold Server.handleConnection.
  destruct (Server.isAllowedOrigin env origin); simpl; [|right; auto].
  destruct (Z.geb_spec (Server.activeConnections w) MAX_CONNECTIONS).
  - right. split; [right; lia|reflexivity].
  - left. split; [reflexivity|]. split; [lia|reflexivity].
Qed.

Lemma step_invariant env w e :
  counter_invariant w -> counter_invariant (Server.step env w e).
Proof.
  intros Hinv. pose proof Hinv as (Hsize & Hmax & Hnew).
  destruct e as [origin|ws data|ws|ws chunk|ws chunk|ws code]; cbn [Server.step];
    try (destruct (Server.connections w !! ws) as [c|] eqn:Hws; [|exact Hinv]).
  - destruct (handleConnection_cases env origin w Hinv)
      as [(_ & Hlt & ->)|(_ & ->)]; unfold counter_invariant; simpl.
    + rewrite map_size_insert_None by (apply Hnew; lia).
      split; [lia|]. split; [lia|]. intros ws Hle.
      rewrite lookup_insert_ne by lia. apply Hnew. lia.
    + split; [exact Hsize|]. split; [exact Hmax|]. intros ws Hle.
      apply Hnew. lia.
  - unfold counter_invariant. simpl.
    rewrite map_size_insert_Some by eauto. split; [exact Hsize|].
    split; [exact Hmax|]. intros ws' Hle.
    destruct (decide (ws = ws')) as [<-|Hne].
    + rewrite Hnew in Hws by exact Hle. discriminate.
    + rewrite lookup_insert_ne by exact Hne. auto.
  - unfold counter_invariant, Server.on_close. simpl.
    rewrite map_size_delete_Some by eauto.
    assert (size (Server.connections w) <> 0%nat).
    { intros Hz. apply map_size_empty_inv in Hz. rewrite Hz in Hws.
      rewrite lookup_empty in Hws. discriminate. }
    split; [lia|]. split; [lia|]. intros ws' Hle.
    destruct (decide (ws = ws')) as [<-|Hne].
    + apply lookup_delete_eq.
    + rewrite lookup_delete_ne by exact Hne. auto.
  - eapply update_invariant; eauto.
  - eapply update_invariant; eauto.
  - eapply update_invariant; eauto.
Qed.

Lemma run_invariant env events : forall w,
  counter_invariant w -> counter_invariant (Server.run env w events).
Proof.
  induction events as [|e es IH]; intros w Hinv; [exact Hinv|].
  apply IH, step_invariant, Hinv.
Qed.

(** Only connections and closes move the counter. *)
Lemma traffic_keeps_counter env w e :
  is_traffic e = true ->
  Server.activeConnections (Server.step env w e) = Server.activeConnections w.
Proof.
  destruct e as [origin|ws data|ws|ws chunk|ws chunk|ws code];
    try discriminate; intros _; cbn [Server.step];
    destruct (Server.connections w !! ws); reflexivity.
Qed.

(** C6.  In every state that the server reaches, the counter is the number
    of sockets with handlers and lies between 0 and the ceiling of 3.
    Only connections and closes move it.  A connection that arrives at the
    ceiling is refused and leaves counter and sockets as they were; an
    accepted connection adds 1 and one new idle socket; the close of a
    socket subtracts 1, removes the socket, and cannot happen twice; after
    one close at the ceiling the next allowed connection is accepted and
    the one after it is refused. *)
Theorem C6_connection_counter env events :
  let w := Server.run env Server.init events in
  0 <= Server.activeConnections w <= MAX_CONNECTIONS
  /\ Server.activeConnections w = Z.of_nat (size (Server.connections w))
  /\ (forall e, is_traffic e = true ->
        Server.activeConnections (Server.step env w e)
        = Server.activeConnections w)
  /\ (forall origin,
        Server.activeConnections w = MAX_CONNECTIONS ->
        let w' := Server.step env w (Server.Connect origin) in
        Server.activeConnections w' = Server.activeConnections w
        /\ Server.connections w' = Server.connections w
        /\ Server.refused w' = Server.refused w ++ [Server.next_ws w])
  /\ (forall origin,
        Server.isAllowedOrigin env origin = true ->
        Server.activeConnections w < MAX_CONNECTIONS ->
        let w' := Server.step env w (Server.Connect origin) in
        Server.activeConnections w' = Server.activeConnections w + 1
        /\ Server.connections w !! Server.next_ws w = None
        /\ Server.connections w'
           = <[Server.next_ws w := idle_connection]> (Server.connections w))
  /\ (forall ws c,
        Server.connections w !! ws = Some c ->
        let w' := Server.step env w (Server.Close ws) in
        Server.activeConnections w' = Server.activeConnections w - 1
        /\ Server.connections w' = delete ws (Server.connections w)
        /\ Server.step env w' (Server.Close ws) = w')
  /\ (forall ws c origin1 origin2,
        Server.connections w !! ws = Some c ->
        Server.activeConnections w = MAX_CONNECTIONS ->
        Server.isAllowedOrigin env origin1 = true ->
        let w1 := Server.step env (Server.step env w (Server.Close ws))
                    (Server.Connect origin1) in
        let w2 := Server.step env w1 (Server.Connect origin2) in
        Server.activeConnections w1 = MAX_CONNECTIONS
        /\ Server.connections w1 !! Server.next_ws w = Some idle_connection
        /\ Server.activeConnections w2 = MAX_CONNECTIONS
        /\ Server.connections w2 = Server.connections w1
        /\ Server.refused w2 = Server.refused w ++ [S (Server.next_ws w)]).
Proof.
  intros w.
  assert (Hinv : counter_invariant w) by apply run_invariant, init_invariant.
  pose proof Hinv as (Hsize & Hmax & Hnew).
  assert (Hconnect_full : forall v origin,
    counter_invariant v ->
    Server.activeConnections v = MAX_CONNECTIONS ->
    let v' := Server.step env v (Server.Connect origin) in
    Server.activeConnections v' = Server.activeConnections v
    /\ Server.connections v' = Server.connections v
    /\ Server.refused v' = Server.refused v ++ [Server.next_ws v]).
  { intros v origin Hv Hfull. cbn [Server.step].
    destruct (handleConnection_cases env origin v Hv)
      as [(_ & Hlt & _)|(_ & ->)]; [lia|]. simpl. auto. }
  assert (Hconnect_free : forall v origin,
    counter_invariant v ->
    Server.isAllowedOrigin env origin = true ->
    Server.activeConnections v < MAX_CONNECTIONS ->
    let v' := Server.step env v (Server.Connect origin) in
    Server.activeConnections v' = Server.activeConnections v + 1
    /\ Server.connections v !! Server.next_ws v = None
    /\ Server.connections v'
       = <[Server.next_ws v := idle_connection]> (Server.connections v)).
  { intros v origin Hv Hok Hlt. cbn [Server.step].
    destruct (handleConnection_cases env origin v Hv)
      as [(_ & _ & ->)|([Hno|Hfull] & _)]; [|congruence|lia].
    simpl. split; [reflexivity|]. split; [|reflexivity].
    destruct Hv as (_ & _ & Hv). apply Hv. lia. }
  split; [exact Hmax|]. split; [exact Hsize|].
  split; [intros e; apply traffic_keeps_counter|].
  split; [intros origin; by apply Hconnect_full|].
  split; [intros origin; by apply Hconnect_free|].
  assert (Hclose : forall ws c,
    Server.connections w !! ws = Some c ->
    Server.step env w (Server.Close ws) = Server.on_close ws c w).
  { intros ws c Hws. cbn [Server.step]. rewrite Hws. reflexivity. }
  split.
  - intros ws c Hws. cbv zeta. rewrite (Hclose ws c Hws).
    split; [reflexivity|]. split; [reflexivity|].
    cbn [Server.step Server.on_close Server.connections].
    rewrite lookup_delete_eq. reflexivity.
  - intros ws c origin1 origin2 Hws Hfull Hok. cbv zeta.
    assert (Hv : counter_invariant (Server.step env w (Server.Close ws)))
      by apply step_invariant, Hinv.
    rewrite (Hclose ws c Hws) in *.
    destruct (Hconnect_free _ origin1 Hv Hok) as (Hc1 & _ & Hm1).
    { simpl. lia. }
    set (w1 := Server.step env (Server.on_close ws c w) (Server.Connect origin1)) in *.
    assert (Hw1 : counter_invariant w1) by apply step_invariant, Hv.
    assert (Hfull1 : Server.activeConnections w1 = MAX_CONNECTIONS).
    { rewrite Hc1. simpl. lia. }
    destruct (Hconnect_full w1 origin2 Hw1 Hfull1) as (Hc2 & Hm2 & Hr2).
    split; [exact Hfull1|]. split.
    { rewrite Hm1. simpl. apply lookup_insert_eq. }
    split; [congruence|]. split; [exact Hm2|].
    rewrite Hr2. subst w1. cbn [Server.step].
    destruct (handleConnection_cases env origin1 _ Hv)
      as [(_ & _ & ->)|([Hno|Hf] & _)]; [reflexivity|congruence|].
    simpl in Hf. lia.
Qed.

(** C6 after three connections: one is closed, the next connection is
    accepted and the one after it refused. *)
Lemma C6_witness :
  let w := Server.run example_env Server.init
             [Server.Connect None; Server.Connect None; Server.Connect None] in
  let w1 := Server.step example_env (Server.step example_env w (Server.Close 0))
              (Server.Connect None) in
  let w2 := Server.step example_env w1
              (Server.Connect (Some (js "http://localhost:3000"))) in
  Server.activeConnections w1 = MAX_CONNECTIONS
  /\ Server.connections w1 !! Server.next_ws w = Some idle_connection
  /\ Server.activeConnections w2 = MAX_CONNECTIONS
  /\ Server.connections w2 = Server.connections w1
  /\ Server.refused w2 = Server.refused w ++ [S (Server.next_ws w)].
Proof.
  refine (proj2 (proj2 (proj2 (proj2 (proj2 (proj2
            (C6_connection_counter example_env
               [Server.Connect None; Server.Connect None; Server.Connect None]))))))
            0%nat idle_connection None (Some (js "http://localhost:3000")) _ _ _);
    reflexivity.
Defined.

(** Four connections in a row: the fourth is refused. *)
Example test_fourth_connection_refused :
  let w := Server.run example_env Server.init
             [Server.Connect None; Server.Connect None; Server.Connect None;
              Server.Connect None] in
  Server.activeConnections w = 3
  /\ Server.refused w = [3%nat]
  /\ Server.connections w !! 3%nat = None.
Proof. split; [|split]; reflexivity. Qed.

(** An origin whose host only contains [localhost] is refused. *)
Example test_substring_origin_refused :
  let w := Server.run example_env Server.init
             [Server.Connect (Some (js "http://evil-localhost.com"))] in
  Server.activeConnections w = 0 /\ Server.refused w = [0%nat].
Proof. split; reflexivity. Qed.

(* ===================================================================== *)
(** * Further properties of the code *)
(* ===================================================================== *)

(** * Log sanitising *)

Lemma sanitizeLogMessage_app (a b : jsstring) :
  sanitizeLogMessage (a ++ b) = sanitizeLogMessage a ++ sanitizeLogMessage b.
Proof. unfold sanitizeLogMessage. apply filter_app. Qed.

(** X1. [sanitizeLogMessage] removes exactly the control code units (0 to
    31, and 127) of a message: a unit is in the result exactly when it is in
    the message and is no control unit, the units kept stay in their order,
    sanitising twice changes nothing more, and a message comes back
    unchanged exactly when it holds no control unit. *)
Theorem sanitizeLogMessage_removes_exactly_control (message : jsstring) :
  (forall c, c ∈ sanitizeLogMessage message <-> c ∈ message /\ is_control c = false)
  /\ sanitizeLogMessage message `sublist_of` message
  /\ sanitizeLogMessage (sanitizeLogMessage message) = sanitizeLogMessage message
  /\ (sanitizeLogMessage message = message <-> Forall (fun c => is_control c = false) message).
Proof.
  unfold sanitizeLogMessage, jsstring. split; [|split; [|split]].
  - intros c. rewrite list_elem_of_filter.
    destruct (is_control c); simpl; intuition congruence.
  - apply sublist_filter.
  - induction message as [|c m IH]; [done|].
    rewrite (filter_cons _ c m). destruct (decide _) as [H|H]; [|done].
    rewrite filter_cons_True by done. by rewrite IH.
  - split.
    + intros H. apply Forall_forall. intros c Hc. rewrite <- H in Hc.
      apply list_elem_of_filter in Hc. destruct Hc as [Hc _].
      by destruct (is_control c).
    + induction 1 as [|c m Hc _ IH]; [done|].
      rewrite filter_cons_True by (by rewrite Hc). by rewrite IH.
Qed.

(** * Sorting *)

Section Sort.

Context {A : Type} (before : A -> A -> bool).

Lemma insert_sorted_perm (x : A) (l : list A) :
  insert_sorted before x l ≡ₚ x :: l.
Proof.
  induction l as [|y l IH]; simpl; [done|].
  destruct (before x y); [done|].
  rewrite IH. apply Permutation_swap.
Qed.

Lemma js_sort_perm (l : list A) : js_sort before l ≡ₚ l.
Proof.
  induction l as [|x l IH]; simpl; [done|].
  by rewrite insert_sorted_perm, IH.
Qed.

Hypothesis before_total : forall a b, before a b = true \/ before b a = true.
Hypothesis before_trans :
  forall a b c, before a b = true -> before b c = true -> before a c = true.

Lemma insert_sorted_sorted (x : A) (l : list A) :
  StronglySorted (fun a b => before a b = true) l ->
  StronglySorted (fun a b => before a b = true) (insert_sorted before x l).
Proof.
  induction 1 as [|y l Hs IH Hy]; simpl.
  - repeat constructor.
  - destruct (before x y) eqn:Hxy.
    + constructor; [by constructor|].
      constructor; [done|].
      eapply Forall_impl; [exact Hy|]. intros z Hz. by eapply before_trans.
    + constructor; [done|].
      rewrite insert_sorted_perm. constructor; [|done].
      destruct (before_total x y); congruence.
Qed.

Lemma js_sort_sorted (l : list A) :
  StronglySorted (fun a b => before a b = true) (js_sort before l).
Proof.
  induction l as [|x l IH]; simpl; [constructor|].
  by apply insert_sorted_sorted.
Qed.

End Sort.

Lemma StronglySorted_weaken {A} (R R' : A -> A -> Prop) (l : list A) :
  (forall a b, R a b -> R' a b) -> StronglySorted R l -> StronglySorted R' l.
Proof.
  intros H. induction 1 as [|x l Hs IH Hx]; constructor; [done|].
  eapply Forall_impl; [exact Hx|]. intros y. apply H.
Qed.

Lemma str_leb_total (a b : jsstring) : str_leb a b = true \/ str_leb b a = true.
Proof.
  revert b. induction a as [|x a IH]; intros [|y b]; simpl; auto.
  destruct (N.ltb_spec x y); [auto|].
  destruct (N.ltb_spec y x); [auto|].
  assert (x = y) by lia. subst. rewrite N.eqb_refl. simpl. apply IH.
Qed.

Lemma str_leb_trans (a b c : jsstring) :
  str_leb a b = true -> str_leb b c = true -> str_leb a c = true.
Proof.
  revert b c. induction a as [|x a IH]; intros [|y b] [|z c]; simpl; auto;
    try discriminate.
  intros H1 H2.
  apply orb_true_iff in H1. apply orb_true_iff in H2. apply orb_true_iff.
  rewrite !andb_true_iff in *. rewrite !N.ltb_lt in *. rewrite !N.eqb_eq in *.
  destruct H1 as [H1|[-> H1]], H2 as [H2|[-> H2]].
  - left. lia.
  - left. lia.
  - left. lia.
  - right. split; [done|]. by eapply IH.
Qed.

Lemma newer_first_total (a b : Server.Session) :
  SessionManager.newer_first a b = true \/ SessionManager.newer_first b a = true.
Proof. unfold SessionManager.newer_first. rewrite !Z.leb_le. lia. Qed.

Lemma newer_first_trans (a b c : Server.Session) :
  SessionManager.newer_first a b = true -> SessionManager.newer_first b c = true ->
  SessionManager.newer_first a c = true.
Proof. unfold SessionManager.newer_first. rewrite !Z.leb_le. lia. Qed.

(** X2. When the base directory (the argument, or the home directory joined
    with PROJECTS_BASE_DIR when the argument is absent or empty) can be
    read, SessionManager.listProjects returns the names of its entries that
    are directories, each once per entry and nothing else, in ascending
    order of code units. *)
Theorem listProjects_sorted_directory_names
  (homedir base : jsstring) (fs : SessionManager.FileSystem)
  (baseDir : option jsstring) (entries : list SessionManager.Dirent) :
  SessionManager.readdir fs
    (default (path.join [homedir; base]) (or_null baseDir))
  = SessionManager.FsOk entries ->
  exists projects,
    SessionManager.listProjects homedir base fs baseDir = Normal projects
    /\ StronglySorted (fun a b => str_leb a b = true) projects
    /\ projects ≡ₚ map SessionManager.name
                     (filter (fun entry => SessionManager.isDirectory entry = true)
                        entries).
Proof.
  intros Hdir. unfold SessionManager.listProjects.
  replace (match or_null baseDir with Some d => d | None => path.join [homedir; base] end)
    with (default (path.join [homedir; base]) (or_null baseDir))
    by (by destruct (or_null baseDir)).
  rewrite Hdir. eexists. split; [reflexivity|]. split.
  - apply js_sort_sorted; [apply str_leb_total|apply str_leb_trans].
  - rewrite js_sort_perm. apply Permutation_map', eq_subrelation; [tc_solve|].
    apply list_filter_iff. intros e. by rewrite Is_true_true.
Qed.

(** * Previews *)

Lemma trim_end_nil (s : jsstring) :
  trim_end s = [] -> Forall (fun c => is_white_space c = true) s.
Proof.
  induction s as [|c s IH]; [constructor|].
  cbn [trim_end]. destruct (trim_end s) as [|d t]; [|discriminate].
  destruct (is_white_space c) eqn:Hc; [|discriminate].
  intros _. constructor; [done|]. by apply IH.
Qed.

Lemma trim_start_white (s : jsstring) :
  Forall (fun c => is_white_space c = true) (trim_start s) ->
  Forall (fun c => is_white_space c = true) s.
Proof.
  induction s as [|c s IH]; [done|].
  cbn [trim_start]. destruct (is_white_space c) eqn:Hc; [|done].
  intros H. constructor; [done|]. by apply IH.
Qed.

Lemma skip_ws_white (s : jsstring) :
  Forall (fun c => is_white_space c = true) s ->
  Forall (fun c => is_white_space c = true) (JSON.skip_ws s).
Proof.
  induction 1 as [|c s Hc Hs IH]; [constructor|].
  cbn [JSON.skip_ws]. destruct (JSON.is_ws c); [done|]. by constructor.
Qed.

Lemma parse_value_white (fuel : nat) (s : jsstring) :
  Forall (fun c => is_white_space c = true) s -> JSON.parse_value fuel s = None.
Proof.
  intros H. apply skip_ws_white in H.
  destruct fuel as [|fuel]; [done|]. cbn [JSON.parse_value].
  destruct (JSON.skip_ws s) as [|c s']; [done|].
  apply Forall_cons in H. destruct H as [Hc _].
  assert (Hne : forall k, is_white_space k = false -> N.eqb c k = false).
  { intros k Hk. destruct (N.eqb_spec c k); [congruence|done]. }
  rewrite !Hne by reflexivity.
  unfold JSON.parse_number. rewrite !Hne by reflexivity.
  unfold JSON.parse_int. rewrite !Hne by reflexivity.
  assert (JSON.is_digit c = false) as ->; [|done].
  unfold JSON.is_digit, is_white_space in *.
  destruct (48 <=? c)%N eqn:H1, (c <=? 57)%N eqn:H2; try done.
  apply N.leb_le in H1, H2.
  repeat (apply orb_true_iff in Hc; destruct Hc as [Hc|Hc]);
    repeat (apply andb_true_iff in Hc; destruct Hc as [Hc Hc']);
    rewrite ?N.leb_le, ?N.eqb_eq in *; lia.
Qed.

Lemma blank_no_user_text (l : jsstring) :
  js_length (trim l) = 0 -> SessionManager.user_text l = None.
Proof.
  intros H. unfold SessionManager.user_text, JSON.parse.
  rewrite parse_value_white; [done|].
  apply trim_start_white, trim_end_nil.
  unfold js_length, trim in H. destruct (trim_end (trim_start l)); [done|].
  simpl in H. lia.
Qed.

Lemma clip_length (text : jsstring) :
  js_length (SessionManager.clip text) <= MAX_PREVIEW_LENGTH + 3.
Proof.
  unfold SessionManager.clip, MAX_PREVIEW_LENGTH, js_length.
  destruct (Z.of_nat (length text) >? 100) eqn:H.
  - rewrite length_app, length_take.
    change (length (js "...")) with 3%nat. lia.
  - rewrite Z.gtb_ltb in H. apply Z.ltb_ge in H. lia.
Qed.

Lemma read_preview_length (lines : list jsstring) (n : Z)
  (e : SessionManager.StreamEnd) :
  js_length (SessionManager.read_preview lines n e) <= MAX_PREVIEW_LENGTH + 3.
Proof.
  revert n. induction lines as [|l lines IH]; intros n; cbn [SessionManager.read_preview].
  - destruct e; [destruct (n =? 0)|]; by vm_compute.
  - destruct (n + 1 >? MAX_PREVIEW_LINES); [by vm_compute|].
    destruct (js_length (trim l) =? 0); [apply IH|].
    destruct (SessionManager.user_text l); [apply clip_length|apply IH].
Qed.

Lemma read_preview_skip (l : jsstring) (lines : list jsstring) (n : Z)
  (e : SessionManager.StreamEnd) :
  SessionManager.user_text l = None ->
  SessionManager.read_preview (l :: lines) n e =
  if n + 1 >? MAX_PREVIEW_LINES then js "(no user messages)"
  else SessionManager.read_preview lines (n + 1) e.
Proof.
  intros H. cbn [SessionManager.read_preview]. rewrite H.
  by destruct (js_length (trim l) =? 0).
Qed.

Lemma read_preview_found (l text : jsstring) (lines : list jsstring) (n : Z)
  (e : SessionManager.StreamEnd) :
  SessionManager.user_text l = Some text -> n < MAX_PREVIEW_LINES ->
  SessionManager.read_preview (l :: lines) n e = SessionManager.clip text.
Proof.
  intros H Hn. cbn [SessionManager.read_preview]. rewrite H.
  destruct (n + 1 >? MAX_PREVIEW_LINES) eqn:H1; [lia|].
  destruct (js_length (trim l) =? 0) eqn:H2; [|done].
  apply Z.eqb_eq, blank_no_user_text in H2. congruence.
Qed.

Lemma read_preview_first_user (skipped : list jsstring) (l text : jsstring)
  (rest : list jsstring) (n : Z) (e : SessionManager.StreamEnd) :
  Forall (fun x => SessionManager.user_text x = None) skipped ->
  n + Z.of_nat (length skipped) < MAX_PREVIEW_LINES ->
  SessionManager.user_text l = Some text ->
  SessionManager.read_preview (skipped ++ l :: rest) n e = SessionManager.clip text.
Proof.
  intros Hs. revert n. induction Hs as [|x skipped Hx Hs IH]; intros n Hn Hl.
  - apply read_preview_found; [done|]. simpl in Hn. lia.
  - cbn [app]. rewrite read_preview_skip by done.
    cbn [length] in Hn.
    destruct (n + 1 >? MAX_PREVIEW_LINES) eqn:H1; [lia|].
    apply IH; [lia|done].
Qed.

Lemma read_preview_none (lines : list jsstring) (n : Z)
  (e : SessionManager.StreamEnd) :
  Forall (fun x => SessionManager.user_text x = None) lines ->
  0 <= n <= MAX_PREVIEW_LINES ->
  SessionManager.read_preview lines n e =
  if MAX_PREVIEW_LINES <? n + Z.of_nat (length lines) then js "(no user messages)"
  else match e with
       | SessionManager.Failed => js "(read error)"
       | SessionManager.Closed =>
           if n + Z.of_nat (length lines) =? 0 then js "(empty session)"
           else js "(no user messages)"
       end.
Proof.
  intros Hs. revert n. induction Hs as [|x lines Hx Hs IH]; intros n Hn.
  - cbn [SessionManager.read_preview length]. rewrite Z.add_0_r.
    destruct (MAX_PREVIEW_LINES <? n) eqn:H; [lia|done].
  - rewrite read_preview_skip by done. cbn [length].
    replace (n + Z.of_nat (S (length lines)))
      with (n + 1 + Z.of_nat (length lines)) by lia.
    destruct (n + 1 >? MAX_PREVIEW_LINES) eqn:H1.
    + destruct (MAX_PREVIEW_LINES <? n + 1 + Z.of_nat (length lines)) eqn:H2;
        [done|].
      rewrite Z.gtb_ltb in H1. apply Z.ltb_lt in H1. apply Z.ltb_ge in H2. lia.
    + apply IH. rewrite Z.gtb_ltb in H1. apply Z.ltb_ge in H1. lia.
Qed.

Lemma read_preview_window (k : nat) (lines : list jsstring)
  (e : SessionManager.StreamEnd) :
  (k <= 100)%nat -> (k < length lines)%nat ->
  SessionManager.read_preview lines (100 - Z.of_nat k) e =
  SessionManager.read_preview (take k lines) (100 - Z.of_nat k) SessionManager.Closed.
Proof.
  revert lines. induction k as [|k IH]; intros [|l lines] Hk Hlen;
    try (simpl in Hlen; lia).
  - cbn [take SessionManager.read_preview]. done.
  - cbn [take SessionManager.read_preview].
    replace (100 - Z.of_nat (S k) + 1) with (100 - Z.of_nat k) by lia.
    rewrite <- IH by (simpl in Hlen; lia). done.
Qed.

Lemma read_preview_window_0 (lines : list jsstring)
  (e : SessionManager.StreamEnd) :
  (100 < length lines)%nat ->
  SessionManager.read_preview lines 0 e =
  SessionManager.read_preview (take 100 lines) 0 SessionManager.Closed.
Proof. intros H. apply (read_preview_window 100 lines e); lia. Qed.

(** X3. Whatever the file holds and however its stream ends, the preview
    that extractPreview resolves with has at most MAX_PREVIEW_LENGTH + 3 =
    103 code units. *)
Theorem extractPreview_length (fs : SessionManager.FileSystem) (filePath : jsstring) :
  js_length (SessionManager.extractPreview fs filePath) <= MAX_PREVIEW_LENGTH + 3.
Proof.
  unfold SessionManager.extractPreview.
  destruct (SessionManager.readLines fs filePath). apply read_preview_length.
Qed.

(** X4. The preview is decided by the first line, among the first 100, that
    is a user message with text (JSON with type user and a message object
    whose content is a non-empty string): every earlier line (blank, not
    JSON, another type, or a user message without such content) is skipped,
    later lines and the end of the stream do not matter, and the preview is
    the trimmed content, whole when it has at most 100 units and otherwise
    its first 100 units followed by three dots. *)
Theorem extractPreview_first_user_message
  (fs : SessionManager.FileSystem) (filePath : jsstring)
  (skipped : list jsstring) (l text : jsstring) (rest : list jsstring)
  (e : SessionManager.StreamEnd) :
  SessionManager.readLines fs filePath = (skipped ++ l :: rest, e) ->
  Forall (fun x => SessionManager.user_text x = None) skipped ->
  Z.of_nat (length skipped) < MAX_PREVIEW_LINES ->
  SessionManager.user_text l = Some text ->
  SessionManager.extractPreview fs filePath
  = if js_length text >? MAX_PREVIEW_LENGTH
    then take 100 text ++ js "..." else text.
Proof.
  intros Hfile Hs Hn Hl. unfold SessionManager.extractPreview. rewrite Hfile.
  by apply read_preview_first_user.
Qed.

(** X5. A file none of whose lines is a user message with text gets a
    placeholder: '(no user messages)' when it has more than 100 lines,
    whatever happens to the stream afterwards; otherwise '(read error)' when
    the stream fails, '(empty session)' when it closes without any line, and
    '(no user messages)' when it closes after at least one line. *)
Theorem extractPreview_without_user_message
  (fs : SessionManager.FileSystem) (filePath : jsstring)
  (lines : list jsstring) (e : SessionManager.StreamEnd) :
  SessionManager.readLines fs filePath = (lines, e) ->
  Forall (fun x => SessionManager.user_text x = None) lines ->
  SessionManager.extractPreview fs filePath
  = if MAX_PREVIEW_LINES <? Z.of_nat (length lines) then js "(no user messages)"
    else match e, lines with
         | SessionManager.Failed, _ => js "(read error)"
         | SessionManager.Closed, [] => js "(empty session)"
         | SessionManager.Closed, _ :: _ => js "(no user messages)"
         end.
Proof.
  intros Hfile Hs. unfold SessionManager.extractPreview. rewrite Hfile.
  rewrite read_preview_none by (done || (unfold MAX_PREVIEW_LINES; lia)).
  rewrite Z.add_0_l. destruct (_ <? _); [done|].
  destruct e; [|done]. by destruct lines.
Qed.

(** X6. extractPreview looks at no line after the 100th: two files of more
    than 100 lines each that agree on their first 100 lines get the same
    preview, whatever follows and however either stream ends. *)
Theorem extractPreview_reads_100_lines
  (fs fs' : SessionManager.FileSystem) (filePath filePath' : jsstring)
  (lines lines' : list jsstring) (e e' : SessionManager.StreamEnd) :
  SessionManager.readLines fs filePath = (lines, e) ->
  SessionManager.readLines fs' filePath' = (lines', e') ->
  (100 < length lines)%nat -> (100 < length lines')%nat ->
  take 100 lines = take 100 lines' ->
  SessionManager.extractPreview fs filePath
  = SessionManager.extractPreview fs' filePath'.
Proof.
  intros H1 H2 Hl Hl' Heq. unfold SessionManager.extractPreview.
  rewrite H1, H2.
  rewrite (read_preview_window_0 lines e), (read_preview_window_0 lines' e')
    by done.
  by rewrite Heq.
Qed.

(** * Listing sessions *)

(** X7. When the project directory can be read, listSessions returns its
    sessions sorted by modification time, newest first, no more of them than
    there are entries; a session is listed exactly when it comes from an
    entry that is not a directory, whose name ends in .jsonl and whose stat
    succeeds, and it carries that name, that file's mtimeMs and the preview
    extracted from that file. *)
Theorem listSessions_newest_first
  (fs : SessionManager.FileSystem) (projectDir : jsstring)
  (entries : list SessionManager.Dirent) :
  SessionManager.readdir fs projectDir = SessionManager.FsOk entries ->
  exists sessions,
    SessionManager.listSessions fs projectDir = Normal sessions
    /\ StronglySorted
         (fun a b => Server.modified b <= Server.modified a) sessions
    /\ (length sessions <= length entries)%nat
    /\ forall s, s ∈ sessions <->
         exists entry,
           entry ∈ entries
           /\ is_session_file entry = true
           /\ Server.filename s = SessionManager.name entry
           /\ SessionManager.stat_mtimeMs fs
                (path.join [projectDir; SessionManager.name entry])
              = Some (Server.modified s)
           /\ Server.preview s
              = SessionManager.extractPreview fs
                  (path.join [projectDir; SessionManager.name entry]).
Proof.
  intros Hdir. unfold SessionManager.listSessions. rewrite Hdir.
  eexists. split; [reflexivity|]. split; [|split].
  - eapply StronglySorted_weaken;
      [|apply js_sort_sorted;
        [apply newer_first_total|apply newer_first_trans]].
    intros a b H. unfold SessionManager.newer_first in H.
    apply Z.leb_le in H. lia.
  - rewrite js_sort_perm.
    etransitivity; [|apply (length_filter
      (fun entry => negb (SessionManager.isDirectory entry)
                    && endsWith (SessionManager.name entry) (js ".jsonl")))].
    rewrite <- (length_map SessionManager.name).
    generalize (map SessionManager.name
      (filter (fun entry => negb (SessionManager.isDirectory entry)
                 && endsWith (SessionManager.name entry) (js ".jsonl")) entries)).
    intros names. induction names as [|n names IH]; [done|].
    cbn [flat_map length]. rewrite length_app.
    unfold SessionManager.session_of at 1.
    destruct (SessionManager.stat_mtimeMs _ _); simpl; lia.
  - intros s. rewrite js_sort_perm. rewrite list_elem_of_In, in_flat_map.
    setoid_rewrite <- list_elem_of_In. setoid_rewrite list_elem_of_fmap.
    setoid_rewrite list_elem_of_filter. unfold is_session_file. split.
    + intros (fname & (entry & -> & Hf & Hin) & Hs).
      exists entry. split; [done|]. split; [by apply Is_true_true|].
      unfold SessionManager.session_of in Hs.
      destruct (SessionManager.stat_mtimeMs _ _); [|by apply elem_of_nil in Hs].
      apply list_elem_of_singleton in Hs. by subst s.
    + intros (entry & Hin & Hf & Hname & Hstat & Hprev).
      exists (SessionManager.name entry). split.
      * exists entry. split; [done|]. split; [by apply Is_true_true|done].
      * unfold SessionManager.session_of. rewrite Hstat.
        apply list_elem_of_singleton. destruct s. simpl in *. congruence.
Qed.

(** * The handlers of a connection: what every run keeps *)

Lemma deliver_forward msgs : forall sent,
  deliver Server.forward msgs sent = sent ++ map Server.Forwarded msgs.
Proof.
  induction msgs as [|m ms IH]; intros sent; simpl.
  - by rewrite app_nil_r.
  - change (fold_left (fun w' m0 => Server.forward m0 w') ms (Server.forward m sent))
      with (deliver Server.forward ms (Server.forward m sent)).
    rewrite IH. unfold Server.forward. by rewrite <- app_assoc.
Qed.

Lemma line_messages_allowed l v :
  v ∈ line_messages l -> is_system v = false /\ v <> JSON.JNull.
Proof.
  unfold line_messages. destruct (js_length (trim l) =? 0); [by intros ?%elem_of_nil|].
  destruct (JSON.parse l) as [json|e]; [|by intros ?%elem_of_nil].
  destruct json; try (by intros ?%elem_of_nil);
    try (destruct (is_system _) eqn:E; [by intros ?%elem_of_nil|]);
    intros ->%list_elem_of_singleton; done.
Qed.

(** The output callback on a wired connection, below the ceiling: the
    messages of the complete lines are forwarded in order. *)
Lemma on_output_forwards c parser chunk :
  Server.streamParser c = Some parser ->
  StreamParser.messageCallback parser = Some Server.forward ->
  js_length (StreamParser.buffer parser ++ chunk) <= MAX_BUFFER_SIZE ->
  Server.on_output chunk c =
    {| Server.cliRunner := Server.cliRunner c;
       Server.streamParser :=
         Some {| StreamParser.buffer :=
                   pending (StreamParser.buffer parser ++ chunk);
                 StreamParser.messageCallback := Some Server.forward |};
       Server.sent :=
         Server.sent c
         ++ map Server.Forwarded
              (flat_map line_messages
                 (complete_lines (StreamParser.buffer parser ++ chunk))) |}.
Proof.
  intros Hp Hcb Hle. unfold Server.on_output. rewrite Hp.
  rewrite parse_normal by exact Hle.
  rewrite (process_lines_deliver _ Server.forward) by exact Hcb.
  rewrite deliver_forward, Hcb. reflexivity.
Qed.

Lemma forwarded_allowed lines :
  Forall frame_allowed (map Server.Forwarded (flat_map line_messages lines)).
Proof.
  apply Forall_forall. intros f Hf.
  apply list_elem_of_fmap in Hf as (v & -> & Hv).
  apply list_elem_of_In, in_flat_map in Hv as (l & _ & Hv).
  apply list_elem_of_In in Hv. simpl. by eapply line_messages_allowed.
Qed.

Lemma notice_allowed m : m ∈ generic_notices -> frame_allowed (Server.ErrorNotice m).
Proof. done. Qed.

Lemma on_output_allowed chunk c :
  wired c -> Forall frame_allowed (Server.sent c) ->
  wired (Server.on_output chunk c)
  /\ Forall frame_allowed (Server.sent (Server.on_output chunk c)).
Proof.
  intros Hw Hs. destruct (Server.streamParser c) as [parser|] eqn:Hp.
  - specialize (Hw parser Hp).
    destruct (Z.le_gt_cases (js_length (StreamParser.buffer parser ++ chunk))
                MAX_BUFFER_SIZE) as [Hle|Hgt].
    + rewrite (on_output_forwards c parser) by done. split.
      * by intros p [= <-].
      * apply Forall_app. split; [done|apply forwarded_allowed].
    + rewrite (on_output_overflow c parser) by done. split.
      * by intros p [= <-].
      * apply Forall_app. split; [done|].
        repeat constructor.
  - unfold Server.on_output. rewrite Hp. split.
    + intros p. simpl. congruence.
    + simpl. apply Forall_app. split; [done|].
      repeat constructor.
Qed.

Lemma on_message_allowed env data c w :
  wired c -> Forall frame_allowed (Server.sent c) ->
  wired (Server.conn (Server.on_message env data c w))
  /\ Forall frame_allowed (Server.sent (Server.conn (Server.on_message env data c w))).
Proof.
  intros Hw Hs.
  assert (Hn : frame_allowed request_failed) by repeat constructor.
  unfold Server.on_message, Server.dispatch, Server.on_start, Server.on_input,
    Server.on_list_projects, Server.on_list_sessions, Server.on_stop, wired.
  repeat case_match; simplify_eq;
    cbn [Server.conn Server.sent Server.streamParser Server.send] in *;
    (split; [intros p ?; simplify_eq; auto
            |rewrite ?Forall_app; repeat split; auto]);
    by repeat constructor.
Qed.

(** Where the connection of a socket comes from, after a step. *)
Lemma step_lookup env w e ws c' :
  Server.connections (Server.step env w e) !! ws = Some c' ->
  Server.connections w !! ws = Some c'
  \/ c' = idle_connection
  \/ exists c, Server.connections w !! ws = Some c /\
       ((exists data, c' = Server.conn (Server.on_message env data c w))
        \/ (exists chunk, c' = Server.on_output chunk c)
        \/ (exists chunk, c' = Server.on_error chunk c)
        \/ (exists code, c' = Server.on_exit code c)).
Proof.
  destruct e as [origin|ws' data|ws'|ws' chunk|ws' chunk|ws' code];
    cbn [Server.step];
    try (destruct (Server.connections w !! ws') as [c|] eqn:Hws; [|by left]).
  - unfold Server.handleConnection.
    destruct (negb _); [by left|]. destruct (_ >=? _); [by left|].
    cbn [Server.connections].
    destruct (decide (Server.next_ws w = ws)) as [<-|Hne].
    + rewrite lookup_insert_eq. intros [= <-]. by right; left.
    + rewrite lookup_insert_ne by done. by left.
  - cbn [Server.connections].
    destruct (decide (ws' = ws)) as [<-|Hne].
    + rewrite lookup_insert_eq. intros [= <-]. right. right. eauto 10.
    + rewrite lookup_insert_ne by done. by left.
  - cbn [Server.on_close Server.connections].
    intros [_ H]%lookup_delete_Some. by left.
  - cbn [Server.update Server.connections].
    destruct (decide (ws' = ws)) as [<-|Hne].
    + rewrite lookup_insert_eq. intros [= <-]. right. right. eauto 10.
    + rewrite lookup_insert_ne by done. by left.
  - cbn [Server.update Server.connections].
    destruct (decide (ws' = ws)) as [<-|Hne].
    + rewrite lookup_insert_eq. intros [= <-]. right. right. eauto 10.
    + rewrite lookup_insert_ne by done. by left.
  - cbn [Server.update Server.connections].
    destruct (decide (ws' = ws)) as [<-|Hne].
    + rewrite lookup_insert_eq. intros [= <-]. right. right. eauto 10.
    + rewrite lookup_insert_ne by done. by left.
Qed.

Lemma run_snoc env w events e :
  Server.run env w (events ++ [e]) = Server.step env (Server.run env w events) e.
Proof. unfold Server.run. by rewrite fold_left_app. Qed.

Lemma connection_allowed env events : forall ws c,
  Server.connections (Server.run env Server.init events) !! ws = Some c ->
  wired c /\ Forall frame_allowed (Server.sent c).
Proof.
  induction events as [|e events IH] using rev_ind; intros ws c.
  - cbn. by rewrite lookup_empty.
  - rewrite run_snoc. intros H.
    apply step_lookup in H
      as [H|[->|(c0 & H & [[data ->]|[[chunk ->]|[[chunk ->]|[code ->]]]])]].
    + by apply IH in H.
    + split; [by intros p|constructor].
    + apply IH in H as [Hw Hs]. by apply on_message_allowed.
    + apply IH in H as [Hw Hs]. by apply on_output_allowed.
    + apply IH in H as [Hw Hs]. split; [done|]. simpl.
      apply Forall_app. split; [done|]. by repeat constructor.
    + apply IH in H as [Hw Hs]. split; [done|]. simpl.
      apply Forall_app. split; [done|]. by repeat constructor.
Qed.

(** X8. By send site, of the objects that the handlers of an open socket
    have given to [JSON.stringify] and [ws.send] in any state that the
    server reaches: each one built by an error path of the server (the
    [catch] of the message handler, the [catch] of the output callback, the
    callback of stderr) carries one of the three fixed messages ('Failed to
    process request', 'Failed to parse CLI output', 'CLI process encountered
    an error'), so neither [err.message] nor the text of stderr; each one
    handed over by the callback of the decoder is a decoded message of the
    CLI that is not of type [system] and is not the value [null].  Nothing
    is said of the text that results: a message of the CLI is forwarded
    with whatever it holds, one of type [error] with its own text, and
    [JSON.stringify] renders a number outside the range of doubles, which
    is not [null] as a value, as [null]. *)
Theorem notices_are_fixed_and_system_is_not_forwarded env events ws c :
  Server.connections (Server.run env Server.init events) !! ws = Some c ->
  Forall frame_allowed (Server.sent c).
Proof. intros H. by apply connection_allowed in H as [_ H]. Qed.

Lemma notices_are_fixed_and_system_is_not_forwarded_witness :
  Forall frame_allowed
    [Server.Started None; request_failed;
     Server.Forwarded (JSON.JObject [(js "type", JSON.JString (js "result"))]);
     Server.ErrorNotice (js "CLI process encountered an error");
     Server.Exit (Some 0)].
Proof.
  apply (notices_are_fixed_and_system_is_not_forwarded example_env
           [Server.Connect None;
            Server.Message 0 (Some (start_message None));
            Server.Message 0 None;
            Server.Stdout 0 (line (jsq "{'type':'system'}")
                             ++ line (jsq "{'type':'result'}"));
            Server.Stderr 0 (js "warning");
            Server.ProcessClose 0 (Some 0)]
           0%nat
           {| Server.cliRunner := None;
              Server.streamParser :=
                Some (StreamParser.onMessage StreamParser.new Server.forward);
              Server.sent :=
                [Server.Started None; request_failed;
                 Server.Forwarded
                   (JSON.JObject [(js "type", JSON.JString (js "result"))]);
                 Server.ErrorNotice (js "CLI process encountered an error");
                 Server.Exit (Some 0)] |}).
  vm_compute. reflexivity.
Defined.

(** * Spawning *)

Lemma on_start_spawned m c sp :
  exists calls,
    snd (fst (Server.on_start m c sp)) = sp ++ calls
    /\ Forall spawn_call_allowed calls /\ (length calls <= 1)%nat.
Proof.
  unfold Server.on_start, CLIRunner.new. rewrite or_null_idempotent.
  destruct (or_null (Server.sessionId m)) as [t|];
    [destruct (validateSessionId t) as [[]|e] eqn:E|]; cbn.
  - eexists [_]. split; [reflexivity|]. split; [|simpl; lia].
    apply Forall_singleton. split; [reflexivity|]. split; [reflexivity|].
    right. exists t. split; [by apply validateSessionId_spec|reflexivity].
  - exists []. rewrite app_nil_r. split; [done|]. split; [constructor|simpl; lia].
  - eexists [_]. split; [reflexivity|]. split; [|simpl; lia].
    apply Forall_singleton. split; [reflexivity|]. split; [reflexivity|].
    by left.
Qed.

Lemma on_message_spawned env data c w :
  exists calls,
    Server.spawned' (Server.on_message env data c w) = Server.spawned w ++ calls
    /\ Forall spawn_call_allowed calls
    /\ (length calls <= match data with
                        | Some m => if Server.type_is m "start" then 1 else 0
                        | None => 0
                        end)%nat.
Proof.
  assert (Hnone : exists calls : list CLIRunner.SpawnCall,
            Server.spawned w = Server.spawned w ++ calls
            /\ Forall spawn_call_allowed calls /\ (length calls <= 0)%nat).
  { exists []. by rewrite app_nil_r. }
  destruct data as [m|]; [|exact Hnone].
  destruct (Server.type_is m "start") eqn:Ht.
  - unfold Server.on_message, Server.dispatch. rewrite Ht.
    destruct (on_start_spawned m c (Server.spawned w)) as (calls & H1 & H2 & H3).
    destruct (Server.on_start m c (Server.spawned w)) as [[c' sp] [u|e]];
      simpl in *; eauto.
  - unfold Server.on_message, Server.dispatch. rewrite Ht.
    repeat case_match; exact Hnone.
Qed.

Lemma step_spawned env w e :
  exists calls,
    Server.spawned (Server.step env w e) = Server.spawned w ++ calls
    /\ Forall spawn_call_allowed calls
    /\ (length calls <= if is_start e then 1 else 0)%nat.
Proof.
  assert (Hnone : forall n, exists calls : list CLIRunner.SpawnCall,
            Server.spawned w = Server.spawned w ++ calls
            /\ Forall spawn_call_allowed calls /\ (length calls <= n)%nat).
  { intros n. exists []. rewrite app_nil_r. repeat split; [constructor|simpl; lia]. }
  destruct e as [origin|ws data|ws|ws chunk|ws chunk|ws code];
    cbn [Server.step is_start];
    try (destruct (Server.connections w !! ws) as [c|] eqn:Hws; [|by apply Hnone]);
    try apply Hnone.
  - unfold Server.handleConnection.
    destruct (negb _); [apply Hnone|]. destruct (_ >=? _); apply Hnone.
  - cbn [Server.spawned].
    destruct (on_message_spawned env data c w) as (calls & H1 & H2 & H3).
    exists calls. split; [done|]. split; [done|]. by destruct data.
Qed.

(** X9. In every state that the server reaches, every call of spawn made so
    far is for the command claude, without a shell, with the arguments -p
    --output-format stream-json followed by nothing or by -r and a token of
    the UUID format; and there are at most as many calls as start requests
    were received. *)
Theorem spawn_calls_are_allowed env events :
  let w := Server.run env Server.init events in
  Forall spawn_call_allowed (Server.spawned w)
  /\ (length (Server.spawned w) <= length (List.filter is_start events))%nat.
Proof.
  cbv zeta. induction events as [|e events IH] using rev_ind.
  - split; [constructor|simpl; lia].
  - rewrite run_snoc. destruct IH as [IH1 IH2].
    destruct (step_spawned env (Server.run env Server.init events) e)
      as (calls & -> & H1 & H2).
    split; [by apply Forall_app|].
    rewrite List.filter_app, !length_app. cbn [List.filter].
    destruct (is_start e); simpl in *; lia.
Qed.

(** * The session directory *)

Lemma on_message_directory env data c w :
  exists calls,
    Server.directory' (Server.on_message env data c w)
    = Server.directory w ++ calls
    /\ Forall (directory_call_allowed env) calls.
Proof.
  assert (Hnone : exists calls : list Server.DirectoryCall,
            Server.directory w = Server.directory w ++ calls
            /\ Forall (directory_call_allowed env) calls).
  { exists []. by rewrite app_nil_r. }
  unfold Server.on_message, Server.dispatch, Server.on_list_projects,
    Server.on_list_sessions.
  repeat case_match; simplify_eq; cbn [Server.directory']; try exact Hnone;
    eexists [_]; (split; [reflexivity|]); apply Forall_singleton; simpl; auto;
    right; by apply check_passes_inside.
Qed.

(** X10. In every state that the server reaches, every directory whose
    sessions were listed so far is the default project directory or lies
    inside the base directory of the projects. *)
Theorem directory_calls_stay_inside_base env events :
  Forall (directory_call_allowed env)
    (Server.directory (Server.run env Server.init events)).
Proof.
  induction events as [|e events IH] using rev_ind; [constructor|].
  rewrite run_snoc. set (w := Server.run env Server.init events) in *.
  destruct e as [origin|ws data|ws|ws chunk|ws chunk|ws code];
    cbn [Server.step];
    try (destruct (Server.connections w !! ws) as [c|] eqn:Hws; [|exact IH]);
    try exact IH.
  - unfold Server.handleConnection.
    destruct (negb _); [exact IH|]. by destruct (_ >=? _).
  - cbn [Server.directory].
    destruct (on_message_directory env data c w) as (calls & -> & H).
    by apply Forall_app.
Qed.

(** * Sockets *)

(** X11. An event changes the state of no socket but its own: the connection
    (runner, decoder, frames sent) of every other socket is the same before
    and after the step. *)
Theorem event_leaves_other_sockets env w e ws :
  ws <> socket_of w e ->
  Server.connections (Server.step env w e) !! ws = Server.connections w !! ws.
Proof.
  intros Hne.
  destruct e as [origin|ws' data|ws'|ws' chunk|ws' chunk|ws' code];
    cbn [Server.step socket_of] in *;
    try (destruct (Server.connections w !! ws') as [c|] eqn:Hws; [|done]);
    cbn [Server.update Server.on_close Server.connections].
  - unfold Server.handleConnection.
    destruct (negb _); [done|]. destruct (_ >=? _); [done|].
    cbn [Server.connections]. by rewrite lookup_insert_ne.
  - by rewrite lookup_insert_ne.
  - by rewrite lookup_delete_ne.
  - by rewrite lookup_insert_ne.
  - by rewrite lookup_insert_ne.
  - by rewrite lookup_insert_ne.
Qed.

Lemma event_leaves_other_sockets_witness :
  Server.connections
    (Server.step example_env
       (Server.run example_env Server.init [Server.Connect None; Server.Connect None])
       (Server.Message 1 (Some (start_message None)))) !! 0%nat
  = Server.connections
      (Server.run example_env Server.init [Server.Connect None; Server.Connect None])
    !! 0%nat.
Proof.
  apply (event_leaves_other_sockets example_env
           (Server.run example_env Server.init
              [Server.Connect None; Server.Connect None])
           (Server.Message 1 (Some (start_message None))) 0%nat).
  simpl. lia.
Defined.

Lemma refused_invariant env events :
  let w := Server.run env Server.init events in
  forall ws, ws ∈ Server.refused w ->
    (ws < Server.next_ws w)%nat /\ Server.connections w !! ws = None.
Proof.
  cbv zeta. induction events as [|e events IH] using rev_ind.
  - intros ws H. by apply elem_of_nil in H.
  - rewrite run_snoc.
    pose proof (run_invariant env events Server.init init_invariant)
      as (_ & _ & Hnew).
    set (w := Server.run env Server.init events) in *.
    destruct e as [origin|ws' data|ws'|ws' chunk|ws' chunk|ws' code];
      cbn [Server.step];
      try (destruct (Server.connections w !! ws') as [c|] eqn:Hws; [|exact IH]);
      cbn [Server.update Server.on_close Server.connections Server.refused
           Server.next_ws].
    + assert (Hr : forall ws,
        ws ∈ Server.refused w ++ [Server.next_ws w] ->
        (ws < S (Server.next_ws w))%nat /\ Server.connections w !! ws = None).
      { intros ws [H|H%list_elem_of_singleton]%elem_of_app.
        - apply IH in H as [H1 H2]. split; [lia|done].
        - subst ws. split; [lia|]. by apply Hnew. }
      unfold Server.handleConnection.
      destruct (negb _); [exact Hr|]. destruct (_ >=? _); [exact Hr|].
      cbn [Server.connections Server.refused Server.next_ws].
      intros ws H. apply IH in H as [H1 H2]. split; [lia|].
      rewrite lookup_insert_ne by lia. done.
    + intros ws H. apply IH in H as [H1 H2]. split; [done|].
      rewrite lookup_insert_ne by congruence. done.
    + intros ws H. apply IH in H as [H1 H2]. split; [done|].
      by apply lookup_delete_None; right.
    + intros ws H. apply IH in H as [H1 H2]. split; [done|].
      rewrite lookup_insert_ne by congruence. done.
    + intros ws H. apply IH in H as [H1 H2]. split; [done|].
      rewrite lookup_insert_ne by congruence. done.
    + intros ws H. apply IH in H as [H1 H2]. split; [done|].
      rewrite lookup_insert_ne by congruence. done.
Qed.

(** X12. A socket that handleConnection refused (origin not allowed, or
    ceiling reached) never has handlers: in every reachable state it is not
    among the connections, and a message, close or process event on it
    leaves the whole state of the server as it was. *)
Theorem refused_socket_has_no_handlers env events ws :
  let w := Server.run env Server.init events in
  ws ∈ Server.refused w ->
  Server.connections w !! ws = None
  /\ forall e, socket_of w e = ws -> (forall origin, e <> Server.Connect origin) ->
               Server.step env w e = w.
Proof.
  intros w H. apply refused_invariant in H as [_ H]. fold w in H.
  split; [done|]. intros e <- Hc.
  destruct e as [origin|ws' data|ws'|ws' chunk|ws' chunk|ws' code];
    cbn [Server.step socket_of] in *; try by rewrite H.
  by destruct (Hc origin).
Qed.

Lemma refused_socket_has_no_handlers_witness :
  let w := Server.run example_env Server.init
             [Server.Connect (Some (js "http://evil-localhost.com"))] in
  Server.connections w !! 0%nat = None
  /\ Server.step example_env w (Server.Message 0 (Some (start_message None))) = w.
Proof.
  destruct (refused_socket_has_no_handlers example_env
              [Server.Connect (Some (js "http://evil-localhost.com"))] 0%nat)
    as [H1 H2].
  - vm_compute. apply list_elem_of_here.
  - split; [exact H1|]. apply H2; [reflexivity|discriminate].
Defined.

(** * Requests *)

(** X13. An input request with valid text on a connection that has no runner
    (none started yet, or stopped, or exited) fails with 'CLI not started':
    the client is sent the generic failure notice and nothing else happens,
    no spawn, no kill, no directory call. *)
Theorem input_without_runner env m c w input :
  Server.type m = Some (js "input") ->
  Server.text m = Some input ->
  acceptable input ->
  Server.cliRunner c = None ->
  Server.on_message env (Some m) c w
  = {| Server.conn := Server.send request_failed c;
       Server.spawned' := Server.spawned w;
       Server.killed' := Server.killed w;
       Server.directory' := Server.directory w;
       Server.result := Throw (Error (js "CLI not started")) |}.
Proof.
  intros Ht Htext Hok Hr. rewrite on_message_input by exact Ht.
  unfold Server.on_input. rewrite Htext.
  rewrite (proj2 (validateInput_spec input) Hok), Hr. reflexivity.
Qed.

Lemma input_without_runner_witness :
  Server.on_message example_env (Some (input_message (js "Hello")))
    idle_connection Server.init
  = {| Server.conn := Server.send request_failed idle_connection;
       Server.spawned' := [];
       Server.killed' := [];
       Server.directory' := [];
       Server.result := Throw (Error (js "CLI not started")) |}.
Proof.
  apply (input_without_runner example_env (input_message (js "Hello"))
           idle_connection Server.init (js "Hello"));
    try reflexivity.
  vm_compute. split; discriminate.
Defined.



(** X15. Data that is not JSON, and a message whose type is none of start,
    input, list-projects, list-sessions and stop (compared exactly, so Start
    is none of them), only get the generic failure notice: runner and
    decoder stay, nothing is spawned, killed or listed; the error raised is
    the SyntaxError of JSON.parse or 'Unknown message type: ' followed by
    the type (undefined when there is none). *)
Theorem unrecognised_request_only_notifies env data c w :
  match data with
  | None => True
  | Some m =>
      Forall (fun t => Server.type_is m t = false)
        ["start"; "input"; "list-projects"; "list-sessions"; "stop"]%string
  end ->
  Server.on_message env data c w
  = {| Server.conn := Server.send request_failed c;
       Server.spawned' := Server.spawned w;
       Server.killed' := Server.killed w;
       Server.directory' := Server.directory w;
       Server.result :=
         match data with
         | None => Throw SyntaxError
         | Some m =>
             Throw (Error (js "Unknown message type: "
                           ++ default (js "undefined") (Server.type m)))
         end |}.
Proof.
  destruct data as [m|]; [|reflexivity].
  intros H. unfold Server.on_message, Server.dispatch.
  repeat (apply Forall_cons in H as [-> H]). reflexivity.
Qed.

Lemma unrecognised_request_only_notifies_witness :
  Server.on_message example_env
    (Some {| Server.type := Some (js "Start"); Server.sessionId := None;
             Server.text := None; Server.projectName := None |})
    active_connection Server.init
  = {| Server.conn := Server.send request_failed active_connection;
       Server.spawned' := [];
       Server.killed' := [];
       Server.directory' := [];
       Server.result := Throw (Error (js "Unknown message type: Start")) |}.
Proof.
  apply (unrecognised_request_only_notifies example_env
           (Some {| Server.type := Some (js "Start"); Server.sessionId := None;
                    Server.text := None; Server.projectName := None |})
           active_connection Server.init).
  repeat constructor.
Defined.

(** * Turns *)

Lemma on_message_stop env m c w :
  Server.type m = Some (js "stop") ->
  Server.on_message env (Some m) c w =
    let '(c', kl) := Server.on_stop c (Server.killed w) in
    {| Server.conn := c';
       Server.spawned' := Server.spawned w;
       Server.killed' := kl;
       Server.directory' := Server.directory w;
       Server.result := Normal tt |}.
Proof.
  intros Ht. unfold Server.on_message, Server.dispatch, Server.type_is.
  rewrite Ht.
  change (str_eqb (js "stop") (js "start")) with false.
  change (str_eqb (js "stop") (js "input")) with false.
  change (str_eqb (js "stop") (js "list-projects")) with false.
  change (str_eqb (js "stop") (js "list-sessions")) with false.
  change (str_eqb (js "stop") (js "stop")) with true.
  cbv iota. destruct (Server.on_stop c (Server.killed w)). reflexivity.
Qed.



(** X16. A stop request on a connection whose runner has a process kills
    that process once and clears the runner, sends no frame and keeps the
    decoder; a stop request that follows does nothing at all. *)
Theorem stop_request_kills_once env m c w runner p :
  Server.type m = Some (js "stop") ->
  Server.cliRunner c = Some runner ->
  CLIRunner.process runner = Some p ->
  let o := Server.on_message env (Some m) c w in
  Server.result o = Normal tt
  /\ Server.killed' o = Server.killed w ++ [killed_once p]
  /\ Server.conn o
     = {| Server.cliRunner := None;
          Server.streamParser := Server.streamParser c;
          Server.sent := Server.sent c |}
  /\ forall w',
       Server.on_message env (Some m) (Server.conn o) w'
       = {| Server.conn := Server.conn o;
            Server.spawned' := Server.spawned w';
            Server.killed' := Server.killed w';
            Server.directory' := Server.directory w';
            Server.result := Normal tt |}.
Proof.
  intros Ht Hr Hp. cbv zeta.
  assert (Ho : Server.on_message env (Some m) c w
               = {| Server.conn :=
                      {| Server.cliRunner := None;
                         Server.streamParser := Server.streamParser c;
                         Server.sent := Server.sent c |};
                    Server.spawned' := Server.spawned w;
                    Server.killed' := Server.killed w ++ [killed_once p];
                    Server.directory' := Server.directory w;
                    Server.result := Normal tt |}).
  { rewrite on_message_stop by exact Ht.
    unfold Server.on_stop, CLIRunner.stop. rewrite Hr, Hp. reflexivity. }
  rewrite Ho. cbn [Server.result Server.killed' Server.conn].
  split; [reflexivity|]. split; [reflexivity|]. split; [reflexivity|].
  intros w'. rewrite on_message_stop by exact Ht. reflexivity.
Qed.

Lemma stop_request_kills_once_witness :
  let o := Server.on_message example_env (Some stop_message)
             connection_in_turn Server.init in
  Server.result o = Normal tt
  /\ Server.killed' o = [] ++ [killed_once new_process]
  /\ Server.conn o
     = {| Server.cliRunner := None;
          Server.streamParser := Server.streamParser connection_in_turn;
          Server.sent := [] |}
  /\ forall w',
       Server.on_message example_env (Some stop_message) (Server.conn o) w'
       = {| Server.conn := Server.conn o;
            Server.spawned' := Server.spawned w';
            Server.killed' := Server.killed w';
            Server.directory' := Server.directory w';
            Server.result := Normal tt |}.
Proof.
  apply (stop_request_kills_once example_env stop_message connection_in_turn
           Server.init running new_process); reflexivity.
Defined.


Lemma pending_length s : js_length (pending s) <= js_length s.
Proof.
  pose proof (stream_lines_pending s) as H.
  apply (f_equal js_length) in H. rewrite js_length_app in H.
  pose proof (js_length_nonneg
    (concat (map (fun l => l ++ [LF]) (complete_lines s)))). lia.
Qed.

(** The output of a process on a wired connection, chunk after chunk and
    within the ceiling: what is forwarded are the messages of the complete
    lines of the stream, in order; the decoder holds the rest. *)
Lemma stdout_stream env ws cs : forall w c parser,
  Server.connections w !! ws = Some c ->
  Server.streamParser c = Some parser ->
  StreamParser.messageCallback parser = Some Server.forward ->
  LF ∉ StreamParser.buffer parser ->
  js_length (StreamParser.buffer parser ++ concat cs) <= MAX_BUFFER_SIZE ->
  Server.connections (Server.run env w (map (Server.Stdout ws) cs)) !! ws
  = Some {| Server.cliRunner := Server.cliRunner c;
            Server.streamParser :=
              Some {| StreamParser.buffer :=
                        pending (StreamParser.buffer parser ++ concat cs);
                      StreamParser.messageCallback := Some Server.forward |};
            Server.sent :=
              Server.sent c
              ++ map Server.Forwarded
                   (flat_map line_messages
                      (complete_lines (StreamParser.buffer parser ++ concat cs))) |}.
Proof.
  induction cs as [|chunk cs IH]; intros w c parser Hws Hp Hcb Hno Hle.
  - cbn [map concat Server.run fold_left]. rewrite app_nil_r.
    rewrite pending_no_LF_id, complete_lines_no_LF by exact Hno.
    cbn [flat_map map]. rewrite app_nil_r, Hws. f_equal.
    destruct c as [r sp st]. cbn in *. rewrite Hp. f_equal. f_equal.
    destruct parser. cbn in *. by rewrite Hcb.
  - cbn [map concat] in *. rewrite app_assoc in Hle.
    assert (Hle1 : js_length (StreamParser.buffer parser ++ chunk) <= MAX_BUFFER_SIZE).
    { rewrite js_length_app in Hle. pose proof (js_length_nonneg (concat cs)). lia. }
    change (Server.run env w (Server.Stdout ws chunk :: map (Server.Stdout ws) cs))
      with (Server.run env (Server.step env w (Server.Stdout ws chunk))
              (map (Server.Stdout ws) cs)).
    cbn [Server.step]. rewrite Hws.
    rewrite (on_output_forwards c parser) by done.
    erewrite IH; [| apply lookup_insert_eq | reflexivity | reflexivity
                  | apply pending_no_LF | ].
    + cbn [Server.cliRunner Server.sent StreamParser.buffer].
      rewrite <- pending_app, <- app_assoc, <- app_assoc.
      rewrite (app_assoc (StreamParser.buffer parser) chunk (concat cs)).
      rewrite (complete_lines_app (StreamParser.buffer parser ++ chunk)).
      by rewrite flat_map_app, map_app.
    + cbn [StreamParser.buffer]. rewrite js_length_app in *.
      pose proof (pending_length (StreamParser.buffer parser ++ chunk)). lia.
Qed.

(** X17. A whole turn on an open socket, with [cs] the texts that
    [chunk.toString()] gives for the chunks of output, one for each chunk:
    after an accepted start request, chunks whose texts stay together
    within the buffer ceiling, and the exit of the process, the handlers
    have given to [JSON.stringify] and [ws.send], in this order: the
    acknowledgement; the decoded messages of the complete lines of the
    concatenation of the texts, line by line; the exit frame.  The text
    after the last newline is never forwarded, and the runner is cleared.
    Nothing is said of how the bytes of the output are cut into chunks:
    each chunk is decoded on its own, and the statement starts from the
    decoded texts [cs]. *)
Theorem turn_output_is_forwarded_in_order env w ws c m cs code :
  Server.connections w !! ws = Some c ->
  Server.type m = Some (js "start") ->
  (forall t, or_null (Server.sessionId m) = Some t -> token_format t) ->
  js_length (concat cs) <= MAX_BUFFER_SIZE ->
  let w' := Server.run env w
              (Server.Message ws (Some m) :: map (Server.Stdout ws) cs
               ++ [Server.ProcessClose ws code]) in
  exists c',
    Server.connections w' !! ws = Some c'
    /\ Server.cliRunner c' = None
    /\ Server.sent c'
       = Server.sent c
         ++ [Server.Started (or_null (Server.sessionId m))]
         ++ map Server.Forwarded
              (flat_map line_messages (complete_lines (concat cs)))
         ++ [Server.Exit code].
Proof.
  intros Hws Ht Hfmt Hle. cbv zeta.
  change (Server.run env w (Server.Message ws (Some m)
            :: map (Server.Stdout ws) cs ++ [Server.ProcessClose ws code]))
    with (Server.run env (Server.step env w (Server.Message ws (Some m)))
            (map (Server.Stdout ws) cs ++ [Server.ProcessClose ws code])).
  destruct (on_start_well_formed m c (Server.spawned w) Hfmt)
    as (runner & Hstart & Hproc).
  assert (H1 : Server.connections (Server.step env w (Server.Message ws (Some m)))
               !! ws
               = Some {| Server.cliRunner := Some runner;
                         Server.streamParser :=
                           Some (StreamParser.onMessage StreamParser.new
                                   Server.forward);
                         Server.sent :=
                           Server.sent c
                           ++ [Server.Started (or_null (Server.sessionId m))] |}).
  { cbn [Server.step]. rewrite Hws, on_message_start by exact Ht.
    rewrite Hstart. apply lookup_insert_eq. }
  set (w1 := Server.step env w (Server.Message ws (Some m))) in *.
  rewrite run_snoc. cbn [Server.step].
  rewrite (stdout_stream env ws cs w1 _ _ H1 eq_refl eq_refl)
    by (done || by intros H%elem_of_nil).
  cbn [Server.update Server.connections]. eexists.
  split; [apply lookup_insert_eq|]. split; [reflexivity|].
  cbn. by rewrite <- !app_assoc.
Qed.

Lemma turn_output_is_forwarded_in_order_witness :
  let w' := Server.run example_env
              (Server.run example_env Server.init [Server.Connect None])
              (Server.Message 0 (Some (start_message None))
               :: map (Server.Stdout 0)
                    [jsq "{'type':'assis"; line (jsq "tant'}") ++ js "{'type'"]
               ++ [Server.ProcessClose 0 (Some 0)]) in
  exists c',
    Server.connections w' !! 0%nat = Some c'
    /\ Server.cliRunner c' = None
    /\ Server.sent c'
       = [Server.Started None;
          Server.Forwarded
            (JSON.JObject [(js "type", JSON.JString (js "assistant"))]);
          Server.Exit (Some 0)].
Proof.
  apply (turn_output_is_forwarded_in_order example_env
           (Server.run example_env Server.init [Server.Connect None])
           0%nat idle_connection (start_message None)
           [jsq "{'type':'assis"; line (jsq "tant'}") ++ js "{'type'"]
           (Some 0)).
  - reflexivity.
  - reflexivity.
  - intros t H. discriminate.
  - vm_compute. discriminate.
Defined.

(** Every runner that a connection holds has a process. *)
Lemma runner_has_process env events : forall ws c runner,
  Server.connections (Server.run env Server.init events) !! ws = Some c ->
  Server.cliRunner c = Some runner ->
  CLIRunner.process runner <> None.
Proof.
  induction events as [|e events IH] using rev_ind; intros ws c runner.
  - cbn. by rewrite lookup_empty.
  - rewrite run_snoc. intros H Hr.
    apply step_lookup in H
      as [H|[->|(c0 & H & [[data ->]|[[chunk ->]|[[chunk ->]|[code ->]]]])]].
    + by eapply IH.
    + discriminate.
    + specialize (IH ws c0). revert Hr.
      unfold Server.on_message, Server.dispatch, Server.on_start,
        Server.on_input, Server.on_list_projects, Server.on_list_sessions,
        Server.on_stop, CLIRunner.new, CLIRunner.start, CLIRunner.sendInput.
      repeat case_match; simplify_eq;
        cbn [Server.conn Server.cliRunner Server.send CLIRunner.process
             CLIRunner.onOutput CLIRunner.onError CLIRunner.onExit] in *;
        intros; simplify_eq; try done; try (by eapply IH).
    + apply (IH ws c0); [done|]. revert Hr. unfold Server.on_output.
      repeat case_match; done.
    + by apply (IH ws c0).
    + discriminate.
Qed.

(** X18. In every state that the server reaches, a runner held by a
    connection has a process, and the close of that socket kills this
    process once and removes the socket; a second close event kills nothing. *)
Theorem close_kills_the_running_process env events ws c runner :
  let w := Server.run env Server.init events in
  Server.connections w !! ws = Some c ->
  Server.cliRunner c = Some runner ->
  let w' := Server.step env w (Server.Close ws) in
  exists p,
    CLIRunner.process runner = Some p
    /\ Server.killed w' = Server.killed w ++ [killed_once p]
    /\ Server.connections w' !! ws = None
    /\ Server.killed (Server.step env w' (Server.Close ws)) = Server.killed w'.
Proof.
  intros w Hws Hr w'.
  pose proof (runner_has_process env events ws c runner Hws Hr) as Hp.
  destruct (CLIRunner.process runner) as [p|] eqn:E; [|done].
  exists p. split; [done|]. subst w'. cbn [Server.step]. rewrite Hws.
  cbn [Server.on_close Server.connections Server.killed].
  rewrite lookup_delete_eq, Hr. unfold CLIRunner.stop. rewrite E.
  cbn [Server.on_close Server.killed]. rewrite Hr. unfold CLIRunner.stop.
  rewrite E. done.
Qed.

Lemma close_kills_the_running_process_witness :
  let w := Server.run example_env Server.init
             [Server.Connect None; Server.Message 0 (Some (start_message None))] in
  let w' := Server.step example_env w (Server.Close 0) in
  exists p : CLIRunner.ChildProcess Server.Callback,
    CLIRunner.process (fresh_runner None) = Some p
    /\ Server.killed w' = Server.killed w ++ [killed_once p]
    /\ Server.connections w' !! 0%nat = None
    /\ Server.killed (Server.step example_env w' (Server.Close 0))
       = Server.killed w'.
Proof.
  apply (close_kills_the_running_process example_env
           [Server.Connect None; Server.Message 0 (Some (start_message None))]
           0%nat started_connection (fresh_runner None) eq_refl eq_refl).
Defined.

(** X19. When the process of a connection exits, the client is sent the exit
    frame with the code and the runner is cleared while the decoder stays;
    the counter of connections does not move, nothing is killed, and closing
    the socket afterwards kills nothing either. *)
Theorem process_exit_ends_the_turn env w ws c code :
  Server.connections w !! ws = Some c ->
  let w' := Server.step env w (Server.ProcessClose ws code) in
  Server.connections w' !! ws
  = Some {| Server.cliRunner := None;
            Server.streamParser := Server.streamParser c;
            Server.sent := Server.sent c ++ [Server.Exit code] |}
  /\ Server.activeConnections w' = Server.activeConnections w
  /\ Server.killed w' = Server.killed w
  /\ Server.killed (Server.step env w' (Server.Close ws)) = Server.killed w.
Proof.
  intros Hws. cbv zeta. cbn [Server.step]. rewrite Hws.
  cbn [Server.update Server.connections Server.killed Server.activeConnections].
  rewrite lookup_insert_eq. done.
Qed.

Lemma process_exit_ends_the_turn_witness :
  let w := Server.run example_env Server.init
             [Server.Connect None; Server.Message 0 (Some (start_message None))] in
  let w' := Server.step example_env w (Server.ProcessClose 0 (Some 1)) in
  Server.connections w' !! 0%nat
  = Some {| Server.cliRunner := None;
            Server.streamParser := Server.streamParser started_connection;
            Server.sent := Server.sent started_connection
                           ++ [Server.Exit (Some 1)] |}
  /\ Server.activeConnections w' = Server.activeConnections w
  /\ Server.killed w' = Server.killed w
  /\ Server.killed (Server.step example_env w' (Server.Close 0)) = Server.killed w.
Proof.
  apply (process_exit_ends_the_turn example_env
           (Server.run example_env Server.init
              [Server.Connect None; Server.Message 0 (Some (start_message None))])
           0%nat
           started_connection
           (Some 1) eq_refl).
Defined.


(** X20. A start request without token or with a token of the format always
    succeeds, whatever the connection held: the connection gets a new runner
    with a new process to which the three callbacks are attached once, and a
    new decoder with an empty buffer (text pending from an earlier turn is
    dropped); the acknowledgement with the token is sent, one process is
    spawned, and no process is killed, so the process of a runner that was
    still held is left running. *)
Theorem start_request_begins_afresh env m c w :
  Server.type m = Some (js "start") ->
  (forall t, or_null (Server.sessionId m) = Some t -> token_format t) ->
  let o := Server.on_message env (Some m) c w in
  Server.result o = Normal tt
  /\ Server.conn o
     = {| Server.cliRunner := Some (fresh_runner (or_null (Server.sessionId m)));
          Server.streamParser :=
            Some {| StreamParser.buffer := [];
                    StreamParser.messageCallback := Some Server.forward |};
          Server.sent :=
            Server.sent c ++ [Server.Started (or_null (Server.sessionId m))] |}
  /\ Server.killed' o = Server.killed w
  /\ length (Server.spawned' o) = S (length (Server.spawned w)).
Proof.
  intros Ht Hfmt. cbv zeta. rewrite on_message_start by exact Ht.
  unfold Server.on_start, CLIRunner.new. rewrite or_null_idempotent.
  destruct (or_null (Server.sessionId m)) as [t|] eqn:E.
  - rewrite (proj2 (validateSessionId_spec t)) by auto.
    cbn. rewrite length_app. simpl. repeat split; lia.
  - cbn. rewrite length_app. simpl. repeat split; lia.
Qed.

Lemma start_request_begins_afresh_witness :
  let o := Server.on_message example_env (Some (start_message None))
             {| Server.cliRunner := Some running;
                Server.streamParser :=
                  Some {| StreamParser.buffer := jsq "{'type':'assis";
                          StreamParser.messageCallback := Some Server.forward |};
                Server.sent := [] |}
             Server.init in
  Server.result o = Normal tt
  /\ Server.conn o
     = {| Server.cliRunner := Some (fresh_runner None);
          Server.streamParser :=
            Some {| StreamParser.buffer := [];
                    StreamParser.messageCallback := Some Server.forward |};
          Server.sent := [] ++ [Server.Started None] |}
  /\ Server.killed' o = []
  /\ length (Server.spawned' o) = 1%nat.
Proof.
  apply (start_request_begins_afresh example_env (start_message None)
           {| Server.cliRunner := Some running;
              Server.streamParser :=
                Some {| StreamParser.buffer := jsq "{'type':'assis";
                        StreamParser.messageCallback := Some Server.forward |};
              Server.sent := [] |}
           Server.init eq_refl).
  intros t H. discriminate.
Defined.

(** * Listing sessions over a file system *)

Lemma listSessions_sorted fs projectDir sessions :
  SessionManager.listSessions fs projectDir = Normal sessions ->
  StronglySorted (fun a b => Server.modified b <= Server.modified a) sessions
  /\ Forall (fun s => endsWith (Server.filename s) (js ".jsonl") = true) sessions.
Proof.
  unfold SessionManager.listSessions.
  destruct (SessionManager.readdir fs projectDir) as [entries|code message].
  - intros [= <-]. split.
    + eapply StronglySorted_weaken;
        [|apply js_sort_sorted;
          [apply newer_first_total|apply newer_first_trans]].
      intros a b H. unfold SessionManager.newer_first in H.
      apply Z.leb_le in H. lia.
    + rewrite js_sort_perm. apply Forall_forall. intros s Hs.
      apply list_elem_of_In, in_flat_map in Hs as (fname & Hf & Hs).
      apply list_elem_of_In, list_elem_of_fmap in Hf as (entry & -> & Hf).
      apply list_elem_of_filter in Hf as [Hf _].
      apply Is_true_true, andb_true_iff in Hf as [_ Hf].
      unfold SessionManager.session_of in Hs.
      destruct (SessionManager.stat_mtimeMs _ _); [|done].
      destruct Hs as [<-|[]]. exact Hf.
  - destruct (str_eqb code (js "ENOENT")); [|discriminate].
    intros [= <-]. split; constructor.
Qed.


(** X21. With the session manager reading a file system, a list-sessions
    request that succeeds has listed one directory, the default project
    directory or one inside the base, and has sent one sessions frame with
    what listSessions returned for it: session files (names ending in
    .jsonl) sorted newest first. *)
Theorem list_sessions_request_answers_newest_first env fs m c w :
  Server.type m = Some (js "list-sessions") ->
  let o := Server.on_message (with_file_system env fs) (Some m) c w in
  Server.result o = Normal tt ->
  exists dir sessions,
    Server.directory' o = Server.directory w ++ [Server.ListSessions dir]
    /\ directory_call_allowed env (Server.ListSessions dir)
    /\ SessionManager.listSessions fs dir = Normal sessions
    /\ Server.conn o = Server.send (Server.Sessions sessions) c
    /\ StronglySorted (fun a b => Server.modified b <= Server.modified a)
         sessions
    /\ Forall (fun s => endsWith (Server.filename s) (js ".jsonl") = true)
         sessions.
Proof.
  intros Ht. cbv zeta. rewrite on_message_list_sessions by exact Ht.
  unfold Server.on_list_sessions.
  change (Server.listSessions (with_file_system env fs))
    with (SessionManager.listSessions fs).
  change (Server.PROJECTS_BASE_DIR (with_file_system env fs))
    with (Server.PROJECTS_BASE_DIR env).
  change (Server.PROJECT_DIR (with_file_system env fs))
    with (Server.PROJECT_DIR env).
  change (Server.homedir (with_file_system env fs)) with (Server.homedir env).
  change (Server.cwd (with_file_system env fs)) with (Server.cwd env).
  destruct (or_null (Server.projectName m)) as [name|].
  - destruct (negb _ && negb _) eqn:E; [discriminate|].
    destruct (SessionManager.listSessions fs _) as [sessions|e] eqn:El;
      [|discriminate].
    intros _. eexists _, sessions. split; [reflexivity|].
    split; [right; by apply check_passes_inside|]. split; [exact El|].
    split; [reflexivity|]. by apply listSessions_sorted in El.
  - destruct (SessionManager.listSessions fs _) as [sessions|e] eqn:El;
      [|discriminate].
    intros _. eexists _, sessions. split; [reflexivity|].
    split; [by left|]. split; [exact El|].
    split; [reflexivity|]. by apply listSessions_sorted in El.
Qed.

Lemma list_sessions_request_answers_newest_first_witness :
  let o := Server.on_message (with_file_system example_env example_fs)
             (Some list_default_sessions) idle_connection Server.init in
  exists dir sessions,
    Server.directory' o = [] ++ [Server.ListSessions dir]
    /\ directory_call_allowed example_env (Server.ListSessions dir)
    /\ SessionManager.listSessions example_fs dir = Normal sessions
    /\ Server.conn o = Server.send (Server.Sessions sessions) idle_connection
    /\ StronglySorted (fun a b => Server.modified b <= Server.modified a)
         sessions
    /\ Forall (fun s => endsWith (Server.filename s) (js ".jsonl") = true)
         sessions.
Proof.
  apply (list_sessions_request_answers_newest_first example_env example_fs
           list_default_sessions idle_connection Server.init eq_refl).
  vm_compute. reflexivity.
Defined.

(** The example directory: the two session files, the newer first, each
    with the text of its first user message. *)
Example test_list_sessions_example :
  Server.sent
    (Server.conn
       (Server.on_message (with_file_system example_env example_fs)
          (Some list_default_sessions) idle_connection Server.init))
  = [Server.Sessions
       [{| Server.filename := js "new.jsonl"; Server.preview := js "New";
           Server.modified := 6000 |};
        {| Server.filename := js "old.jsonl"; Server.preview := js "Old";
           Server.modified := 1000 |}]].
Proof. vm_compute. reflexivity. Qed.

Example test_list_projects_example :
  Server.sent
    (Server.conn
       (Server.on_message (with_file_system example_env example_fs)
          (Some list_projects_message) idle_connection Server.init))
  = [Server.Projects [js "alpha"; js "zebra"] None].
Proof. vm_compute. reflexivity. Qed.

(** * The runner: registration and restart *)

(** X22. On a runner as the constructor returns it, registering the three
    callbacks and then starting gives the same runner, with the same
    listeners on its process and the same spawn call, as starting and then
    registering them. *)
Theorem registration_commutes_with_start
  {C} (options_sessionId : option jsstring) (r : CLIRunner.t C)
  (out err exit : C) spawned :
  CLIRunner.new options_sessionId = Normal r ->
  exists r1 spawned1,
    CLIRunner.start
      (CLIRunner.onExit (CLIRunner.onError (CLIRunner.onOutput r out) err) exit)
      spawned
    = Normal (r1, spawned1)
    /\ exists r0,
         CLIRunner.start r spawned = Normal (r0, spawned1)
         /\ CLIRunner.onExit (CLIRunner.onError (CLIRunner.onOutput r0 out) err)
              exit
            = r1.
Proof.
  unfold CLIRunner.new.
  destruct (or_null options_sessionId) as [s|];
    [destruct (validateSessionId s); [|discriminate]|];
    intros [= <-]; eexists _, _; (split; [reflexivity|]);
    eexists; split; reflexivity.
Qed.

Lemma registration_commutes_with_start_witness :
  exists (r1 : CLIRunner.t nat) spawned1,
    CLIRunner.start
      (CLIRunner.onExit
         (CLIRunner.onError
            (CLIRunner.onOutput
               {| CLIRunner.sessionId := None; CLIRunner.process := None;
                  CLIRunner.outputCallback := None;
                  CLIRunner.errorCallback := None;
                  CLIRunner.exitCallback := None |} 1%nat) 2%nat) 3%nat)
      []
    = Normal (r1, spawned1)
    /\ exists r0,
         CLIRunner.start
           {| CLIRunner.sessionId := None; CLIRunner.process := None;
              CLIRunner.outputCallback := None;
              CLIRunner.errorCallback := None;
              CLIRunner.exitCallback := None |} []
         = Normal (r0, spawned1)
         /\ CLIRunner.onExit
              (CLIRunner.onError (CLIRunner.onOutput r0 1%nat) 2%nat) 3%nat
            = r1.
Proof.
  apply (registration_commutes_with_start None _ 1%nat 2%nat 3%nat []).
  reflexivity.
Defined.

(** X23. Registering a second output callback replaces the first before the
    process is started (only the second listens once it starts) but adds to
    it afterwards (both listen, in order of registration, after the
    listeners already there). *)
Theorem second_registration_replaces_or_adds
  {C} (r : CLIRunner.t C) (first second : C) spawned :
  match CLIRunner.process r with
  | None =>
      exists r1 spawned1 p,
        CLIRunner.start
          (CLIRunner.onOutput (CLIRunner.onOutput r first) second) spawned
        = Normal (r1, spawned1)
        /\ CLIRunner.process r1 = Some p
        /\ CLIRunner.stdout_data p = [second]
  | Some p0 =>
      exists p,
        CLIRunner.process (CLIRunner.onOutput (CLIRunner.onOutput r first) second)
        = Some p
        /\ CLIRunner.stdout_data p = CLIRunner.stdout_data p0 ++ [first; second]
  end.
Proof.
  destruct (CLIRunner.process r) as [p0|] eqn:E.
  - unfold CLIRunner.onOutput. rewrite E. eexists. split; [reflexivity|].
    cbn. by rewrite <- app_assoc.
  - unfold CLIRunner.start, CLIRunner.onOutput. rewrite E. cbn.
    eexists _, _, _. split; [reflexivity|]. split; reflexivity.
Qed.

(** X24. A runner with a process refuses to start ('CLI process already
    running'); stop kills the process once and clears it, a second stop does
    nothing, sendInput then fails with 'CLI process not started', and start
    then succeeds again with one more spawn call, the same token and a new
    process to which the callbacks registered before are attached. *)
Theorem runner_restarts_after_stop {C} (r : CLIRunner.t C) p input spawned :
  CLIRunner.process r = Some p ->
  let r1 := fst (CLIRunner.stop r) in
  CLIRunner.start r spawned = Throw (Error (js "CLI process already running"))
  /\ snd (CLIRunner.stop r) = Some (killed_once p)
  /\ CLIRunner.stop r1 = (r1, None)
  /\ CLIRunner.sendInput r1 input
     = Throw (Error (js "CLI process not started"))
  /\ exists r2 call,
       CLIRunner.start r1 spawned = Normal (r2, spawned ++ [call])
       /\ CLIRunner.process r2
          = Some {| CLIRunner.stdin := [];
                    CLIRunner.stdout_data :=
                      CLIRunner.attach (CLIRunner.outputCallback r) [];
                    CLIRunner.stderr_data :=
                      CLIRunner.attach (CLIRunner.errorCallback r) [];
                    CLIRunner.close :=
                      CLIRunner.attach (CLIRunner.exitCallback r) [];
                    CLIRunner.kill := 0 |}
       /\ CLIRunner.sessionId r2 = CLIRunner.sessionId r.
Proof.
  intros Hp. cbv zeta. unfold CLIRunner.stop, CLIRunner.start. rewrite Hp.
  cbn. split; [reflexivity|]. split; [reflexivity|]. split; [reflexivity|].
  split; [reflexivity|]. eexists _, _. split; [reflexivity|].
  split; reflexivity.
Qed.

Lemma runner_restarts_after_stop_witness :
  let r1 := fst (CLIRunner.stop (@running nat)) in
  CLIRunner.start (@running nat) []
  = Throw (Error (js "CLI process already running"))
  /\ snd (CLIRunner.stop (@running nat)) = Some (killed_once new_process)
  /\ CLIRunner.stop r1 = (r1, None)
  /\ CLIRunner.sendInput r1 (js "Hello")
     = Throw (Error (js "CLI process not started"))
  /\ exists r2 call,
       CLIRunner.start r1 [] = Normal (r2, [] ++ [call])
       /\ CLIRunner.process r2
          = Some {| CLIRunner.stdin := [];
                    CLIRunner.stdout_data := CLIRunner.attach None [];
                    CLIRunner.stderr_data := CLIRunner.attach None [];
                    CLIRunner.close := CLIRunner.attach None [];
                    CLIRunner.kill := 0 |}
       /\ CLIRunner.sessionId r2 = None.
Proof.
  apply (runner_restarts_after_stop (@running nat) new_process (js "Hello") []).
  reflexivity.
Defined.

(** * The decoder: bounds, overflow, registration *)

(** X25. After a call of parse that returns normally, from any state of the
    decoder, the buffer holds no newline, has at most MAX_BUFFER_SIZE units
    and no more than buffer and chunk had together, and the registered
    callback is unchanged. *)
Theorem normal_return_bounds_the_buffer
  {W} (p : StreamParser.t W) chunk w :
  snd (StreamParser.parse p chunk w) = Normal tt ->
  let p' := fst (fst (StreamParser.parse p chunk w)) in
  (LF ∉ StreamParser.buffer p')
  /\ js_length (StreamParser.buffer p') <= MAX_BUFFER_SIZE
  /\ js_length (StreamParser.buffer p')
     <= js_length (StreamParser.buffer p) + js_length chunk
  /\ StreamParser.messageCallback p' = StreamParser.messageCallback p.
Proof.
  intros H. apply (proj1 (parse_result p chunk w)) in H. cbv zeta.
  rewrite parse_normal by exact H. cbn [fst StreamParser.buffer StreamParser.messageCallback].
  pose proof (pending_length (StreamParser.buffer p ++ chunk)) as Hl.
  rewrite <- js_length_app.
  split; [apply pending_no_LF|]. split; [lia|]. split; [exact Hl|reflexivity].
Qed.

Lemma normal_return_bounds_the_buffer_witness :
  let p' := fst (fst (StreamParser.parse recorder
                        (line (js "1") ++ js "{'type'") [])) in
  (LF ∉ StreamParser.buffer p')
  /\ js_length (StreamParser.buffer p') <= MAX_BUFFER_SIZE
  /\ js_length (StreamParser.buffer p')
     <= js_length (StreamParser.buffer recorder)
        + js_length (line (js "1") ++ js "{'type'")
  /\ StreamParser.messageCallback p' = StreamParser.messageCallback recorder.
Proof.
  apply (normal_return_bounds_the_buffer recorder
           (line (js "1") ++ js "{'type'") []).
  vm_compute. reflexivity.
Defined.

(** X26. Once a call of parse has thrown, the decoder never recovers: the
    callback was not called, and every later call, whatever its chunk (even
    an empty one), throws 'Buffer size exceeded maximum limit', calls no
    callback and appends its chunk to the buffer. *)
Theorem overflow_is_permanent
  {W} (p : StreamParser.t W) chunk w p' w' e later :
  StreamParser.parse p chunk w = (p', w', Throw e) ->
  w' = w
  /\ feed p' later w
     = ({| StreamParser.buffer :=
             StreamParser.buffer p ++ chunk ++ concat later;
           StreamParser.messageCallback := StreamParser.messageCallback p |},
        w,
        map (fun _ => Throw (Error (js "Buffer size exceeded maximum limit")))
          later).
Proof.
  intros H.
  destruct (Z.le_gt_cases (js_length (StreamParser.buffer p ++ chunk))
              MAX_BUFFER_SIZE) as [Hle|Hgt].
  - rewrite parse_normal in H by exact Hle. discriminate.
  - rewrite parse_overflow in H by lia. injection H as <- <- _.
    split; [reflexivity|]. rewrite feed_overflowed by (simpl; lia).
    cbn [StreamParser.buffer StreamParser.messageCallback].
    by rewrite <- app_assoc.
Qed.

(** X27. While buffer and chunk together hold no newline and stay within the
    ceiling, parse only appends the chunk to the buffer: nothing is decoded
    and the callback is not called, even when the text is a complete JSON
    value. *)
Theorem text_without_delimiter_waits {W} (p : StreamParser.t W) chunk w :
  LF ∉ StreamParser.buffer p ++ chunk ->
  js_length (StreamParser.buffer p ++ chunk) <= MAX_BUFFER_SIZE ->
  StreamParser.parse p chunk w
  = ({| StreamParser.buffer := StreamParser.buffer p ++ chunk;
        StreamParser.messageCallback := StreamParser.messageCallback p |},
     w, Normal tt).
Proof.
  intros Hno Hle. rewrite parse_normal by exact Hle.
  rewrite pending_no_LF_id, complete_lines_no_LF by exact Hno. reflexivity.
Qed.

Lemma text_without_delimiter_waits_witness :
  StreamParser.parse recorder (jsq "{'type':'result'}") []
  = ({| StreamParser.buffer := StreamParser.buffer recorder
                               ++ jsq "{'type':'result'}";
        StreamParser.messageCallback := StreamParser.messageCallback recorder |},
     [], Normal tt).
Proof.
  apply (text_without_delimiter_waits recorder (jsq "{'type':'result'}") []).
  - vm_compute. intros H. repeat (apply elem_of_cons in H as [H|H]; [discriminate|]).
    by apply elem_of_nil in H.
  - vm_compute. discriminate.
Defined.

(** X28. Lines completed while no callback is registered are consumed
    without effect and are not replayed: after onMessage, the next call of
    parse delivers only the messages of the lines completed from the pending
    text and the new chunk. *)
Theorem lines_before_registration_are_dropped
  {W} (p : StreamParser.t W) callback chunk1 chunk2 w :
  StreamParser.messageCallback p = None ->
  js_length (StreamParser.buffer p ++ chunk1) <= MAX_BUFFER_SIZE ->
  js_length (pending (StreamParser.buffer p ++ chunk1) ++ chunk2)
  <= MAX_BUFFER_SIZE ->
  let '(p1, w1, r1) := StreamParser.parse p chunk1 w in
  let '(p2, w2, r2) :=
    StreamParser.parse (StreamParser.onMessage p1 callback) chunk2 w1 in
  w1 = w
  /\ StreamParser.buffer p1 = pending (StreamParser.buffer p ++ chunk1)
  /\ w2 = deliver callback
            (flat_map line_messages
               (complete_lines
                  (pending (StreamParser.buffer p ++ chunk1) ++ chunk2))) w.
Proof.
  intros Hcb H1 H2. rewrite parse_normal by exact H1.
  rewrite parse_normal by exact H2.
  cbn [StreamParser.onMessage StreamParser.buffer].
  assert (Hw : forall lines, process_lines p lines w = w).
  { induction lines as [|l lines IH] using rev_ind; [reflexivity|].
    rewrite process_lines_app, IH. cbn.
    by apply process_line_no_callback. }
  rewrite Hw. split; [reflexivity|]. split; [reflexivity|].
  by apply process_lines_deliver.
Qed.

Lemma overflow_is_permanent_witness :
  [] = ([] : list JSON.value)
  /\ feed {| StreamParser.buffer := oversized_chunk;
             StreamParser.messageCallback := Some record |}
       [line (jsq "{'type':'result'}"); js ""] []
     = ({| StreamParser.buffer :=
             StreamParser.buffer recorder ++ oversized_chunk
             ++ concat [line (jsq "{'type':'result'}"); js ""];
           StreamParser.messageCallback := StreamParser.messageCallback recorder |},
        [],
        map (fun _ => Throw (Error (js "Buffer size exceeded maximum limit")))
          [line (jsq "{'type':'result'}"); js ""]).
Proof.
  apply (overflow_is_permanent recorder oversized_chunk []
           {| StreamParser.buffer := oversized_chunk;
              StreamParser.messageCallback := Some record |}
           [] (Error (js "Buffer size exceeded maximum limit"))
           [line (jsq "{'type':'result'}"); js ""]).
  rewrite parse_overflow by (vm_compute; reflexivity). reflexivity.
Defined.

Lemma lines_before_registration_are_dropped_witness :
  let '(p1, w1, r1) :=
    StreamParser.parse (@StreamParser.new (list JSON.value))
      (line (js "1") ++ js "2") [] in
  let '(p2, w2, r2) :=
    StreamParser.parse (StreamParser.onMessage p1 record) (line (js "3")) w1 in
  w1 = []
  /\ StreamParser.buffer p1 = pending ([] ++ line (js "1") ++ js "2")
  /\ w2 = deliver record
            (flat_map line_messages
               (complete_lines
                  (pending ([] ++ line (js "1") ++ js "2") ++ line (js "3")))) [].
Proof.
  apply (lines_before_registration_are_dropped
           (@StreamParser.new (list JSON.value)) record
           (line (js "1") ++ js "2") (line (js "3")) []);
    [reflexivity | vm_compute; discriminate | vm_compute; discriminate].
Defined.

(** A message that arrives before the callback is registered is lost; the
    text pending at registration is completed and delivered. *)
Example test_registration_after_output :
  let '(p1, w1, _) :=
    StreamParser.parse (@StreamParser.new (list JSON.value))
      (line (js "1") ++ js "2") [] in
  snd (fst (StreamParser.parse (StreamParser.onMessage p1 record)
              (line (js "3")) w1))
  = [JSON.JNumber (js "23")].
Proof. vm_compute. reflexivity. Qed.

(** * The session manager on the example directory *)

Lemma listProjects_sorted_directory_names_witness :
  exists projects,
    SessionManager.listProjects (js "/home/user") (js ".claude/projects")
      example_fs None = Normal projects
    /\ StronglySorted (fun a b => str_leb a b = true) projects
    /\ projects ≡ₚ map SessionManager.name
                     (filter (fun entry => SessionManager.isDirectory entry = true)
                        example_project_entries).
Proof.
  apply (listProjects_sorted_directory_names (js "/home/user")
           (js ".claude/projects") example_fs None example_project_entries).
  vm_compute. reflexivity.
Defined.

Lemma listSessions_newest_first_witness :
  exists sessions,
    SessionManager.listSessions example_fs
      (js "/home/user/.claude/projects/default") = Normal sessions
    /\ StronglySorted
         (fun a b => Server.modified b <= Server.modified a) sessions
    /\ (length sessions <= length example_session_entries)%nat
    /\ forall s, s ∈ sessions <->
         exists entry,
           entry ∈ example_session_entries
           /\ is_session_file entry = true
           /\ Server.filename s = SessionManager.name entry
           /\ SessionManager.stat_mtimeMs example_fs
                (path.join [js "/home/user/.claude/projects/default";
                            SessionManager.name entry])
              = Some (Server.modified s)
           /\ Server.preview s
              = SessionManager.extractPreview example_fs
                  (path.join [js "/home/user/.claude/projects/default";
                              SessionManager.name entry]).
Proof.
  apply (listSessions_newest_first example_fs
           (js "/home/user/.claude/projects/default") example_session_entries).
  vm_compute. reflexivity.
Defined.

Lemma extractPreview_first_user_message_witness :
  SessionManager.extractPreview example_fs
    (js "/home/user/.claude/projects/default/old.jsonl")
  = if js_length (js "Old") >? MAX_PREVIEW_LENGTH
    then take 100 (js "Old") ++ js "..." else js "Old".
Proof.
  apply (extractPreview_first_user_message example_fs
           (js "/home/user/.claude/projects/default/old.jsonl")
           [jsq "{'type':'system','subtype':'init'}"]
           (jsq "{'type':'user','message':{'content':'Old'}}") (js "Old")
           [] SessionManager.Closed).
  - vm_compute. reflexivity.
  - repeat constructor.
  - vm_compute. reflexivity.
  - vm_compute. reflexivity.
Defined.

Lemma extractPreview_without_user_message_witness :
  SessionManager.extractPreview example_fs (js "/nowhere")
  = if MAX_PREVIEW_LINES <? Z.of_nat (length (@nil jsstring))
    then js "(no user messages)"
    else js "(read error)".
Proof.
  apply (extractPreview_without_user_message example_fs (js "/nowhere") []
           SessionManager.Failed).
  - vm_compute. reflexivity.
  - constructor.
Defined.

Lemma extractPreview_reads_100_lines_witness :
  SessionManager.extractPreview
    (single_file
       (long_session [jsq "{'type':'user','message':{'content':'Late'}}"])
       SessionManager.Closed) (js "a.jsonl")
  = SessionManager.extractPreview
      (single_file (long_session []) SessionManager.Failed) (js "b.jsonl").
Proof.
  apply (extractPreview_reads_100_lines _ _ _ _
           (long_session [jsq "{'type':'user','message':{'content':'Late'}}"])
           (long_session []) SessionManager.Closed SessionManager.Failed);
    try reflexivity; vm_compute; lia.
Defined.

(** Cases after tests/session-manager.test.js on previews, and a file with
    lines that are not JSON or have the content at the top level. *)
Example test_extractPreview :
  SessionManager.extractPreview
    (single_file
       [jsq "{'type':'system','subtype':'init'}";
        jsq "{'type':'user','message':{'role':'user','content':'Hello, how are you?'}}";
        jsq "{'type':'assistant','message':{'content':[{'type':'text','text':'I am fine'}]}}"]
       SessionManager.Closed) (js "test.jsonl")
  = js "Hello, how are you?"
  /\ SessionManager.extractPreview (single_file [] SessionManager.Closed)
       (js "empty.jsonl") = js "(empty session)"
  /\ SessionManager.extractPreview
       (single_file [jsq "{'type':'system','subtype':'init'}";
                     jsq "{'type':'assistant','message':{'content':'Hello'}}"]
          SessionManager.Closed) (js "no-user.jsonl")
     = js "(no user messages)"
  /\ SessionManager.extractPreview
       (single_file
          [jsq "{'type':'user','message':{'content':'"
           ++ js_repeat (js "a") 150 ++ jsq "'}}"]
          SessionManager.Closed) (js "long.jsonl")
     = js_repeat (js "a") 100 ++ js "..."
  /\ SessionManager.extractPreview
       (single_file
          (long_session [jsq "{'type':'user','message':{'content':'Late'}}"])
          SessionManager.Closed) (js "many.jsonl")
     = js "(no user messages)"
  /\ SessionManager.extractPreview
       (single_file [js "invalid json"; jsq "{'type':'user','content':'Old'}";
                     jsq "{'type':'user','message':{'content':'Valid'}}"]
          SessionManager.Closed) (js "mixed.jsonl")
     = js "Valid".
Proof. repeat split; vm_compute; reflexivity. Qed.
